(** * pluto-sdr-usb-gadget: a shallow embedding of the streaming engines

    The development follows the layout of the C sources:

    - [RingBuffer]  : ring_buffer.c, the bounded FIFO of free slots;
    - [Rx]          : thread_read.c, the IIO -> USB engine;
    - [Tx]          : thread_write.c, the USB -> IIO engine;
    - [Main]        : main.c, the ep0 control plane (start / stop of engines).

    Machine integers are [Z] with the wrap-around written out.  Calls into
    the kernel and into libiio are not part of the repository: their results
    are inputs of the embedded functions, and the calls a function performs
    are recorded in the trace it returns. *)

From stdpp Require Import base list strings.
From Stdlib Require Import ZArith Lia.

Local Open Scope Z_scope.

(** ** Machine integers *)

Definition UINT32_MAX : Z := 4294967295.

(** Storing a value in a [uint32_t]. *)
Definition uint32 (x : Z) : Z := x mod 2 ^ 32.

Definition is_uint32 (x : Z) : Prop := 0 <= x <= UINT32_MAX.

(** ** A monad for C functions: state, trace of calls, undefined behaviour

    A C function working on [state_t *state] is a function from the state to
    either [Fault] (the function used a pointer that is null or freed, or an
    index outside an array: the undefined behaviour that the embedding
    represents) or a return value, the new state and the calls performed,
    oldest first. *)

Inductive outcome (S E A : Type) : Type :=
| Fault : outcome S E A
| Done (a : A) (s : S) (tr : list E) : outcome S E A.

Arguments Fault {S E A}.
Arguments Done {S E A} a s tr.

Definition M (S E A : Type) : Type := S -> outcome S E A.

Global Instance M_ret {S E} : MRet (M S E) :=
  fun A (a : A) s => Done a s [].

Global Instance M_bind {S E} : MBind (M S E) :=
  fun A B (k : A -> M S E B) (m : M S E A) s =>
    match m s with
    | Fault => Fault
    | Done a s1 tr1 =>
        match k a s1 with
        | Fault => Fault
        | Done b s2 tr2 => Done b s2 (tr1 ++ tr2)
        end
    end.

Definition get {S E} : M S E S := fun s => Done s s [].
Definition modify {S E} (f : S -> S) : M S E unit := fun s => Done tt (f s) [].
Definition emit {S E} (e : E) : M S E unit := fun s => Done tt s [e].
Definition fault {S E A} : M S E A := fun _ => Fault.

(** [for (i = 0; i < n; i++) body(xs[i])] over the elements of a list,
    collecting what each iteration yields. *)
Fixpoint for_each {S E A B} (body : A -> M S E B) (xs : list A) : M S E (list B) :=
  match xs with
  | [] => mret []
  | x :: xs' => b ← body x; bs ← for_each body xs'; mret (b :: bs)
  end.

Definition trace_of {S E A} (o : outcome S E A) : list E :=
  match o with Fault => [] | Done _ _ tr => tr end.

(** [m] keeps the property [P] of the state and only performs calls that
    satisfy [Q], whenever it returns. *)
Definition preserves {S E A} (P : S -> Prop) (Q : E -> Prop) (m : M S E A) : Prop :=
  forall s a s' tr, P s -> m s = Done a s' tr -> P s' /\ Forall Q tr.

(** [m] returns from [s]: it does not run into [Fault]. *)
Definition returns {S E A} (m : M S E A) (s : S) : Prop :=
  exists a s' tr, m s = Done a s' tr.

(** ** Calls out of the program

    What the embedded functions record in their traces.  [DEBUG_PRINT]
    output and the time statistics of utils.c are not recorded. *)

Inductive fd : Type :=
| fd_epoll | fd_quit_event | fd_aio_event | fd_stats_timer | fd_iio_buffer
| fd_ep0 | fd_read_thread_event | fd_write_thread_event.

Global Instance fd_eq_dec : EqDecision fd.
Proof. solve_decision. Defined.

Inductive call : Type :=
| Perror (msg : string)
| Fprintf_stderr (msg : string) (args : list Z)
| Printf (msg : string) (args : list Z)
| Epoll_create1
| Epoll_ctl_add (f : fd)
| Eventfd
| Timerfd_create
| Timerfd_settime
| Read (f : fd)
| Write (f : fd)
| Close (f : fd)
| Iio_create_local_context
| Iio_context_find_device
| Iio_channel_disable_all
| Iio_channel_enable (i : nat)
| Iio_device_create_buffer (samples : Z)
| Iio_buffer_refill
| Iio_buffer_push
| Iio_buffer_destroy
| Iio_context_destroy
| Io_setup (n : nat)
| Io_submit (bufs : list nat) (res : Z)
| Io_getevents (ret : Z)
| Io_destroy
| Malloc (ok : bool)
| Free (buf : nat)
| Memcpy_from_iio (buf : nat)
| Memcpy_to_iio (buf : nat)
| Sigprocmask
| Pthread_create (tx : bool) (channels size : Z) (res : Z)
| Pthread_join (tx : bool).

Global Instance call_eq_dec : EqDecision call.
Proof. solve_decision. Defined.

(** The three kinds of call of an engine's teardown that the ordering
    requirement is about. *)
Definition is_teardown (c : call) : bool :=
  match c with
  | Io_destroy | Free _ | Iio_buffer_destroy | Iio_context_destroy => true
  | _ => false
  end.

(** The calls of the set-up and of the main loop: anything but those of
    the teardown. *)
Definition not_teardown (c : call) : Prop := is_teardown c = false.

(** The teardown calls of a trace, in order. *)
Definition teardown_calls (tr : list call) : list call :=
  filter (fun c => is_teardown c = true) tr.

(** The channels that a trace enables, in order. *)
Definition enabled (tr : list call) : list nat :=
  omap (fun c => match c with Iio_channel_enable i => Some i | _ => None end) tr.

(** The channels that a mask selects: bit [i] stands for channel [i],
    for the 32 bits of a [uint32_t]. *)
Definition selected (channels : Z) : list nat :=
  filter (fun i => Z.testbit channels (Z.of_nat i) = true) (seq 0 32).

(** The teardown calls of an engine, in the order of its shutdown. *)
Definition shutdown_order : list call :=
  Io_destroy :: (Free <$> seq 0 16) ++ [Iio_buffer_destroy; Iio_context_destroy].

(** [size_t], [long] and [ssize_t] are 32 bits wide on the target (the
    ARM core of the Pluto). *)
Definition size_t (x : Z) : Z := x mod 2 ^ 32.

(** Reading a 32-bit pattern as a signed value: the casts [(long)] and
    [(ssize_t)]. *)
Definition signed32 (x : Z) : Z :=
  let u := x mod 2 ^ 32 in if u <? 2 ^ 31 then u else u - 2 ^ 32.

Definition ESHUTDOWN : Z := 108.

(** usb_buff.h.  The [iocb] and the sample bytes are not represented: an
    object of the heap has no extent, so that the size that
    [alloc_usb_buffer] passes to [malloc] and the length of the [memcpy] of
    a handler are outside of what is stated about the engines. *)
Record usb_buf_t : Type := { in_use : bool }.

(** libaio.h: one completion.  A [usb_buf_t *] is the position of the
    object in the heap of the engine, [None] is the null pointer.  [data]
    is the [iocb.data] of the request, which [alloc_usb_buffer] points at
    the buffer itself. *)
Record io_event : Type := { data : option nat; res : Z; res2 : Z }.

(** The buffers named by a batch of completions. *)
Definition completed (events : list io_event) : list nat :=
  omap data events.

(** ** ring_buffer.c *)

Module RingBuffer.

Definition RING_BUFFER_NO_INDEX : Z := UINT32_MAX.

Record RING_BUFFER_Ctx_t : Type := {
  capacity : Z;
  usage : Z;
  head : Z;
  tail : Z
}.

(** [memset] to zero, then store the capacity: the old contents are lost. *)
Definition RING_BUFFER_Init (ctx : RING_BUFFER_Ctx_t) (cap : Z) : RING_BUFFER_Ctx_t :=
  {| capacity := cap; usage := 0; head := 0; tail := 0 |}.

Definition RING_BUFFER_Put (ctx : RING_BUFFER_Ctx_t) : Z * RING_BUFFER_Ctx_t :=
  if usage ctx <? capacity ctx then
    let index := head ctx in
    let head1 := uint32 (head ctx + 1) in
    let head2 := if head1 =? capacity ctx then 0 else head1 in
    (index,
     {| capacity := capacity ctx; usage := uint32 (usage ctx + 1);
        head := head2; tail := tail ctx |})
  else (RING_BUFFER_NO_INDEX, ctx).

Definition RING_BUFFER_Get (ctx : RING_BUFFER_Ctx_t) : Z * RING_BUFFER_Ctx_t :=
  if 0 <? usage ctx then
    let index := tail ctx in
    let tail1 := uint32 (tail ctx + 1) in
    let tail2 := if tail1 =? capacity ctx then 0 else tail1 in
    (index,
     {| capacity := capacity ctx; usage := uint32 (usage ctx - 1);
        head := head ctx; tail := tail2 |})
  else (RING_BUFFER_NO_INDEX, ctx).

(** The states a free-list can be in: [RING_BUFFER_Init] followed by any
    number of puts and gets, whatever they return. *)
Inductive reachable (cap : Z) : RING_BUFFER_Ctx_t -> Prop :=
| reach_init ctx0 : reachable cap (RING_BUFFER_Init ctx0 cap)
| reach_put ctx : reachable cap ctx -> reachable cap (snd (RING_BUFFER_Put ctx))
| reach_get ctx : reachable cap ctx -> reachable cap (snd (RING_BUFFER_Get ctx)).

(** Position [k] slots after [t] in a ring of [cap] slots. *)
Definition wrap (cap x : Z) : Z := if x <? cap then x else x - cap.

(** What every reachable context satisfies. *)
Record wf (ctx : RING_BUFFER_Ctx_t) : Prop := {
  wf_capacity : is_uint32 (capacity ctx);
  wf_usage : 0 <= usage ctx <= capacity ctx;
  wf_tail : 0 <= tail ctx /\ (tail ctx < capacity ctx \/ capacity ctx = 0 /\ tail ctx = 0);
  wf_head : head ctx = wrap (capacity ctx) (tail ctx + usage ctx)
}.

(** The slots that [RING_BUFFER_Put] has handed out and [RING_BUFFER_Get]
    has not handed back yet, oldest first. *)
Definition occupied (ctx : RING_BUFFER_Ctx_t) : list Z :=
  (fun k => wrap (capacity ctx) (tail ctx + Z.of_nat k)) <$> seq 0 (Z.to_nat (usage ctx)).

(** A client of the ring: the calls it makes, in order. *)
Inductive op : Type := Op_put | Op_get.

(** What a client sees: the indexes its puts returned, the indexes its
    gets returned (a call that returns [RING_BUFFER_NO_INDEX] is left out,
    as the callers in thread_read.c do), and the context it leaves. *)
Fixpoint run (ops : list op) (ctx : RING_BUFFER_Ctx_t)
  : list Z * list Z * RING_BUFFER_Ctx_t :=
  match ops with
  | [] => ([], [], ctx)
  | Op_put :: ops' =>
      let r := RING_BUFFER_Put ctx in
      let '(ps, gs, ctx') := run ops' (snd r) in
      (if fst r =? RING_BUFFER_NO_INDEX then ps else fst r :: ps, gs, ctx')
  | Op_get :: ops' =>
      let r := RING_BUFFER_Get ctx in
      let '(ps, gs, ctx') := run ops' (snd r) in
      (ps, if fst r =? RING_BUFFER_NO_INDEX then gs else fst r :: gs, ctx')
  end.

End RingBuffer.

(** ** thread_read.c *)

Module Rx.
Import RingBuffer.

Definition NUM_BUFS : nat := 16.

(** thread_read.h *)
Record THREAD_READ_Args_t : Type := {
  iio_channels : Z;
  iio_buffer_size : Z
}.

(** A [usb_buf_t *] is the position of the object in the heap, [None]
    is the null pointer.  A heap cell is [None] once it has been freed.
    [aio_pending] is the kernel's side of [io_ctx]: the requests that
    were submitted and whose completion has not been fetched yet. *)
Record state_t : Type := {
  keep_running : bool;
  usb_buffer_size : Z;
  buffers : list (option nat);
  ring_buf_ctx : RING_BUFFER_Ctx_t;
  ring_buf_data : list (option nat);
  overflows : Z;
  heap : list (option usb_buf_t);
  aio_pending : list nat
}.

Definition set_keep_running (v : bool) (s : state_t) : state_t :=
  {| keep_running := v; usb_buffer_size := usb_buffer_size s; buffers := buffers s;
     ring_buf_ctx := ring_buf_ctx s; ring_buf_data := ring_buf_data s;
     overflows := overflows s; heap := heap s; aio_pending := aio_pending s |}.
Definition set_usb_buffer_size (v : Z) (s : state_t) : state_t :=
  {| keep_running := keep_running s; usb_buffer_size := v; buffers := buffers s;
     ring_buf_ctx := ring_buf_ctx s; ring_buf_data := ring_buf_data s;
     overflows := overflows s; heap := heap s; aio_pending := aio_pending s |}.
Definition set_buffers (v : list (option nat)) (s : state_t) : state_t :=
  {| keep_running := keep_running s; usb_buffer_size := usb_buffer_size s; buffers := v;
     ring_buf_ctx := ring_buf_ctx s; ring_buf_data := ring_buf_data s;
     overflows := overflows s; heap := heap s; aio_pending := aio_pending s |}.
Definition set_ring_buf_ctx (v : RING_BUFFER_Ctx_t) (s : state_t) : state_t :=
  {| keep_running := keep_running s; usb_buffer_size := usb_buffer_size s; buffers := buffers s;
     ring_buf_ctx := v; ring_buf_data := ring_buf_data s;
     overflows := overflows s; heap := heap s; aio_pending := aio_pending s |}.
Definition set_ring_buf_data (v : list (option nat)) (s : state_t) : state_t :=
  {| keep_running := keep_running s; usb_buffer_size := usb_buffer_size s; buffers := buffers s;
     ring_buf_ctx := ring_buf_ctx s; ring_buf_data := v;
     overflows := overflows s; heap := heap s; aio_pending := aio_pending s |}.
Definition set_overflows (v : Z) (s : state_t) : state_t :=
  {| keep_running := keep_running s; usb_buffer_size := usb_buffer_size s; buffers := buffers s;
     ring_buf_ctx := ring_buf_ctx s; ring_buf_data := ring_buf_data s;
     overflows := v; heap := heap s; aio_pending := aio_pending s |}.
Definition set_heap (v : list (option usb_buf_t)) (s : state_t) : state_t :=
  {| keep_running := keep_running s; usb_buffer_size := usb_buffer_size s; buffers := buffers s;
     ring_buf_ctx := ring_buf_ctx s; ring_buf_data := ring_buf_data s;
     overflows := overflows s; heap := v; aio_pending := aio_pending s |}.
Definition set_aio_pending (v : list nat) (s : state_t) : state_t :=
  {| keep_running := keep_running s; usb_buffer_size := usb_buffer_size s; buffers := buffers s;
     ring_buf_ctx := ring_buf_ctx s; ring_buf_data := ring_buf_data s;
     overflows := overflows s; heap := heap s; aio_pending := v |}.

(** [memset(&state, 0x00, sizeof(state))] *)
Definition zero_state : state_t :=
  {| keep_running := false; usb_buffer_size := 0;
     buffers := replicate NUM_BUFS None;
     ring_buf_ctx := {| capacity := 0; usage := 0; head := 0; tail := 0 |};
     ring_buf_data := replicate NUM_BUFS None;
     overflows := 0; heap := []; aio_pending := [] |}.

Abbreviation cmd := (M state_t call).

(** *** Memory accesses *)

(** [buf->in_use = v] *)
Definition store_in_use (buf : option nat) (v : bool) : cmd unit :=
  s ← get;
  match buf with
  | None => fault
  | Some p =>
      match heap s !! p with
      | Some (Some _) => modify (set_heap (<[p := Some {| in_use := v |}]> (heap s)))
      | _ => fault
      end
  end.

(** [state->ring_buf_data[index] = buf] *)
Definition store_ring_buf_data (index : Z) (buf : option nat) : cmd unit :=
  s ← get;
  if (0 <=? index) && (index <? Z.of_nat (length (ring_buf_data s))) then
    modify (set_ring_buf_data (<[Z.to_nat index := buf]> (ring_buf_data s)))
  else fault.

(** [state->ring_buf_data[index]] *)
Definition load_ring_buf_data (index : Z) : cmd (option nat) :=
  s ← get;
  if 0 <=? index then
    match ring_buf_data s !! Z.to_nat index with
    | Some buf => mret buf
    | None => fault
    end
  else fault.

(** [state->buffers[i] = buf] *)
Definition store_buffers (i : nat) (buf : option nat) : cmd unit :=
  s ← get;
  if decide (i < length (buffers s))%nat then
    modify (set_buffers (<[i := buf]> (buffers s)))
  else fault.

Definition ring_put : cmd Z :=
  s ← get;
  let r := RING_BUFFER_Put (ring_buf_ctx s) in
  modify (set_ring_buf_ctx (snd r));; mret (fst r).

Definition ring_get : cmd Z :=
  s ← get;
  let r := RING_BUFFER_Get (ring_buf_ctx s) in
  modify (set_ring_buf_ctx (snd r));; mret (fst r).

(** *** The kernel and libc, as far as the engine's state depends on them *)

(** [io_submit(ctx, 1, &iocb)]: the request is queued iff the call
    returns 1. *)
Definition io_submit (buf : nat) (result : Z) : cmd Z :=
  emit (Io_submit [buf] result);;
  (if result =? 1
   then modify (fun s => set_aio_pending (aio_pending s ++ [buf]) s)
   else mret tt);;
  mret result.

(** [io_getevents(ctx, 1, n, events, &timeout)]: the first [ret] entries
    of [events] are filled in and these requests are no longer pending. *)
Definition io_getevents (ret : Z) (events : list io_event) : cmd Z :=
  emit (Io_getevents ret);;
  modify (fun s =>
    set_aio_pending
      (list_difference (aio_pending s) (completed (take (Z.to_nat ret) events))) s);;
  mret ret.

(** [malloc] in [alloc_usb_buffer]: a fresh object at the end of the heap. *)
Definition malloc (ok : bool) : cmd (option nat) :=
  emit (Malloc ok);;
  if ok then
    s ← get;
    modify (set_heap (heap s ++ [Some {| in_use := false |}]));;
    mret (Some (length (heap s)))
  else mret None.

(** [free(p)]; [free(NULL)] does nothing. *)
Definition free (buf : option nat) : cmd unit :=
  match buf with
  | None => mret tt
  | Some p =>
      s ← get;
      match heap s !! p with
      | Some (Some _) => emit (Free p);; modify (set_heap (<[p := None]> (heap s)))
      | _ => fault
      end
  end.

(** *** Event handlers *)

Section Build.

(** [#define GENERATE_STATS (0)] unless the build sets it. *)
Variable GENERATE_STATS : bool.

Definition handle_eventfd_thread : cmd Z :=
  modify (set_keep_running false);;
  mret 0.

(** The body of the loop over the completions of [handle_eventfd_aio];
    yields what [RING_BUFFER_Put] returned. *)
Definition handle_completion (event : io_event) : cmd Z :=
  s ← get;
  (if negb (usb_buffer_size s =? size_t (res event)) then
     if negb (- ESHUTDOWN =? signed32 (res event)) then
       emit (Fprintf_stderr "USB write completed with error, res: %ld, res2: %ld"
               [res event; res2 event])
     else mret tt
   else mret tt);;
  let buf := data event in
  store_in_use buf false;;
  index ← ring_put;
  store_ring_buf_data index buf;;
  mret index.

Definition handle_eventfd_aio (read_ret ret : Z) (events : list io_event) : cmd Z :=
  emit (Read fd_aio_event);;
  if read_ret <? 0 then
    emit (Perror "Failed to read aio completion eventfd");; mret (-1)
  else
    ret ← io_getevents ret events;
    if ret <? 0 then
      emit (Perror "Failed to read completed io events");; mret (-1)
    else
      for_each handle_completion (take (Z.to_nat ret) events);;
      mret 0.

Definition handle_iio_buffer (nbytes submit_res : Z) : cmd Z :=
  emit Iio_buffer_refill;;
  s ← get;
  if negb (nbytes =? signed32 (usb_buffer_size s)) then
    emit (Fprintf_stderr "RX buffer read failed, expected %zu, read %zd bytes"
            [usb_buffer_size s; nbytes]);;
    mret (-1)
  else
    index ← ring_get;
    if negb (RING_BUFFER_NO_INDEX =? index) then
      buf ← load_ring_buf_data index;
      store_in_use buf true;;
      match buf with
      | None => fault
      | Some p =>
          emit (Memcpy_from_iio p);;
          res ← io_submit p submit_res;
          if negb (1 =? res) then
            emit (Perror "Failed to submit usb write");;
            store_in_use buf false;;
            mret (-1)
          else mret 0
      end
    else
      (if GENERATE_STATS
       then modify (fun s => set_overflows (uint32 (overflows s + 1)) s)
       else mret tt);;
      mret 0.

(** Only compiled with [GENERATE_STATS]. *)
Definition handle_stats_timer (read_ret : Z) : cmd Z :=
  emit (Read fd_stats_timer);;
  if read_ret <? 0 then
    emit (Perror "Failed to read timerfd");; mret 1
  else
    emit (Printf "Read period: min: %llu, max: %llu, avg: %llu (uS)" []);;
    emit (Printf "Read dur: min: %llu, max: %llu, avg: %llu (uS)" []);;
    s ← get;
    (if 0 <? overflows s
     then emit (Printf "Read overflows: %u in last 5s period" [overflows s])
     else mret tt);;
    modify (set_overflows 0);;
    mret 0.

End Build.

(** *** THREAD_READ_Entrypoint *)

(** [io_destroy(ctx)]: cancels what is still pending. *)
Definition io_destroy : cmd unit :=
  emit Io_destroy;; modify (set_aio_pending []).

(** What the calls of the set-up return. *)
Record setup_env : Type := {
  epoll_create1_ret : Z;
  epoll_ctl_quit_ret : Z;
  iio_ctx_found : bool;
  iio_dev_found : bool;
  iio_channel_found : nat -> bool;
  iio_buffer_created : bool;
  epoll_ctl_iio_ret : Z;
  iio_buffer_step : Z;
  io_setup_ret : Z;
  eventfd_ret : Z;
  epoll_ctl_aio_ret : Z;
  malloc_ok : nat -> bool;
  timerfd_create_ret : Z;
  timerfd_settime_ret : Z;
  epoll_ctl_timer_ret : Z
}.

(** What the event loop can find ready, with what the calls of the
    handler will return. *)
Inductive ready : Type :=
| Ready_quit
| Ready_iio (nbytes submit_res : Z)
| Ready_aio (read_ret ret : Z) (events : list io_event)
| Ready_stats (read_ret : Z).

(** One return of [epoll_wait]. *)
Inductive wakeup : Type :=
| Epoll_failed
| Epoll_ready (rs : list ready).

Inductive exit_kind : Type := Setup_failed | Still_running | Exited.

Section Entrypoint.

Variable GENERATE_STATS : bool.

(** [alloc_usb_buffer(size, usb_fd, event_fd)]; [ok] is whether [malloc]
    returns an object.  How large the object is, is not represented (see
    [usb_buf_t]). *)
Definition alloc_usb_buffer (ok : bool) : cmd (option nat) :=
  buf ← malloc ok;
  match buf with
  | None => emit (Perror "alloc_buffer failed");; mret None
  | Some _ => store_in_use buf false;; mret buf
  end.

(** The loop "Enable required channels"; [false] when the function
    returns from inside it. *)
Fixpoint enable_channels (channels : Z) (found : nat -> bool) (ixs : list nat) : cmd bool :=
  match ixs with
  | [] => mret true
  | i :: ixs' =>
      if negb (Z.land channels (Z.shiftl 1 (Z.of_nat i)) =? 0) then
        if negb (found i) then
          emit (Fprintf_stderr "Failed to find iio rx chan %u" [Z.of_nat i]);; mret false
        else
          emit (Iio_channel_enable i);; enable_channels channels found ixs'
      else enable_channels channels found ixs'
  end.

(** The loop "Allocate buffers"; [None] when the function returns from
    inside it, otherwise what the calls of [RING_BUFFER_Put] returned. *)
Fixpoint allocate_buffers (env : setup_env) (ixs : list nat) : cmd (option (list Z)) :=
  match ixs with
  | [] => mret (Some [])
  | i :: ixs' =>
      buf ← alloc_usb_buffer (malloc_ok env i);
      match buf with
      | None => mret None
      | Some _ =>
          store_buffers i buf;;
          index ← ring_put;
          store_ring_buf_data index buf;;
          rest ← allocate_buffers env ixs';
          mret (cons index <$> rest)
      end
  end.

Definition setup_stats (env : setup_env) : cmd bool :=
  emit Timerfd_create;;
  if timerfd_create_ret env <? 0 then
    emit (Perror "Failed to open timerfd");; mret false
  else
    emit Timerfd_settime;;
    if timerfd_settime_ret env <? 0 then
      emit (Perror "Failed to set timerfd");; mret false
    else
      emit (Epoll_ctl_add fd_stats_timer);;
      if epoll_ctl_timer_ret env <? 0 then
        emit (Perror "Failed to register timer eventfd with epoll");; mret false
      else mret true.

(** Everything before "Enter main loop"; [false] when the function
    returns before it. *)
Definition setup (args : THREAD_READ_Args_t) (env : setup_env) : cmd bool :=
  emit Epoll_create1;;
  if epoll_create1_ret env <? 0 then
    emit (Perror "Failed to create epoll instance");; mret false
  else
  emit (Epoll_ctl_add fd_quit_event);;
  if epoll_ctl_quit_ret env <? 0 then
    emit (Perror "Failed to register thread quit eventfd with epoll");; mret false
  else
  emit Iio_create_local_context;;
  if negb (iio_ctx_found env) then
    emit (Fprintf_stderr "Failed to open iio" []);; mret false
  else
  emit Iio_context_find_device;;
  if negb (iio_dev_found env) then
    emit (Fprintf_stderr "Failed to open iio rx dev" []);; mret false
  else
  emit Iio_channel_disable_all;;
  enabled ← enable_channels (iio_channels args) (iio_channel_found env) (seq 0 32);
  if negb enabled then mret false else
  emit (Iio_device_create_buffer (iio_buffer_size args));;
  if negb (iio_buffer_created env) then
    emit (Fprintf_stderr "Failed to create rx buffer for %zu samples" [iio_buffer_size args]);;
    mret false
  else
  emit (Epoll_ctl_add fd_iio_buffer);;
  if epoll_ctl_iio_ret env <? 0 then
    emit (Perror "Failed to register IIO buffer with epoll");; mret false
  else
  let sample_size := iio_buffer_step env in
  modify (set_usb_buffer_size (size_t (sample_size * iio_buffer_size args)));;
  emit (Io_setup NUM_BUFS);;
  if io_setup_ret env <? 0 then
    emit (Perror "Failed to setup AIO");; mret false
  else
  emit Eventfd;;
  if eventfd_ret env <? 0 then
    emit (Perror "Failed to open eventfd");; mret false
  else
  emit (Epoll_ctl_add fd_aio_event);;
  if epoll_ctl_aio_ret env <? 0 then
    emit (Perror "Failed to register aio completion eventfd with epoll");; mret false
  else
  modify (fun s => set_ring_buf_ctx (RING_BUFFER_Init (ring_buf_ctx s) (Z.of_nat NUM_BUFS)) s);;
  allocated ← allocate_buffers env (seq 0 NUM_BUFS);
  match allocated with
  | None => mret false
  | Some _ => if GENERATE_STATS then setup_stats env else mret true
  end.

Definition dispatch (r : ready) : cmd Z :=
  match r with
  | Ready_quit => handle_eventfd_thread
  | Ready_iio nbytes submit_res => handle_iio_buffer GENERATE_STATS nbytes submit_res
  | Ready_aio read_ret ret events => handle_eventfd_aio read_ret ret events
  | Ready_stats read_ret => handle_stats_timer read_ret
  end.

Fixpoint run_handlers (rs : list ready) : cmd Z :=
  match rs with
  | [] => mret 0
  | r :: rs' => x ← dispatch r; if x <? 0 then mret (-1) else run_handlers rs'
  end.

(** Modelled from the spec: epoll_loop.c, which defines [EPOLL_LOOP_Run],
    is not among the sources.  The spec describes it as "register(fd,
    callback), run(timeout) -> dispatches one or more ready callbacks or
    returns failure", and main.c as "Run epoll until it or one of its
    handlers fails": the ready callbacks run in turn, and the run fails when
    waiting fails or as soon as a callback returns a negative value. *)
Definition EPOLL_LOOP_Run (w : wakeup) : cmd Z :=
  match w with
  | Epoll_failed => mret (-1)
  | Epoll_ready rs => run_handlers rs
  end.

(** [while (state.keep_running) { if (EPOLL_LOOP_Run(...) < 0) break; }]
    over the wake-ups of a schedule; [false] when the schedule ends with
    the loop still running. *)
Fixpoint main_loop (sched : list wakeup) : cmd bool :=
  s ← get;
  if keep_running s then
    match sched with
    | [] => mret false
    | w :: sched' =>
        x ← EPOLL_LOOP_Run w;
        if x <? 0 then mret true else main_loop sched'
    end
  else mret true.

Fixpoint free_buffers (ixs : list nat) : cmd unit :=
  match ixs with
  | [] => mret tt
  | i :: ixs' =>
      s ← get;
      match buffers s !! i with
      | Some buf => free buf;; store_buffers i None;; free_buffers ixs'
      | None => fault
      end
  end.

(** Everything after "Exit read loop". *)
Definition teardown : cmd unit :=
  io_destroy;;
  free_buffers (seq 0 NUM_BUFS);;
  (if GENERATE_STATS then emit (Close fd_stats_timer) else mret tt);;
  emit (Close fd_aio_event);;
  emit Iio_buffer_destroy;;
  emit Iio_context_destroy;;
  emit (Close fd_epoll).

Definition THREAD_READ_Entrypoint
    (args : THREAD_READ_Args_t) (env : setup_env) (sched : list wakeup)
  : cmd exit_kind :=
  modify (fun _ => zero_state);;
  ok ← setup args env;
  if negb ok then mret Setup_failed else
  modify (set_keep_running true);;
  exited ← main_loop sched;
  if negb exited then mret Still_running else
  teardown;;
  mret Exited.

End Entrypoint.

(** *** The pool invariant *)

(** The ring position [k] places after the tail. *)
Definition slot (c : RING_BUFFER_Ctx_t) (k : nat) : nat :=
  Z.to_nat (wrap (capacity c) (tail c + Z.of_nat k)).

(** The [usage] entries of a ring from [tail] on, oldest first. *)
Definition ring_content (c : RING_BUFFER_Ctx_t) (ring : list (option nat)) : list (option nat) :=
  (fun k => ring !!! slot c k) <$> seq 0 (Z.to_nat (usage c)).

(** The content of the free-list. *)
Definition free_list (s : state_t) : list (option nat) :=
  ring_content (ring_buf_ctx s) (ring_buf_data s).

Definition in_free_list (s : state_t) (i : nat) : Prop :=
  exists p, buffers s !! i = Some (Some p) /\ Some p ∈ free_list s.

Definition in_flight (s : state_t) (i : nat) : Prop :=
  exists p, buffers s !! i = Some (Some p) /\ p ∈ aio_pending s.

(** The pool is allocated: [buffers] holds the 16 objects of the heap,
    none of them freed. *)
Record pool_alloc (s : state_t) : Prop := {
  alloc_buffers : buffers s = Some <$> seq 0 NUM_BUFS;
  alloc_heap : forall p, (p < NUM_BUFS)%nat -> exists b, heap s !! p = Some (Some b)
}.

(** [rem] are the buffers whose completion has been fetched and which
    [handle_eventfd_aio] has not put back yet; it is empty between two
    handlers. *)
Record pool_inv (rem : list nat) (s : state_t) : Prop := {
  inv_ring : RingBuffer.wf (ring_buf_ctx s);
  inv_capacity : capacity (ring_buf_ctx s) = Z.of_nat NUM_BUFS;
  inv_ring_len : length (ring_buf_data s) = NUM_BUFS;
  inv_buffers : buffers s = Some <$> seq 0 NUM_BUFS;
  inv_heap_len : length (heap s) = NUM_BUFS;
  inv_heap : forall p o, heap s !! p = Some o ->
             exists b, o = Some b /\ (in_use b = true <-> p ∈ aio_pending s ++ rem);
  inv_perm : exists fl, free_list s = Some <$> fl /\
                        fl ++ aio_pending s ++ rem ≡ₚ seq 0 NUM_BUFS
}.

(** The state in which the main loop is entered, for buffers of [size]
    bytes: every buffer allocated and in the free-list. *)
Definition pool_ready (size : Z) : state_t :=
  {| keep_running := true; usb_buffer_size := size;
     buffers := Some <$> seq 0 NUM_BUFS;
     ring_buf_ctx := {| capacity := 16; usage := 16; head := 0; tail := 0 |};
     ring_buf_data := Some <$> seq 0 NUM_BUFS;
     overflows := 0;
     heap := replicate NUM_BUFS (Some {| in_use := false |});
     aio_pending := [] |}.

(** The state in which "Allocate buffers" starts. *)
Definition pool_empty (size : Z) : state_t :=
  set_ring_buf_ctx (RING_BUFFER_Init (ring_buf_ctx zero_state) (Z.of_nat NUM_BUFS))
    (set_usb_buffer_size size zero_state).

(** Whether a completion is one that [handle_eventfd_aio] reports: the
    byte count is not the buffer size and the status is not -ESHUTDOWN. *)
Definition reported (size : Z) (e : io_event) : bool :=
  negb (size =? size_t (res e)) && negb (- ESHUTDOWN =? signed32 (res e)).

(** What [handle_eventfd_aio] writes to stderr for a batch of
    completions. *)
Definition error_log (size : Z) (events : list io_event) : list call :=
  (fun e => Fprintf_stderr "USB write completed with error, res: %ld, res2: %ld"
              [res e; res2 e])
    <$> filter (fun e => reported size e = true) events.

(** What the kernel guarantees about a ready source: the completions it
    hands out are those of distinct requests that were pending.  The
    statistics timer only exists in a build with [GENERATE_STATS]. *)
Definition kernel_ok (GENERATE_STATS : bool) (s : state_t) (r : ready) : Prop :=
  match r with
  | Ready_aio _ ret events =>
      ret < 0 \/
      (ret <= Z.of_nat (length events) /\
       NoDup (data <$> take (Z.to_nat ret) events) /\
       Forall (fun e => exists p, data e = Some p /\ p ∈ aio_pending s)
              (take (Z.to_nat ret) events))
  | Ready_stats _ => GENERATE_STATS = true
  | _ => True
  end.

(** The states of the engine between two handlers of the main loop: the
    state in which the loop is entered, and every state a handler leaves
    when it returns without failure (a failure ends the loop). *)
Inductive Running (GENERATE_STATS : bool) : state_t -> Prop :=
| Running_enter args env s tr :
    setup GENERATE_STATS args env zero_state = Done true s tr ->
    Running GENERATE_STATS (set_keep_running true s)
| Running_dispatch s r x s' tr :
    Running GENERATE_STATS s ->
    kernel_ok GENERATE_STATS s r ->
    dispatch GENERATE_STATS r s = Done x s' tr ->
    0 <= x ->
    Running GENERATE_STATS s'.

(** The kernel keeps its contract towards every handler that the ready
    sources [rs] make run from [s]. *)
Fixpoint handlers_ok (GENERATE_STATS : bool) (rs : list ready) (s : state_t) : Prop :=
  match rs with
  | [] => True
  | r :: rs' =>
      kernel_ok GENERATE_STATS s r /\
      match dispatch GENERATE_STATS r s with
      | Done x s' _ => 0 <= x -> handlers_ok GENERATE_STATS rs' s'
      | Fault => True
      end
  end.

(** The same for every wake-up that the main loop gets to see. *)
Fixpoint schedule_ok (GENERATE_STATS : bool) (sched : list wakeup) (s : state_t) : Prop :=
  match sched with
  | [] => True
  | Epoll_failed :: _ => True
  | Epoll_ready rs :: sched' =>
      keep_running s = true ->
      handlers_ok GENERATE_STATS rs s /\
      match run_handlers GENERATE_STATS rs s with
      | Done x s' _ => 0 <= x -> schedule_ok GENERATE_STATS sched' s'
      | Fault => True
      end
  end.

(** *** A concrete engine, for the examples

    START(RX, mask = 0x3, samples = 1024) with 4 bytes per sample: buffers
    of 4096 bytes. *)

Definition example_args : THREAD_READ_Args_t :=
  {| iio_channels := 3; iio_buffer_size := 1024 |}.

Definition example_env : setup_env :=
  {| epoll_create1_ret := 3; epoll_ctl_quit_ret := 0; iio_ctx_found := true;
     iio_dev_found := true; iio_channel_found := fun _ => true;
     iio_buffer_created := true; epoll_ctl_iio_ret := 0; iio_buffer_step := 4;
     io_setup_ret := 0; eventfd_ret := 4; epoll_ctl_aio_ret := 0;
     malloc_ok := fun _ => true; timerfd_create_ret := 5;
     timerfd_settime_ret := 0; epoll_ctl_timer_ret := 0 |}.

(** The state after [n] successful refills, each submitted, and no
    completion, in the default build. *)
Fixpoint refilled (n : nat) : state_t :=
  match n with
  | O => pool_ready 4096
  | S n' =>
      match dispatch false (Ready_iio 4096 1) (refilled n') with
      | Done _ s _ => s
      | Fault => refilled n'
      end
  end.

(** The completions of buffers 1 and 0: a full transfer and a short one. *)
Definition example_events : list io_event :=
  [ {| data := Some 1%nat; res := 4096; res2 := 0 |};
    {| data := Some 0%nat; res := 2048; res2 := 0 |} ].

(** A refill, then the completion of its transfer, then the request to
    quit. *)
Definition example_schedule : list wakeup :=
  [ Epoll_ready [Ready_iio 4096 1];
    Epoll_ready [Ready_aio 8 1 [ {| data := Some 0%nat; res := 4096; res2 := 0 |} ]];
    Epoll_ready [Ready_quit] ].

End Rx.

(** ** thread_write.c *)

Module Tx.

Definition NUM_BUFS : nat := 16.

(** thread_write.h *)
Record THREAD_WRITE_Args_t : Type := {
  iio_channels : Z;
  iio_buffer_size : Z
}.

(** As in thread_read.c, without the ring of unused requests. *)
Record state_t : Type := {
  keep_running : bool;
  usb_buffer_size : Z;
  buffers : list (option nat);
  overflows : Z;
  heap : list (option usb_buf_t);
  aio_pending : list nat
}.

Definition set_keep_running (v : bool) (s : state_t) : state_t :=
  {| keep_running := v; usb_buffer_size := usb_buffer_size s; buffers := buffers s;
     overflows := overflows s; heap := heap s; aio_pending := aio_pending s |}.
Definition set_usb_buffer_size (v : Z) (s : state_t) : state_t :=
  {| keep_running := keep_running s; usb_buffer_size := v; buffers := buffers s;
     overflows := overflows s; heap := heap s; aio_pending := aio_pending s |}.
Definition set_buffers (v : list (option nat)) (s : state_t) : state_t :=
  {| keep_running := keep_running s; usb_buffer_size := usb_buffer_size s; buffers := v;
     overflows := overflows s; heap := heap s; aio_pending := aio_pending s |}.
Definition set_overflows (v : Z) (s : state_t) : state_t :=
  {| keep_running := keep_running s; usb_buffer_size := usb_buffer_size s; buffers := buffers s;
     overflows := v; heap := heap s; aio_pending := aio_pending s |}.
Definition set_heap (v : list (option usb_buf_t)) (s : state_t) : state_t :=
  {| keep_running := keep_running s; usb_buffer_size := usb_buffer_size s; buffers := buffers s;
     overflows := overflows s; heap := v; aio_pending := aio_pending s |}.
Definition set_aio_pending (v : list nat) (s : state_t) : state_t :=
  {| keep_running := keep_running s; usb_buffer_size := usb_buffer_size s; buffers := buffers s;
     overflows := overflows s; heap := heap s; aio_pending := v |}.

(** [memset(&state, 0x00, sizeof(state))] *)
Definition zero_state : state_t :=
  {| keep_running := false; usb_buffer_size := 0;
     buffers := replicate NUM_BUFS None;
     overflows := 0; heap := []; aio_pending := [] |}.

Abbreviation cmd := (M state_t call).

(** *** Memory accesses *)

(** Any access through [buf]: the object must be live. *)
Definition deref (buf : option nat) : cmd nat :=
  s ← get;
  match buf with
  | None => fault
  | Some p =>
      match heap s !! p with
      | Some (Some _) => mret p
      | _ => fault
      end
  end.

(** [buf->in_use = v] *)
Definition store_in_use (buf : option nat) (v : bool) : cmd unit :=
  p ← deref buf;
  modify (fun s => set_heap (<[p := Some {| in_use := v |}]> (heap s)) s).

(** [state->buffers[i] = buf] *)
Definition store_buffers (i : nat) (buf : option nat) : cmd unit :=
  s ← get;
  if decide (i < length (buffers s))%nat then
    modify (set_buffers (<[i := buf]> (buffers s)))
  else fault.

(** *** The kernel and libc, as far as the engine's state depends on them *)

(** [io_submit(ctx, n, bufs)] returns how many requests of [bufs] it
    queued, from the first on, or a negative error. *)
Definition io_submit (bufs : list nat) (result : Z) : cmd Z :=
  emit (Io_submit bufs result);;
  modify (fun s => set_aio_pending (aio_pending s ++ take (Z.to_nat result) bufs) s);;
  mret result.

(** [io_getevents(ctx, 1, n, events, &timeout)]: the first [ret] entries
    of [events] are filled in and these requests are no longer pending. *)
Definition io_getevents (ret : Z) (events : list io_event) : cmd Z :=
  emit (Io_getevents ret);;
  modify (fun s =>
    set_aio_pending
      (list_difference (aio_pending s) (completed (take (Z.to_nat ret) events))) s);;
  mret ret.

(** [io_destroy(ctx)]: cancels what is still pending. *)
Definition io_destroy : cmd unit :=
  emit Io_destroy;; modify (set_aio_pending []).

(** [malloc] in [alloc_usb_buffer]: a fresh object at the end of the heap. *)
Definition malloc (ok : bool) : cmd (option nat) :=
  emit (Malloc ok);;
  if ok then
    s ← get;
    modify (set_heap (heap s ++ [Some {| in_use := false |}]));;
    mret (Some (length (heap s)))
  else mret None.

(** [free(p)]; [free(NULL)] does nothing. *)
Definition free (buf : option nat) : cmd unit :=
  match buf with
  | None => mret tt
  | Some p =>
      s ← get;
      match heap s !! p with
      | Some (Some _) => emit (Free p);; modify (set_heap (<[p := None]> (heap s)))
      | _ => fault
      end
  end.

(** What the calls of the set-up return. *)
Record setup_env : Type := {
  epoll_create1_ret : Z;
  epoll_ctl_quit_ret : Z;
  iio_ctx_found : bool;
  iio_dev_found : bool;
  iio_channel_found : nat -> bool;
  iio_buffer_created : bool;
  iio_buffer_step : Z;
  io_setup_ret : Z;
  eventfd_ret : Z;
  epoll_ctl_aio_ret : Z;
  malloc_ok : nat -> bool;
  timerfd_create_ret : Z;
  timerfd_settime_ret : Z;
  epoll_ctl_timer_ret : Z;
  io_submit_ret : Z
}.

(** One entry of [events], with what [iio_buffer_push] and [io_submit]
    return while [handle_eventfd_aio] deals with it. *)
Record completion : Type := {
  event : io_event;
  push_ret : Z;
  submit_ret : Z
}.

Inductive ready : Type :=
| Ready_quit
| Ready_aio (read_ret ret : Z) (events : list completion)
| Ready_stats (read_ret : Z).

Inductive wakeup : Type :=
| Epoll_failed
| Epoll_ready (rs : list ready).

Inductive exit_kind : Type := Setup_failed | Still_running | Exited.

Section Build.

(** [#define GENERATE_STATS (0)] unless the build sets it. *)
Variable GENERATE_STATS : bool.

(** *** Event handlers *)

Definition handle_eventfd_thread : cmd Z :=
  modify (set_keep_running false);;
  mret 0.

(** The [if] / [else if] at the head of the loop over the completions of
    [handle_eventfd_aio]: a full buffer is pushed to the hardware, another
    result is reported unless it is -ESHUTDOWN. *)
Definition push_completion (c : completion) : cmd unit :=
  s ← get;
  let buf := data (event c) in
  if usb_buffer_size s =? size_t (res (event c)) then
    p ← deref buf;
    emit (Memcpy_to_iio p);;
    emit Iio_buffer_push;;
    let nbytes := push_ret c in
    if negb (nbytes =? signed32 (usb_buffer_size s)) then
      if GENERATE_STATS
      then modify (fun s => set_overflows (uint32 (overflows s + 1)) s)
      else mret tt
    else mret tt
  else if negb (- ESHUTDOWN =? signed32 (res (event c))) then
    emit (Fprintf_stderr "USB read completed with error, res: %ld, res2: %ld"
            [res (event c); res2 (event c)])
  else mret tt.

(** The body of that loop; [-1] when the function returns from inside it. *)
Definition handle_completion (c : completion) : cmd Z :=
  push_completion c;;
  let buf := data (event c) in
  p ← deref buf;
  res ← io_submit [p] (submit_ret c);
  if negb (1 =? res) then
    emit (Perror "Failed to submit usb read");;
    store_in_use buf false;;
    mret (-1)
  else mret 0.

Fixpoint handle_completions (cs : list completion) : cmd Z :=
  match cs with
  | [] => mret 0
  | c :: cs' =>
      r ← handle_completion c;
      if r <? 0 then mret (-1) else handle_completions cs'
  end.

Definition handle_eventfd_aio (read_ret ret : Z) (events : list completion) : cmd Z :=
  emit (Read fd_aio_event);;
  if read_ret <? 0 then
    emit (Perror "Failed to read aio completion eventfd");; mret (-1)
  else
    ret ← io_getevents ret (event <$> events);
    if ret <? 0 then
      emit (Perror "Failed to read completed io events");; mret (-1)
    else
      handle_completions (take (Z.to_nat ret) events).

(** Only compiled with [GENERATE_STATS]. *)
Definition handle_stats_timer (read_ret : Z) : cmd Z :=
  emit (Read fd_stats_timer);;
  if read_ret <? 0 then
    emit (Perror "Failed to read timerfd");; mret 1
  else
    emit (Printf "Write period: min: %llu, max: %llu, avg: %llu (uS)" []);;
    emit (Printf "Write dur: min: %llu, max: %llu, avg: %llu (uS)" []);;
    s ← get;
    (if 0 <? overflows s
     then emit (Printf "Read overflows: %u in last 5s period" [overflows s])
     else mret tt);;
    modify (set_overflows 0);;
    mret 0.

(** *** THREAD_WRITE_Entrypoint *)

(** [alloc_usb_buffer(size, usb_fd, event_fd)]; [ok] is whether [malloc]
    returns an object.  How large the object is, is not represented (see
    [usb_buf_t]). *)
Definition alloc_usb_buffer (ok : bool) : cmd (option nat) :=
  buf ← malloc ok;
  match buf with
  | None => emit (Perror "alloc_buffer failed");; mret None
  | Some _ => store_in_use buf false;; mret buf
  end.

Fixpoint enable_channels (channels : Z) (found : nat -> bool) (ixs : list nat) : cmd bool :=
  match ixs with
  | [] => mret true
  | i :: ixs' =>
      if negb (Z.land channels (Z.shiftl 1 (Z.of_nat i)) =? 0) then
        if negb (found i) then
          emit (Fprintf_stderr "Failed to find iio rx chan %u" [Z.of_nat i]);; mret false
        else
          emit (Iio_channel_enable i);; enable_channels channels found ixs'
      else enable_channels channels found ixs'
  end.

(** The loop "Allocate buffers"; [None] when the function returns from
    inside it, otherwise the transfer list [bufs]. *)
Fixpoint allocate_buffers (env : setup_env) (ixs : list nat) : cmd (option (list nat)) :=
  match ixs with
  | [] => mret (Some [])
  | i :: ixs' =>
      buf ← alloc_usb_buffer (malloc_ok env i);
      match buf with
      | None => mret None
      | Some p =>
          store_buffers i buf;;
          store_in_use buf true;;
          rest ← allocate_buffers env ixs';
          mret (cons p <$> rest)
      end
  end.

Definition setup_stats (env : setup_env) : cmd bool :=
  emit Timerfd_create;;
  if timerfd_create_ret env <? 0 then
    emit (Perror "Failed to open timerfd");; mret false
  else
    emit Timerfd_settime;;
    if timerfd_settime_ret env <? 0 then
      emit (Perror "Failed to set timerfd");; mret false
    else
      emit (Epoll_ctl_add fd_stats_timer);;
      if epoll_ctl_timer_ret env <? 0 then
        emit (Perror "Failed to register timer eventfd with epoll");; mret false
      else mret true.

(** Everything before "Enter main loop"; [false] when the function
    returns before it. *)
Definition setup (args : THREAD_WRITE_Args_t) (env : setup_env) : cmd bool :=
  emit Epoll_create1;;
  if epoll_create1_ret env <? 0 then
    emit (Perror "Failed to create epoll instance");; mret false
  else
  emit (Epoll_ctl_add fd_quit_event);;
  if epoll_ctl_quit_ret env <? 0 then
    emit (Perror "Failed to register thread quit eventfd with epoll");; mret false
  else
  emit Iio_create_local_context;;
  if negb (iio_ctx_found env) then
    emit (Fprintf_stderr "Failed to open iio" []);; mret false
  else
  emit Iio_context_find_device;;
  if negb (iio_dev_found env) then
    emit (Fprintf_stderr "Failed to open iio tx dev" []);; mret false
  else
  emit Iio_channel_disable_all;;
  enabled ← enable_channels (iio_channels args) (iio_channel_found env) (seq 0 32);
  if negb enabled then mret false else
  emit (Iio_device_create_buffer (iio_buffer_size args));;
  if negb (iio_buffer_created env) then
    emit (Fprintf_stderr "Failed to create tx buffer for %zu samples" [iio_buffer_size args]);;
    mret false
  else
  let sample_size := iio_buffer_step env in
  modify (set_usb_buffer_size (size_t (sample_size * iio_buffer_size args)));;
  emit (Io_setup NUM_BUFS);;
  if io_setup_ret env <? 0 then
    emit (Perror "Failed to setup AIO");; mret false
  else
  emit Eventfd;;
  if eventfd_ret env <? 0 then
    emit (Perror "Failed to open eventfd");; mret false
  else
  emit (Epoll_ctl_add fd_aio_event);;
  if epoll_ctl_aio_ret env <? 0 then
    emit (Perror "Failed to register aio completion eventfd with epoll");; mret false
  else
  allocated ← allocate_buffers env (seq 0 NUM_BUFS);
  match allocated with
  | None => mret false
  | Some bufs =>
      stats ← (if GENERATE_STATS then setup_stats env else mret true);
      if negb stats then mret false else
      res ← io_submit bufs (io_submit_ret env);
      if negb (Z.of_nat NUM_BUFS =? res) then
        emit (Fprintf_stderr "Failed to submit all USB read buffers, req: %zu, act: %d"
                [Z.of_nat NUM_BUFS; res]);;
        mret false
      else mret true
  end.

Definition dispatch (r : ready) : cmd Z :=
  match r with
  | Ready_quit => handle_eventfd_thread
  | Ready_aio read_ret ret events => handle_eventfd_aio read_ret ret events
  | Ready_stats read_ret => handle_stats_timer read_ret
  end.

Fixpoint run_handlers (rs : list ready) : cmd Z :=
  match rs with
  | [] => mret 0
  | r :: rs' => x ← dispatch r; if x <? 0 then mret (-1) else run_handlers rs'
  end.

(** Modelled from the spec: epoll_loop.c, which defines [EPOLL_LOOP_Run],
    is not among the sources; see [Rx.EPOLL_LOOP_Run]. *)
Definition EPOLL_LOOP_Run (w : wakeup) : cmd Z :=
  match w with
  | Epoll_failed => mret (-1)
  | Epoll_ready rs => run_handlers rs
  end.

Fixpoint main_loop (sched : list wakeup) : cmd bool :=
  s ← get;
  if keep_running s then
    match sched with
    | [] => mret false
    | w :: sched' =>
        x ← EPOLL_LOOP_Run w;
        if x <? 0 then mret true else main_loop sched'
    end
  else mret true.

Fixpoint free_buffers (ixs : list nat) : cmd unit :=
  match ixs with
  | [] => mret tt
  | i :: ixs' =>
      s ← get;
      match buffers s !! i with
      | Some buf => free buf;; store_buffers i None;; free_buffers ixs'
      | None => fault
      end
  end.

(** Everything after "Exit write loop". *)
Definition teardown : cmd unit :=
  io_destroy;;
  free_buffers (seq 0 NUM_BUFS);;
  (if GENERATE_STATS then emit (Close fd_stats_timer) else mret tt);;
  emit (Close fd_aio_event);;
  emit Iio_buffer_destroy;;
  emit Iio_context_destroy;;
  emit (Close fd_epoll).

Definition THREAD_WRITE_Entrypoint
    (args : THREAD_WRITE_Args_t) (env : setup_env) (sched : list wakeup)
  : cmd exit_kind :=
  modify (fun _ => zero_state);;
  ok ← setup args env;
  if negb ok then mret Setup_failed else
  modify (set_keep_running true);;
  exited ← main_loop sched;
  if negb exited then mret Still_running else
  teardown;;
  mret Exited.

(** *** The pool invariant *)

Definition in_flight (s : state_t) (i : nat) : Prop :=
  exists p, buffers s !! i = Some (Some p) /\ p ∈ aio_pending s.

(** The pool is allocated: [buffers] holds the 16 objects of the heap,
    none of them freed. *)
Record pool_alloc (s : state_t) : Prop := {
  alloc_buffers : buffers s = Some <$> seq 0 NUM_BUFS;
  alloc_heap : forall p, (p < NUM_BUFS)%nat -> exists b, heap s !! p = Some (Some b)
}.

(** [rem] are the buffers whose completion has been fetched and which
    [handle_eventfd_aio] has not submitted again yet; it is empty between
    two handlers. *)
Record pool_inv (rem : list nat) (s : state_t) : Prop := {
  inv_buffers : buffers s = Some <$> seq 0 NUM_BUFS;
  inv_heap : heap s = replicate NUM_BUFS (Some {| in_use := true |});
  inv_perm : aio_pending s ++ rem ≡ₚ seq 0 NUM_BUFS
}.

(** The state in which the main loop is entered, for buffers of [size]
    bytes: every buffer allocated, in use and submitted. *)
Definition pool_ready (size : Z) : state_t :=
  {| keep_running := true; usb_buffer_size := size;
     buffers := Some <$> seq 0 NUM_BUFS;
     overflows := 0;
     heap := replicate NUM_BUFS (Some {| in_use := true |});
     aio_pending := seq 0 NUM_BUFS |}.

(** What the kernel guarantees about a ready source, as in thread_read.c. *)
Definition kernel_ok (s : state_t) (r : ready) : Prop :=
  match r with
  | Ready_aio _ ret events =>
      ret < 0 \/
      (ret <= Z.of_nat (length events) /\
       NoDup (data <$> (event <$> take (Z.to_nat ret) events)) /\
       Forall (fun c => exists p, data (event c) = Some p /\ p ∈ aio_pending s)
              (take (Z.to_nat ret) events))
  | Ready_stats _ => GENERATE_STATS = true
  | Ready_quit => True
  end.

(** The states of the engine between two handlers of the main loop. *)
Inductive Running : state_t -> Prop :=
| Running_enter args env s tr :
    setup args env zero_state = Done true s tr ->
    Running (set_keep_running true s)
| Running_dispatch s r x s' tr :
    Running s ->
    kernel_ok s r ->
    dispatch r s = Done x s' tr ->
    0 <= x ->
    Running s'.

End Build.

(** *** A concrete engine, for the examples *)

Definition example_args : THREAD_WRITE_Args_t :=
  {| iio_channels := 3; iio_buffer_size := 1024 |}.

Definition example_env : setup_env :=
  {| epoll_create1_ret := 3; epoll_ctl_quit_ret := 0; iio_ctx_found := true;
     iio_dev_found := true; iio_channel_found := fun _ => true;
     iio_buffer_created := true; iio_buffer_step := 4;
     io_setup_ret := 0; eventfd_ret := 4; epoll_ctl_aio_ret := 0;
     malloc_ok := fun _ => true; timerfd_create_ret := 5;
     timerfd_settime_ret := 0; epoll_ctl_timer_ret := 0; io_submit_ret := 16 |}.

(** The kernel keeps its contract towards every handler that the ready
    sources [rs] make run from [s], and towards every wake-up that the main
    loop gets to see. *)
Fixpoint handlers_ok (GENERATE_STATS : bool) (rs : list ready) (s : state_t) : Prop :=
  match rs with
  | [] => True
  | r :: rs' =>
      kernel_ok GENERATE_STATS s r /\
      match dispatch GENERATE_STATS r s with
      | Done x s' _ => 0 <= x -> handlers_ok GENERATE_STATS rs' s'
      | Fault => True
      end
  end.

Fixpoint schedule_ok (GENERATE_STATS : bool) (sched : list wakeup) (s : state_t) : Prop :=
  match sched with
  | [] => True
  | Epoll_failed :: _ => True
  | Epoll_ready rs :: sched' =>
      keep_running s = true ->
      handlers_ok GENERATE_STATS rs s /\
      match run_handlers GENERATE_STATS rs s with
      | Done x s' _ => 0 <= x -> schedule_ok GENERATE_STATS sched' s'
      | Fault => True
      end
  end.

(** A completion of a whole buffer. *)
Definition full (size : Z) (c : completion) : bool :=
  size =? size_t (res (event c)).

(** The buffers whose samples a trace hands to the hardware, and the
    buffers it submits one at a time with success, in order. *)
Definition pushed (tr : list call) : list nat :=
  omap (fun c => match c with Memcpy_to_iio p => Some p | _ => None end) tr.

Definition resubmitted (tr : list call) : list nat :=
  omap (fun c => match c with
                 | Io_submit [p] r => if r =? 1 then Some p else None
                 | _ => None
                 end) tr.

(** The completions of buffer 0, a whole buffer that the hardware takes,
    and of buffer 1, a short transfer; then the request to quit. *)
Definition example_events : list completion :=
  [ {| event := {| data := Some 0%nat; res := 4096; res2 := 0 |};
       push_ret := 4096; submit_ret := 1 |};
    {| event := {| data := Some 1%nat; res := 512; res2 := 0 |};
       push_ret := 0; submit_ret := 1 |} ].

Definition example_schedule : list wakeup :=
  [ Epoll_ready [Ready_aio 8 2 example_events]; Epoll_ready [Ready_quit] ].

(** The completion of buffer 3, a whole buffer that the hardware takes,
    whose re-submission fails; and the completion of buffer 7 behind it. *)
Definition failed_resubmission : list completion :=
  [ {| event := {| data := Some 3%nat; res := 4096; res2 := 0 |};
       push_ret := 4096; submit_ret := -1 |};
    {| event := {| data := Some 7%nat; res := 4096; res2 := 0 |};
       push_ret := 4096; submit_ret := 1 |} ].

End Tx.

(** ** main.c *)

Module Main.

Definition SDR_USB_GADGET_COMMAND_START : Z := 0x10.
Definition SDR_USB_GADGET_COMMAND_STOP : Z := 0x11.
Definition SDR_USB_GADGET_COMMAND_TARGET_RX : Z := 0x00.
Definition SDR_USB_GADGET_COMMAND_TARGET_TX : Z := 0x01.

(** linux/usb/ch9.h and linux/usb/functionfs.h *)
Definition USB_DIR_IN : Z := 0x80.
Definition FUNCTIONFS_ENABLE : Z := 2.
Definition FUNCTIONFS_DISABLE : Z := 3.
Definition FUNCTIONFS_SETUP : Z := 4.

Record usb_ctrlrequest : Type := {
  bRequestType : Z;
  bRequest : Z;
  wValue : Z;
  wIndex : Z;
  wLength : Z
}.

Record usb_functionfs_event : Type := {
  setup : usb_ctrlrequest;
  type : Z
}.

Definition sizeof_usb_functionfs_event : Z := 12.

(** [sizeof(cmdStartRequest_t)]: two packed [uint32_t]. *)
Definition sizeof_cmdStartRequest_t : Z := 8.

(** A little-endian [uint32_t] at offset [off] of a byte buffer. *)
Definition le32 (bytes : list Z) (off : nat) : Z :=
  Z.lor (bytes !!! off)
    (Z.lor (Z.shiftl (bytes !!! (off + 1)%nat) 8)
       (Z.lor (Z.shiftl (bytes !!! (off + 2)%nat) 16)
              (Z.shiftl (bytes !!! (off + 3)%nat) 24))).

(** [cmd_start_req->enabled_channels] and [cmd_start_req->buffer_size] *)
Definition enabled_channels (control_in_data : list Z) : Z := le32 control_in_data 0.
Definition buffer_size (control_in_data : list Z) : Z := le32 control_in_data 4.

(** An engine thread of the process, with the arguments it was created
    with. *)
Record engine : Type := {
  engine_tx : bool;
  engine_channels : Z;
  engine_buffer_size : Z
}.

(** A [pthread_t] is the rank of the thread among those ever created.
    [threads] is the process's side of the state: the engine threads that
    were created and have not been joined. *)
Record state_t : Type := {
  read_started : bool;
  write_started : bool;
  read_args : Rx.THREAD_READ_Args_t;
  write_args : Tx.THREAD_WRITE_Args_t;
  config_enabled : bool;
  thread_read : nat;
  thread_write : nat;
  threads : list (nat * engine);
  created : nat
}.

Definition set_read_started (v : bool) (s : state_t) : state_t :=
  {| read_started := v; write_started := write_started s; read_args := read_args s;
     write_args := write_args s; config_enabled := config_enabled s;
     thread_read := thread_read s; thread_write := thread_write s;
     threads := threads s; created := created s |}.
Definition set_write_started (v : bool) (s : state_t) : state_t :=
  {| read_started := read_started s; write_started := v; read_args := read_args s;
     write_args := write_args s; config_enabled := config_enabled s;
     thread_read := thread_read s; thread_write := thread_write s;
     threads := threads s; created := created s |}.
Definition set_read_args (v : Rx.THREAD_READ_Args_t) (s : state_t) : state_t :=
  {| read_started := read_started s; write_started := write_started s; read_args := v;
     write_args := write_args s; config_enabled := config_enabled s;
     thread_read := thread_read s; thread_write := thread_write s;
     threads := threads s; created := created s |}.
Definition set_write_args (v : Tx.THREAD_WRITE_Args_t) (s : state_t) : state_t :=
  {| read_started := read_started s; write_started := write_started s; read_args := read_args s;
     write_args := v; config_enabled := config_enabled s;
     thread_read := thread_read s; thread_write := thread_write s;
     threads := threads s; created := created s |}.
Definition set_config_enabled (v : bool) (s : state_t) : state_t :=
  {| read_started := read_started s; write_started := write_started s; read_args := read_args s;
     write_args := write_args s; config_enabled := v;
     thread_read := thread_read s; thread_write := thread_write s;
     threads := threads s; created := created s |}.
Definition set_thread_read (v : nat) (s : state_t) : state_t :=
  {| read_started := read_started s; write_started := write_started s; read_args := read_args s;
     write_args := write_args s; config_enabled := config_enabled s;
     thread_read := v; thread_write := thread_write s;
     threads := threads s; created := created s |}.
Definition set_thread_write (v : nat) (s : state_t) : state_t :=
  {| read_started := read_started s; write_started := write_started s; read_args := read_args s;
     write_args := write_args s; config_enabled := config_enabled s;
     thread_read := thread_read s; thread_write := v;
     threads := threads s; created := created s |}.
Definition set_threads (v : list (nat * engine)) (n : nat) (s : state_t) : state_t :=
  {| read_started := read_started s; write_started := write_started s; read_args := read_args s;
     write_args := write_args s; config_enabled := config_enabled s;
     thread_read := thread_read s; thread_write := thread_write s;
     threads := v; created := n |}.

(** [memset(&state, 0x00, sizeof(state))] in a process without engine
    threads. *)
Definition zero_state : state_t :=
  {| read_started := false; write_started := false;
     read_args := {| Rx.iio_channels := 0; Rx.iio_buffer_size := 0 |};
     write_args := {| Tx.iio_channels := 0; Tx.iio_buffer_size := 0 |};
     config_enabled := false; thread_read := 0; thread_write := 0;
     threads := []; created := 0 |}.

Abbreviation cmd := (M state_t call).

(** *** pthreads, as far as the state depends on them *)

(** [pthread_create(&thread, NULL, entry, args)]: on success a new
    thread runs the engine with the arguments that [args] points to at that
    time; yields the result and the new [pthread_t]. *)
Definition pthread_create (tx : bool) (result : Z) : cmd (Z * option nat) :=
  s ← get;
  let e :=
    if tx
    then {| engine_tx := true; engine_channels := Tx.iio_channels (write_args s);
            engine_buffer_size := Tx.iio_buffer_size (write_args s) |}
    else {| engine_tx := false; engine_channels := Rx.iio_channels (read_args s);
            engine_buffer_size := Rx.iio_buffer_size (read_args s) |} in
  emit (Pthread_create tx (engine_channels e) (engine_buffer_size e) result);;
  if result =? 0 then
    modify (set_threads (threads s ++ [(created s, e)]) (S (created s)));;
    mret (result, Some (created s))
  else mret (result, None).

(** [pthread_join(thread, NULL)]: returns once the thread has ended.
    Joining a [pthread_t] that names no running thread is undefined in C;
    here it leaves the table of threads as it is (see [joinable]). *)
Definition pthread_join (tx : bool) (thread : nat) : cmd unit :=
  emit (Pthread_join tx);;
  modify (fun s => set_threads (filter (fun te => te.1 <> thread) (threads s)) (created s) s).

(** What the calls of [stop_thread] and [start_thread] return. *)
Record stop_env : Type := {
  eventfd_write_ret : Z;
  eventfd_read_ret : Z
}.

Record start_env : Type := {
  sigprocmask_block_ret : Z;
  pthread_create_ret : Z;
  sigprocmask_restore_ret : Z
}.

(** What the calls of one run of [handle_ep0] return.  [stop_second]
    is for the second [stop_thread] of FUNCTIONFS_DISABLE. *)
Record ep0_env : Type := {
  event_read_ret : Z;
  event : usb_functionfs_event;
  null_write_ret : Z;
  read_count : Z;
  control_in_data : list Z;
  stop_first : stop_env;
  stop_second : stop_env;
  start : start_env
}.

Definition start_thread (tx : bool) (env : start_env) : cmd bool :=
  emit Sigprocmask;;
  if sigprocmask_block_ret env <? 0 then
    emit (Perror "Failed to mask signals");; mret false
  else
  s ← get;
  created_ok ←
    (if tx && negb (write_started s) then
       r ← pthread_create true (pthread_create_ret env);
       (match r.2 with
        | Some t => modify (set_thread_write t)
        | None => mret tt
        end);;
       modify (set_write_started (0 =? r.1));;
       if negb (0 =? r.1) then
         emit (Perror "Failed to start write thread");; mret false
       else mret true
     else if negb tx && negb (read_started s) then
       r ← pthread_create false (pthread_create_ret env);
       (match r.2 with
        | Some t => modify (set_thread_read t)
        | None => mret tt
        end);;
       modify (set_read_started (0 =? r.1));;
       if negb (0 =? r.1) then
         emit (Perror "Failed to start read thread");; mret false
       else mret true
     else mret true);
  if negb created_ok then mret false else
  emit Sigprocmask;;
  if sigprocmask_restore_ret env <? 0 then
    emit (Perror "Failed to unmask signals");; mret false
  else mret true.

Definition stop_thread (tx : bool) (env : stop_env) : cmd bool :=
  s ← get;
  if tx && write_started s then
    emit (Write fd_write_thread_event);;
    if eventfd_write_ret env <? 0 then
      emit (Perror "Failed to write to write thread eventfd");; mret false
    else
    pthread_join true (thread_write s);;
    emit (Read fd_write_thread_event);;
    if eventfd_read_ret env <? 0 then
      emit (Perror "Failed to read from write thread eventfd");; mret false
    else
    modify (set_write_started false);;
    mret true
  else if negb tx && read_started s then
    emit (Write fd_read_thread_event);;
    if eventfd_write_ret env <? 0 then
      emit (Perror "Failed to write to read thread eventfd");; mret false
    else
    pthread_join false (thread_read s);;
    emit (Read fd_read_thread_event);;
    if eventfd_read_ret env <? 0 then
      emit (Perror "Failed to read from read thread eventfd");; mret false
    else
    modify (set_read_started false);;
    mret true
  else mret true.

Definition handle_ep0 (env : ep0_env) : cmd Z :=
  emit (Read fd_ep0);;
  if negb (sizeof_usb_functionfs_event =? event_read_ret env) then
    emit (Perror "Failed to read event from ep0");; mret (-1)
  else
  let event := event env in
  if type event =? FUNCTIONFS_SETUP then
    if negb (Z.land (bRequestType (setup event)) USB_DIR_IN =? 0) then
      emit (Write fd_ep0);;
      if null_write_ret env <? 0 then
        emit (Perror "Failed to write packet to host");; mret (-1)
      else mret 0
    else
      emit (Read fd_ep0);;
      let read_count := read_count env in
      if read_count <? 0 then
        emit (Perror "Failed to read packet from host");; mret (-1)
      else
      if bRequest (setup event) =? SDR_USB_GADGET_COMMAND_START then
        if negb (read_count =? sizeof_cmdStartRequest_t) then
          emit (Printf "Bad start request, incorrect data size" []);; mret 0
        else
          let tx := SDR_USB_GADGET_COMMAND_TARGET_TX =? wValue (setup event) in
          stop_thread tx (stop_first env);;
          (if tx then
             modify (set_write_args
                       {| Tx.iio_channels := enabled_channels (control_in_data env);
                          Tx.iio_buffer_size := buffer_size (control_in_data env) |})
           else
             modify (set_read_args
                       {| Rx.iio_channels := enabled_channels (control_in_data env);
                          Rx.iio_buffer_size := buffer_size (control_in_data env) |}));;
          start_thread tx (start env);;
          mret 0
      else if bRequest (setup event) =? SDR_USB_GADGET_COMMAND_STOP then
        let tx := negb (0 =? wValue (setup event)) in
        stop_thread tx (stop_first env);;
        mret 0
      else mret 0
  else if type event =? FUNCTIONFS_DISABLE then
    s ← get;
    stopped ←
      (if config_enabled s then
         rx_stopped ← stop_thread false (stop_first env);
         if negb rx_stopped then mret false else stop_thread true (stop_second env)
       else mret true);
    if negb stopped then mret (-1) else
    modify (set_config_enabled false);;
    mret 0
  else if type event =? FUNCTIONFS_ENABLE then
    modify (set_config_enabled true);;
    mret 0
  else mret 0.

(** *** Vocabulary of the session *)

(** The engine threads of one direction that are running. *)
Definition engines_of (tx : bool) (s : state_t) : list (nat * engine) :=
  filter (fun te => engine_tx te.2 = tx) (threads s).

(** Their arguments: channel mask and buffer size. *)
Definition running_engines (tx : bool) (s : state_t) : list (Z * Z) :=
  (fun te => (engine_channels te.2, engine_buffer_size te.2)) <$> engines_of tx s.

(** Their [pthread_t]. *)
Definition running_threads (tx : bool) (s : state_t) : list nat :=
  fst <$> engines_of tx s.

(** The fields of one direction. *)
Definition started (tx : bool) (s : state_t) : bool :=
  if tx then write_started s else read_started s.

Definition thread_of (tx : bool) (s : state_t) : nat :=
  if tx then thread_write s else thread_read s.

Definition args_of (tx : bool) (s : state_t) : Z * Z :=
  if tx
  then (Tx.iio_channels (write_args s), Tx.iio_buffer_size (write_args s))
  else (Rx.iio_channels (read_args s), Rx.iio_buffer_size (read_args s)).

Definition thread_event_fd (tx : bool) : fd :=
  if tx then fd_write_thread_event else fd_read_thread_event.

(** A [pthread_t] names one thread. *)
Definition functional (l : list (nat * engine)) : Prop :=
  forall t e e', (t, e) ∈ l -> (t, e') ∈ l -> e = e'.

(** The started flags agree with the threads of the process. *)
Record session_ok (s : state_t) : Prop := {
  ok_read : running_threads false s = if read_started s then [thread_read s] else [];
  ok_write : running_threads true s = if write_started s then [thread_write s] else [];
  ok_created : Forall (fun te => (te.1 < created s)%nat) (threads s);
  ok_table : functional (threads s)
}.

(** A START request for direction [tx] with a well-formed body. *)
Record start_request (tx : bool) (channels size : Z) (env : ep0_env) : Prop := {
  sr_event_read : event_read_ret env = sizeof_usb_functionfs_event;
  sr_type : type (event env) = FUNCTIONFS_SETUP;
  sr_out : Z.land (bRequestType (setup (event env))) USB_DIR_IN = 0;
  sr_request : bRequest (setup (event env)) = SDR_USB_GADGET_COMMAND_START;
  sr_target : wValue (setup (event env)) =
              if tx then SDR_USB_GADGET_COMMAND_TARGET_TX else SDR_USB_GADGET_COMMAND_TARGET_RX;
  sr_count : read_count env = sizeof_cmdStartRequest_t;
  sr_channels : enabled_channels (control_in_data env) = channels;
  sr_size : buffer_size (control_in_data env) = size
}.

(** A STOP request for direction [tx]. *)
Record stop_request (tx : bool) (env : ep0_env) : Prop := {
  pr_event_read : event_read_ret env = sizeof_usb_functionfs_event;
  pr_type : type (event env) = FUNCTIONFS_SETUP;
  pr_out : Z.land (bRequestType (setup (event env))) USB_DIR_IN = 0;
  pr_request : bRequest (setup (event env)) = SDR_USB_GADGET_COMMAND_STOP;
  pr_target : negb (0 =? wValue (setup (event env))) = tx;
  pr_count : 0 <= read_count env
}.


(** The calls on which the replacement of an engine depends: those of the
    first [stop_thread], the [sigprocmask] that blocks the signals and
    [pthread_create].  The [sigprocmask] that restores the mask comes after
    the thread has been created. *)
Record engine_replaced (env : ep0_env) : Prop := {
  er_write : 0 <= eventfd_write_ret (stop_first env);
  er_read : 0 <= eventfd_read_ret (stop_first env);
  er_block : 0 <= sigprocmask_block_ret (start env);
  er_create : pthread_create_ret (start env) = 0
}.

(** What [start_thread] prints when the second [sigprocmask] fails. *)
Definition restore_error (env : ep0_env) : list call :=
  if sigprocmask_restore_ret (start env) <? 0
  then [Perror "Failed to unmask signals"] else [].

(** The [pthread_t] of a started direction names a running thread of
    this direction: the thread that [stop_thread] joins exists.  This is
    not so after a [stop_thread] whose read of the eventfd has failed: it
    has joined the thread and returned with the flag still set. *)
Definition joinable (tx : bool) (s : state_t) : Prop :=
  started tx s = true -> thread_of tx s ∈ running_threads tx s.

(** *** Concrete requests, for the examples *)

Definition stop_ok : stop_env := {| eventfd_write_ret := 8; eventfd_read_ret := 8 |}.

(** The write to the cancellation eventfd fails. *)
Definition stop_fails : stop_env := {| eventfd_write_ret := -1; eventfd_read_ret := 8 |}.

Definition start_ok : start_env :=
  {| sigprocmask_block_ret := 0; pthread_create_ret := 0; sigprocmask_restore_ret := 0 |}.

(** A control transfer to the device with request [request], value
    [value] and the bytes [body]. *)
Definition request (request value : Z) (body : list Z) (stop : stop_env) : ep0_env :=
  {| event_read_ret := 12;
     event := {| setup := {| bRequestType := 0x41; bRequest := request; wValue := value;
                             wIndex := 0; wLength := Z.of_nat (length body) |};
                 type := FUNCTIONFS_SETUP |};
     null_write_ret := 0;
     read_count := Z.of_nat (length body);
     control_in_data := body;
     stop_first := stop; stop_second := stop_ok; start := start_ok |}.

(** START(RX, mask = 0x3, samples = 1024), then START(RX, mask = 0x1,
    samples = 2048). *)
Definition first_start (stop : stop_env) : ep0_env :=
  request SDR_USB_GADGET_COMMAND_START 0 [3; 0; 0; 0; 0; 4; 0; 0] stop.
Definition second_start (stop : stop_env) : ep0_env :=
  request SDR_USB_GADGET_COMMAND_START 0 [1; 0; 0; 0; 0; 8; 0; 0] stop.

(** The read of the cancellation eventfd, after the join, fails. *)
Definition stop_read_fails : stop_env := {| eventfd_write_ret := 8; eventfd_read_ret := -1 |}.

(** [pthread_create] fails with EAGAIN; the [sigprocmask] that blocks the
    signals fails; the [sigprocmask] that restores them fails. *)
Definition create_fails : start_env :=
  {| sigprocmask_block_ret := 0; pthread_create_ret := 11; sigprocmask_restore_ret := 0 |}.
Definition block_fails : start_env :=
  {| sigprocmask_block_ret := -1; pthread_create_ret := 0; sigprocmask_restore_ret := 0 |}.
Definition restore_fails : start_env :=
  {| sigprocmask_block_ret := 0; pthread_create_ret := 0; sigprocmask_restore_ret := -1 |}.

(** The request [env] with other results for the calls of [start_thread]. *)
Definition with_start (st : start_env) (env : ep0_env) : ep0_env :=
  {| event_read_ret := event_read_ret env; event := event env;
     null_write_ret := null_write_ret env; read_count := read_count env;
     control_in_data := control_in_data env;
     stop_first := stop_first env; stop_second := stop_second env; start := st |}.

(** The state after two requests in a row. *)
Definition after_two (env1 env2 : ep0_env) (s : state_t) : state_t :=
  match (handle_ep0 env1;; handle_ep0 env2) s with
  | Done _ s' _ => s'
  | Fault => s
  end.

(** *** The session as a whole *)

(** The fields of one direction, written. *)
Definition set_started (tx : bool) (v : bool) (s : state_t) : state_t :=
  if tx then set_write_started v s else set_read_started v s.

Definition set_thread_of (tx : bool) (t : nat) (s : state_t) : state_t :=
  if tx then set_thread_write t s else set_thread_read t s.

(** The engine that [pthread_create] starts for a direction: it runs with
    the arguments stored for this direction. *)
Definition engine_of (tx : bool) (s : state_t) : engine :=
  {| engine_tx := tx; engine_channels := (args_of tx s).1;
     engine_buffer_size := (args_of tx s).2 |}.

(** The messages of [stop_thread] and [start_thread] for a direction. *)
Definition stop_write_error (tx : bool) : string :=
  if tx then "Failed to write to write thread eventfd"
  else "Failed to write to read thread eventfd".

Definition stop_read_error (tx : bool) : string :=
  if tx then "Failed to read from write thread eventfd"
  else "Failed to read from read thread eventfd".

Definition start_error (tx : bool) : string :=
  if tx then "Failed to start write thread" else "Failed to start read thread".

(** The states of the control plane: the state in which [main] enters its
    loop, and the state after each run of [handle_ep0], whatever the event
    and whatever the calls return. *)
Inductive Session : state_t -> Prop :=
| Session_start : Session zero_state
| Session_event env s x s' tr :
    Session s -> handle_ep0 env s = Done x s' tr -> Session s'.

(** What holds of the threads in every state of a session: a running
    engine is the one that the flag and the [pthread_t] of its direction
    name, the [pthread_t] of a started direction was created for this
    direction, and no two threads have the same [pthread_t]. *)
Record session_inv (s : state_t) : Prop := {
  si_flagged : forall tx te, te ∈ engines_of tx s ->
               started tx s = true /\ te.1 = thread_of tx s;
  si_direction : forall tx e, started tx s = true ->
                 (thread_of tx s, e) ∈ threads s -> engine_tx e = tx;
  si_started : forall tx, started tx s = true -> (thread_of tx s < created s)%nat;
  si_created : Forall (fun te => (te.1 < created s)%nat) (threads s);
  si_nodup : NoDup (fst <$> threads s)
}.

(** [main] from "Stop threads" on.  Of [close_endpoints] only the
    [close] of ep0 is recorded: the bulk endpoints have no name in [fd]. *)
Definition shutdown (env_rx env_tx : stop_env) : cmd Z :=
  stop_thread false env_rx;;
  stop_thread true env_tx;;
  emit (Close fd_epoll);;
  emit (Close fd_read_thread_event);;
  emit (Close fd_write_thread_event);;
  emit (Close fd_ep0);;
  emit (Printf "Bye!" []);;
  mret 0.

(** A FUNCTIONFS_DISABLE event. *)
Record disable_event (env : ep0_env) : Prop := {
  de_event_read : event_read_ret env = sizeof_usb_functionfs_event;
  de_type : type (event env) = FUNCTIONFS_DISABLE
}.

(** An event of type [ty] that is not a control transfer, with calls that
    succeed. *)
Definition function_event (ty : Z) : ep0_env :=
  {| event_read_ret := 12;
     event := {| setup := {| bRequestType := 0; bRequest := 0; wValue := 0;
                             wIndex := 0; wLength := 0 |};
                 type := ty |};
     null_write_ret := 0; read_count := 0; control_in_data := [];
     stop_first := stop_ok; stop_second := stop_ok; start := start_ok |}.

(** The session after FUNCTIONFS_ENABLE and START(RX, mask = 0x3,
    samples = 1024). *)
Definition receiving : state_t :=
  after_two (function_event FUNCTIONFS_ENABLE) (first_start stop_ok) zero_state.


(** What [main] holds of one direction: its engine threads that are
    running, its started flag, its [pthread_t] and its arguments. *)
Definition direction_of (d : bool) (s : state_t)
  : list (nat * engine) * bool * nat * (Z * Z) :=
  (engines_of d s, started d s, thread_of d s, args_of d s).

(** The calls that act on the engine of a direction: a write to or a read
    from its cancellation eventfd, and the creation or the join of its
    thread. *)
Definition addresses (d : bool) (c : call) : bool :=
  match c with
  | Write f | Read f => bool_decide (f = thread_event_fd d)
  | Pthread_create tx _ _ _ | Pthread_join tx => bool_decide (tx = d)
  | _ => false
  end.

(** In a state of a session, direction [d] is as it was in [s0]. *)
Definition frame (d : bool) (s0 s : state_t) : Prop :=
  session_inv s /\ direction_of d s = direction_of d s0.

(** A call that does not act on the engine of direction [d]. *)
Definition quiet (d : bool) (c : call) : Prop := addresses d c = false.

End Main.

(** * Properties *)

(** ** Machine integers and the monad *)

Lemma uint32_small x : is_uint32 x -> uint32 x = x.
Proof. unfold is_uint32, uint32, UINT32_MAX. intros. apply Z.mod_small. lia. Qed.

Lemma bind_run {S E A B} (m : M S E A) (k : A -> M S E B) s a s1 tr1 :
  m s = Done a s1 tr1 ->
  (m ≫= k) s =
    match k a s1 with
    | Fault => Fault
    | Done b s2 tr2 => Done b s2 (tr1 ++ tr2)
    end.
Proof. intros Hm. unfold mbind, M_bind. by rewrite Hm. Qed.

Lemma bind_Done_inv {S E A B} (m : M S E A) (k : A -> M S E B) s b s2 tr :
  (m ≫= k) s = Done b s2 tr ->
  exists a s1 tr1 tr2, m s = Done a s1 tr1 /\ k a s1 = Done b s2 tr2 /\ tr = tr1 ++ tr2.
Proof.
  unfold mbind, M_bind. destruct (m s) as [|a s1 tr1]; [done|].
  destruct (k a s1) as [|b' s2' tr2] eqn:Hk; [done|].
  intros [= -> -> <-]. by exists a, s1, tr1, tr2.
Qed.

Ltac unfold_monad :=
  unfold mbind, M_bind, mret, M_ret, get, modify, emit, fault in *.

Lemma emit_bind_inv {S E B} (e : E) (k : unit -> M S E B) s b s' tr :
  (emit e ≫= k) s = Done b s' tr ->
  exists tr2, k () s = Done b s' tr2 /\ tr = e :: tr2.
Proof.
  intros H. apply bind_Done_inv in H as (a & s1 & tr1 & tr2 & Hm & H & ->).
  injection Hm as <- <- <-. by exists tr2.
Qed.

Lemma modify_bind_inv {S E B} (f : S -> S) (k : unit -> M S E B) s b s' tr :
  (modify f ≫= k) s = Done b s' tr -> k () (f s) = Done b s' tr.
Proof.
  intros H. apply bind_Done_inv in H as (a & s1 & tr1 & tr2 & Hm & H & ->).
  by injection Hm as <- <- <-.
Qed.

Lemma get_bind_inv {S E B} (k : S -> M S E B) s b s' tr :
  (get ≫= k) s = Done b s' tr -> k s s = Done b s' tr.
Proof.
  intros H. apply bind_Done_inv in H as (a & s1 & tr1 & tr2 & Hm & H & ->).
  by injection Hm as <- <- <-.
Qed.

(** A branch that reports an error and returns [r] did not return [r']. *)
Lemma emit_ret_inv {S E A} (e : E) (r r' : A) (s s' : S) tr :
  (emit e ≫= fun _ => mret r) s = Done r' s' tr -> r' = r /\ s' = s.
Proof. unfold_monad. by intros [= <- <- _]. Qed.

(** Case analysis on the integer comparisons of the code. *)
Ltac cmp_cases :=
  repeat match goal with
    | |- context [?a <? ?b] => destruct (Z.ltb_spec a b)
    | |- context [?a <=? ?b] => destruct (Z.leb_spec a b)
    | |- context [?a =? ?b] => destruct (Z.eqb_spec a b)
    | H : context [?a <? ?b] |- _ => destruct (Z.ltb_spec a b)
    | H : context [?a <=? ?b] |- _ => destruct (Z.leb_spec a b)
    | H : context [?a =? ?b] |- _ => destruct (Z.eqb_spec a b)
    end.

(** ** ring_buffer.c *)

Section RingBufferFacts.
Import RingBuffer.

Lemma wf_init ctx0 cap : is_uint32 cap -> wf (RING_BUFFER_Init ctx0 cap).
Proof.
  intros Hc. unfold is_uint32 in Hc.
  split; cbn; unfold wrap; cmp_cases; unfold is_uint32; lia.
Qed.

Lemma wf_head_lt ctx : wf ctx -> usage ctx < capacity ctx -> 0 <= head ctx < capacity ctx.
Proof.
  intros [Hc Hu Ht Hh] Hlt. rewrite Hh. unfold wrap. cmp_cases; lia.
Qed.

(** A put that finds room yields the head and advances it. *)
Lemma put_room ctx :
  wf ctx -> usage ctx < capacity ctx ->
  RING_BUFFER_Put ctx =
    (head ctx,
     {| capacity := capacity ctx; usage := usage ctx + 1;
        head := wrap (capacity ctx) (tail ctx + (usage ctx + 1)); tail := tail ctx |}).
Proof.
  intros Hwf Hlt. pose proof (wf_head_lt ctx Hwf Hlt) as Hhd.
  destruct Hwf as [Hc Hu Ht Hh]. unfold is_uint32, UINT32_MAX in Hc.
  unfold RING_BUFFER_Put.
  rewrite !uint32_small by (unfold is_uint32, UINT32_MAX; lia).
  destruct (Z.ltb_spec (usage ctx) (capacity ctx)); [|lia].
  f_equal. f_equal. revert Hhd. rewrite Hh. unfold wrap. cmp_cases; lia.
Qed.

(** A get that finds an entry yields the tail and advances it. *)
Lemma get_some ctx :
  wf ctx -> 0 < usage ctx ->
  RING_BUFFER_Get ctx =
    (tail ctx,
     {| capacity := capacity ctx; usage := usage ctx - 1;
        head := head ctx; tail := wrap (capacity ctx) (tail ctx + 1) |}).
Proof.
  intros [Hc Hu Ht Hh] Hlt. unfold is_uint32, UINT32_MAX in Hc.
  unfold RING_BUFFER_Get.
  rewrite !uint32_small by (unfold is_uint32, UINT32_MAX; lia).
  destruct (Z.ltb_spec 0 (usage ctx)); [|lia].
  f_equal. f_equal. unfold wrap. cmp_cases; lia.
Qed.

Lemma put_full ctx :
  capacity ctx <= usage ctx -> RING_BUFFER_Put ctx = (RING_BUFFER_NO_INDEX, ctx).
Proof.
  intros. unfold RING_BUFFER_Put.
  destruct (Z.ltb_spec (usage ctx) (capacity ctx)); [lia | done].
Qed.

Lemma get_empty ctx :
  usage ctx <= 0 -> RING_BUFFER_Get ctx = (RING_BUFFER_NO_INDEX, ctx).
Proof.
  intros. unfold RING_BUFFER_Get.
  destruct (Z.ltb_spec 0 (usage ctx)); [lia | done].
Qed.

Lemma wf_put ctx : wf ctx -> wf (snd (RING_BUFFER_Put ctx)).
Proof.
  intros Hwf. destruct (Z.lt_ge_cases (usage ctx) (capacity ctx)) as [Hlt|Hge].
  - rewrite put_room by done. destruct Hwf as [Hc Hu Ht Hh].
    split; cbn; [done | lia | lia | done].
  - by rewrite put_full.
Qed.

Lemma wf_get ctx : wf ctx -> wf (snd (RING_BUFFER_Get ctx)).
Proof.
  intros Hwf. destruct (Z.lt_ge_cases 0 (usage ctx)) as [Hlt|Hge].
  - rewrite get_some by done. destruct Hwf as [Hc Hu Ht Hh].
    split; cbn; [done | lia | unfold wrap; cmp_cases; lia |].
    rewrite Hh. unfold wrap. cmp_cases; lia.
  - rewrite get_empty by lia. done.
Qed.

Lemma capacity_put ctx : capacity (snd (RING_BUFFER_Put ctx)) = capacity ctx.
Proof. unfold RING_BUFFER_Put. by destruct (Z.ltb_spec (usage ctx) (capacity ctx)). Qed.

Lemma capacity_get ctx : capacity (snd (RING_BUFFER_Get ctx)) = capacity ctx.
Proof. unfold RING_BUFFER_Get. by destruct (Z.ltb_spec 0 (usage ctx)). Qed.

Lemma reachable_wf cap ctx :
  is_uint32 cap -> reachable cap ctx -> wf ctx /\ capacity ctx = cap.
Proof.
  intros Hc. induction 1 as [ctx0 | ctx _ [IH1 IH2] | ctx _ [IH1 IH2]].
  - split; [by apply wf_init | done].
  - split; [by apply wf_put | by rewrite capacity_put].
  - split; [by apply wf_get | by rewrite capacity_get].
Qed.

(** C8: the free-list fails closed.  In every state reachable from
    [RING_BUFFER_Init] with a [uint32_t] capacity by puts and gets, a get
    with usage 0 and a put with usage equal to the capacity return
    [RING_BUFFER_NO_INDEX] and leave the context as it is; the usage never
    exceeds the capacity, and the sentinel is not the index of a slot. *)
Theorem C8_free_list_fails_closed cap ctx :
  is_uint32 cap -> reachable cap ctx ->
  (usage ctx = 0 -> RING_BUFFER_Get ctx = (RING_BUFFER_NO_INDEX, ctx)) /\
  (usage ctx = capacity ctx -> RING_BUFFER_Put ctx = (RING_BUFFER_NO_INDEX, ctx)) /\
  capacity ctx = cap /\ 0 <= usage ctx <= cap /\
  ~ (RING_BUFFER_NO_INDEX < cap).
Proof.
  intros Hc Hr. destruct (reachable_wf cap ctx Hc Hr) as [[_ Hu _ _] Hcap].
  repeat split.
  - intros H0. apply get_empty. lia.
  - intros Hfull. apply put_full. lia.
  - done.
  - lia.
  - lia.
  - unfold is_uint32 in Hc. unfold RING_BUFFER_NO_INDEX. lia.
Qed.

Lemma C8_witness :
  let full :=
    snd (RING_BUFFER_Put
           (RING_BUFFER_Init {| capacity := 0; usage := 0; head := 0; tail := 0 |} 1)) in
  RING_BUFFER_Put full = (RING_BUFFER_NO_INDEX, full).
Proof.
  intros full.
  apply (C8_free_list_fails_closed 1 full).
  - unfold is_uint32, UINT32_MAX. lia.
  - apply reach_put, reach_init.
  - reflexivity.
Defined.

End RingBufferFacts.

(** ** Rules for [preserves] *)

Section Preserves.
Context {S E : Type} (P : S -> Prop) (Q : E -> Prop).

Lemma preserves_ret {A} (a : A) : preserves P Q (mret a : M S E A).
Proof. intros s a' s' tr HP [= <- <- <-]. by split. Qed.

Lemma preserves_bind {A B} (m : M S E A) (k : A -> M S E B) :
  preserves P Q m -> (forall a, preserves P Q (k a)) -> preserves P Q (m ≫= k).
Proof.
  intros Hm Hk s b s' tr HP H.
  apply bind_Done_inv in H as (a & s1 & tr1 & tr2 & H1 & H2 & ->).
  destruct (Hm _ _ _ _ HP H1) as [HP1 Htr1].
  destruct (Hk a _ _ _ _ HP1 H2) as [HP2 Htr2].
  split; [done|]. by apply Forall_app.
Qed.

Lemma preserves_get : preserves P Q (get : M S E S).
Proof. intros s a s' tr HP [= <- <- <-]. by split. Qed.

Lemma preserves_modify (f : S -> S) :
  (forall s, P s -> P (f s)) -> preserves P Q (modify f : M S E unit).
Proof. intros Hf s a s' tr HP [= <- <- <-]. split; [by apply Hf | done]. Qed.

Lemma preserves_emit (e : E) : Q e -> preserves P Q (emit e : M S E unit).
Proof. intros He s a s' tr HP [= <- <- <-]. split; [done | by constructor]. Qed.

Lemma preserves_fault {A} : preserves P Q (fault : M S E A).
Proof. by intros s a s' tr HP H. Qed.

Lemma preserves_for_each {A B} (body : A -> M S E B) xs :
  (forall x, preserves P Q (body x)) -> preserves P Q (for_each body xs).
Proof.
  intros Hbody. induction xs as [|x xs IH]; cbn [for_each].
  - apply preserves_ret.
  - apply preserves_bind; [done|]. intros b.
    apply preserves_bind; [done|]. intros bs. apply preserves_ret.
Qed.

End Preserves.

(** One step of a proof that a command built from binds, branches and
    primitives is preserving; what is left are the side conditions of
    [modify] and [emit], and the calls of other functions. *)
Ltac preserves_step :=
  lazymatch goal with
  | |- preserves _ _ (mbind _ _) => apply preserves_bind; [|intros ?]
  | |- preserves _ _ (mret _) => apply preserves_ret
  | |- preserves _ _ get => apply preserves_get
  | |- preserves _ _ fault => apply preserves_fault
  | |- preserves _ _ (emit _) => apply preserves_emit; [reflexivity]
  | |- preserves _ _ (modify _) => apply preserves_modify
  | |- preserves _ _ (if ?c then _ else _) => destruct c
  | |- preserves _ _ (match ?x with _ => _ end) => destruct x
  | |- preserves _ _ (let _ := _ in _) => cbv zeta
  end.

Ltac preserves_tac := repeat preserves_step.

(** ** thread_read.c *)

Section RxFacts.
Import RingBuffer Rx.

Local Ltac zsimpl := cbn -[Z.eqb Z.leb Z.ltb Z.add Z.sub Z.of_nat Z.to_nat].

(** *** The ring as a list *)

Lemma slot_inj c j k :
  wf c -> Z.of_nat j < capacity c -> Z.of_nat k < capacity c ->
  slot c j = slot c k -> j = k.
Proof.
  intros [Hc Hu Ht Hh] Hj Hk. unfold slot, wrap. cmp_cases; lia.
Qed.

Lemma slot_lt c k :
  wf c -> Z.of_nat k < capacity c -> (slot c k < Z.to_nat (capacity c))%nat.
Proof.
  intros [Hc Hu Ht Hh] Hk. unfold slot, wrap. cmp_cases; lia.
Qed.

Lemma length_ring_content c ring : length (ring_content c ring) = Z.to_nat (usage c).
Proof. unfold ring_content. by rewrite length_fmap, length_seq. Qed.

(** Storing at the head and putting appends to the content. *)
Lemma ring_content_put c ring b :
  wf c -> usage c < capacity c -> capacity c = Z.of_nat (length ring) ->
  ring_content (snd (RING_BUFFER_Put c)) (<[Z.to_nat (head c) := b]> ring)
  = ring_content c ring ++ [b].
Proof.
  intros Hwf Hlt Hlen. rewrite put_room by done. cbn [snd].
  pose proof Hwf as [Hc Hu Ht Hh].
  unfold ring_content. cbn [usage].
  replace (Z.to_nat (usage c + 1)) with (S (Z.to_nat (usage c))) by lia.
  rewrite seq_S, fmap_app. cbn [fmap list_fmap plus].
  assert (Hhead : Z.to_nat (head c) = slot c (Z.to_nat (usage c))).
  { unfold slot. rewrite Hh. do 2 f_equal. lia. }
  f_equal.
  - apply list_fmap_ext. intros i k Hk.
    apply lookup_seq in Hk as [-> Hi]. cbn.
    unfold slot at 1. cbn [capacity tail]. fold (slot c i).
    apply list_lookup_total_insert_ne.
    rewrite Hhead. intros Heq. apply slot_inj in Heq; [lia | done | lia | lia].
  - f_equal. unfold slot at 1. cbn [capacity tail]. fold (slot c (Z.to_nat (usage c))).
    rewrite <- Hhead. apply list_lookup_total_insert_eq.
    pose proof (wf_head_lt c Hwf Hlt). lia.
Qed.

(** Getting removes the oldest entry of the content, the one at the tail. *)
Lemma ring_content_get c ring :
  wf c -> 0 < usage c ->
  ring_content c ring
  = ring !!! Z.to_nat (tail c) :: ring_content (snd (RING_BUFFER_Get c)) ring.
Proof.
  intros Hwf Hlt. rewrite get_some by done. cbn [snd].
  pose proof Hwf as [Hc Hu Ht Hh].
  unfold ring_content. cbn [usage].
  replace (Z.to_nat (usage c)) with (S (Z.to_nat (usage c - 1))) by lia.
  cbn [seq fmap list_fmap]. f_equal.
  - f_equal. unfold slot, wrap. cmp_cases; lia.
  - rewrite <- fmap_S_seq, <- list_fmap_compose.
    apply list_fmap_ext. intros i k Hk.
    apply lookup_seq in Hk as [-> Hi]. cbn. f_equal.
    unfold slot, wrap. cbn [capacity tail]. cmp_cases; lia.
Qed.

(** *** Handlers and the pool invariant *)

Lemma pool_inv_free rem s :
  pool_inv rem s ->
  exists fl, free_list s = Some <$> fl /\
             fl ++ aio_pending s ++ rem ≡ₚ seq 0 NUM_BUFS /\
             usage (ring_buf_ctx s) = Z.of_nat (length fl).
Proof.
  intros [Hwf Hcap Hlen Hbufs Hhl Hheap (fl & Hfl & Hperm)].
  exists fl. repeat split; [done | done |].
  pose proof (length_ring_content (ring_buf_ctx s) (ring_buf_data s)) as Hl.
  fold (free_list s) in Hl. rewrite Hfl, length_fmap in Hl.
  destruct Hwf. lia.
Qed.

Lemma handle_completion_spec ev p rem s :
  pool_inv (p :: rem) s -> data ev = Some p ->
  exists idx s',
    handle_completion ev s
    = Done idx s'
        (if reported (usb_buffer_size s) ev
         then [Fprintf_stderr "USB write completed with error, res: %ld, res2: %ld"
                 [res ev; res2 ev]]
         else []) /\
    idx = fst (RING_BUFFER_Put (ring_buf_ctx s)) /\
    0 <= idx < Z.of_nat NUM_BUFS /\
    pool_inv rem s' /\
    free_list s' = free_list s ++ [Some p] /\
    heap s' = <[p := Some {| in_use := false |}]> (heap s) /\
    aio_pending s' = aio_pending s /\
    usb_buffer_size s' = usb_buffer_size s /\
    overflows s' = overflows s /\
    keep_running s' = keep_running s.
Proof.
  intros Hinv Hdata.
  destruct (pool_inv_free _ _ Hinv) as (fl & Hfl & Hperm & Husage).
  destruct Hinv as [Hwf Hcap Hlen Hbufs Hhl Hheap _].
  assert (Hp : (p < NUM_BUFS)%nat).
  { assert (p ∈ seq 0 NUM_BUFS) as Hin by (rewrite <- Hperm, !elem_of_app, elem_of_cons; auto).
    apply elem_of_seq in Hin. lia. }
  assert (Hroom : usage (ring_buf_ctx s) < capacity (ring_buf_ctx s)).
  { apply Permutation_length in Hperm.
    rewrite !length_app, length_seq in Hperm. cbn in Hperm. lia. }
  destruct (lookup_lt_is_Some_2 (heap s) p) as [o Ho]; [lia|].
  destruct (Hheap p o Ho) as (b & -> & Hb).
  pose proof (wf_head_lt _ Hwf Hroom) as Hhd.
  set (log := if reported (usb_buffer_size s) ev
              then [Fprintf_stderr "USB write completed with error, res: %ld, res2: %ld"
                      [res ev; res2 ev]]
              else []).
  assert (Hlog :
    (if negb (usb_buffer_size s =? size_t (res ev)) then
       if negb (- ESHUTDOWN =? signed32 (res ev)) then
         emit (Fprintf_stderr "USB write completed with error, res: %ld, res2: %ld"
                 [res ev; res2 ev])
       else mret ()
     else mret ()) s = Done () s log).
  { unfold log, reported.
    destruct (usb_buffer_size s =? size_t (res ev)),
             (- ESHUTDOWN =? signed32 (res ev)); done. }
  unfold handle_completion, store_in_use, ring_put, store_ring_buf_data.
  unfold_monad. rewrite Hlog, Hdata. cbn. rewrite Ho. cbn.
  rewrite put_room by done. cbn. rewrite Hlen.
  replace ((0 <=? head (ring_buf_ctx s)) && (head (ring_buf_ctx s) <? Z.of_nat NUM_BUFS))
    with true by (symmetry; apply andb_true_iff; split; cmp_cases; lia).
  cbn. rewrite !app_nil_r.
  eexists _, _. split; [reflexivity|].
  assert (Hnd : NoDup (fl ++ aio_pending s ++ p :: rem)).
  { rewrite Hperm. apply NoDup_seq. }
  assert (Hfree :
    ring_content
      {| capacity := capacity (ring_buf_ctx s); usage := usage (ring_buf_ctx s) + 1;
         head := wrap (capacity (ring_buf_ctx s))
                   (tail (ring_buf_ctx s) + (usage (ring_buf_ctx s) + 1));
         tail := tail (ring_buf_ctx s) |}
      (<[Z.to_nat (head (ring_buf_ctx s)) := Some p]> (ring_buf_data s))
    = free_list s ++ [Some p]).
  { pose proof (ring_content_put (ring_buf_ctx s) (ring_buf_data s) (Some p) Hwf Hroom) as Hrc.
    rewrite put_room in Hrc by done. apply Hrc. lia. }
  split; [done|]. split; [lia|]. split; [|by cbn].
  split; cbn.
  - pose proof (wf_put _ Hwf) as Hwf'. by rewrite put_room in Hwf' by done.
  - done.
  - by rewrite length_insert.
  - done.
  - by rewrite length_insert.
  - intros q o Hq. destruct (decide (q = p)) as [->|Hne].
    + rewrite list_lookup_insert_eq in Hq by lia. injection Hq as <-.
      eexists; split; [done|]. cbn. split; [done|]. intros Hin.
      apply NoDup_app in Hnd as (_ & _ & Hnd).
      apply NoDup_app in Hnd as (_ & Hdisj & Hnd).
      apply NoDup_cons in Hnd as [Hnotin _].
      apply elem_of_app in Hin as [Hin|Hin]; [|done].
      exfalso. apply (Hdisj p Hin). apply elem_of_cons. by left.
    + rewrite list_lookup_insert_ne in Hq by done.
      destruct (Hheap q o Hq) as (b' & -> & Hb').
      exists b'. split; [done|]. rewrite Hb', !elem_of_app, elem_of_cons. tauto.
  - exists (fl ++ [p]). split.
    + unfold free_list. cbn. rewrite Hfree, Hfl, fmap_app. done.
    + rewrite <- Hperm, <- app_assoc. apply Permutation_app_head. cbn.
      apply Permutation_middle.
Qed.



Lemma completed_data (evs : list io_event) ps :
  data <$> evs = Some <$> ps -> completed evs = ps.
Proof.
  revert ps. induction evs as [|e evs IH]; intros [|p ps] Heq; try done.
  cbn in Heq. injection Heq as He Hrest.
  unfold completed. cbn. rewrite He. cbn. f_equal. by apply IH.
Qed.

Lemma data_completed (pending : list nat) (evs : list io_event) :
  Forall (fun e => exists p, data e = Some p /\ p ∈ pending) evs ->
  data <$> evs = Some <$> completed evs /\ Forall (fun p => p ∈ pending) (completed evs).
Proof.
  induction 1 as [|e evs (p & He & Hp) _ [IH1 IH2]]; [done|].
  unfold completed in *. cbn. rewrite He. cbn. split; [by f_equal | by constructor].
Qed.

Lemma error_log_cons size e evs :
  error_log size (e :: evs)
  = (if reported size e
     then [Fprintf_stderr "USB write completed with error, res: %ld, res2: %ld"
             [res e; res2 e]]
     else []) ++ error_log size evs.
Proof.
  unfold error_log. rewrite filter_cons.
  destruct (reported size e); by case_decide.
Qed.

Lemma for_each_completions evs ps s :
  data <$> evs = Some <$> ps -> pool_inv ps s ->
  exists idxs s',
    for_each handle_completion evs s
    = Done idxs s' (error_log (usb_buffer_size s) evs) /\
    length idxs = length evs /\
    Forall (fun idx => 0 <= idx < Z.of_nat NUM_BUFS) idxs /\
    pool_inv [] s' /\
    free_list s' = free_list s ++ (Some <$> ps) /\
    aio_pending s' = aio_pending s /\
    usb_buffer_size s' = usb_buffer_size s /\
    overflows s' = overflows s /\
    keep_running s' = keep_running s.
Proof.
  revert ps s. induction evs as [|ev evs IH]; intros ps s Hdata Hinv.
  - destruct ps; [|done]. exists [], s. rewrite app_nil_r.
    split; [done|]. split; [done|]. split; [constructor|]. split; [done|].
    by repeat split.
  - destruct ps as [|p ps]; [done|]. cbn in Hdata. injection Hdata as Hev Hdata.
    destruct (handle_completion_spec ev p ps s Hinv Hev)
      as (idx & s1 & Hrun & _ & Hidx & Hinv1 & Hfl1 & _ & Hp1 & Hsz1 & Hov1 & Hkr1).
    destruct (IH ps s1 Hdata Hinv1)
      as (idxs & s' & Hrun' & Hlen & Hidxs & Hinv' & Hfl' & Hp' & Hsz' & Hov' & Hkr').
    exists (idx :: idxs), s'. split.
    { cbn [for_each]. rewrite (bind_run _ _ _ _ _ _ Hrun).
      rewrite (bind_run _ _ _ _ _ _ Hrun'). rewrite error_log_cons, Hsz1.
      unfold mret, M_ret. by rewrite app_nil_r. }
    split; [cbn; by f_equal|]. split; [by constructor|]. split; [done|].
    split; [rewrite Hfl', Hfl1, <- app_assoc; done|].
    split; [congruence|]. split; [congruence|]. split; congruence.
Qed.

Lemma list_difference_Permutation (l k : list nat) :
  NoDup l -> NoDup k -> Forall (fun x => x ∈ l) k -> l ≡ₚ list_difference l k ++ k.
Proof.
  intros Hl Hk Hin. apply NoDup_Permutation; [done| |].
  - apply NoDup_app. split; [by apply NoDup_list_difference|]. split; [|done].
    intros x Hx. apply list_elem_of_difference in Hx. tauto.
  - intros x. rewrite elem_of_app, list_elem_of_difference.
    rewrite Forall_forall in Hin. destruct (decide (x ∈ k)) as [Hxk|Hxk].
    + pose proof (Hin x Hxk). tauto.
    + tauto.
Qed.

Lemma pool_inv_getevents s ps :
  pool_inv [] s -> NoDup ps -> Forall (fun p => p ∈ aio_pending s) ps ->
  pool_inv ps (set_aio_pending (list_difference (aio_pending s) ps) s).
Proof.
  intros [Hwf Hcap Hlen Hbufs Hhl Hheap (fl & Hfl & Hperm)] Hnd Hin.
  assert (Hpnd : NoDup (aio_pending s)).
  { rewrite app_nil_r in Hperm.
    assert (NoDup (fl ++ aio_pending s)) as Hn by (rewrite Hperm; apply NoDup_seq).
    by apply NoDup_app in Hn as (_ & _ & ?). }
  pose proof (list_difference_Permutation _ _ Hpnd Hnd Hin) as Hsplit.
  split; cbn; try done.
  - intros p o Ho. destruct (Hheap p o Ho) as (b & -> & Hb).
    exists b. split; [done|]. by rewrite Hb, app_nil_r, <- Hsplit.
  - exists fl. split; [done|]. by rewrite <- Hsplit, <- Hperm, app_nil_r.
Qed.

Lemma handle_eventfd_aio_ok G s read_ret ret evs :
  pool_inv [] s -> kernel_ok G s (Ready_aio read_ret ret evs) ->
  0 <= read_ret -> 0 <= ret ->
  let evs' := take (Z.to_nat ret) evs in
  exists s1 idxs s',
    io_getevents ret evs s = Done ret s1 [Io_getevents ret] /\
    for_each handle_completion evs' s1
    = Done idxs s' (error_log (usb_buffer_size s) evs') /\
    handle_eventfd_aio read_ret ret evs s
    = Done 0 s' (Read fd_aio_event :: Io_getevents ret :: error_log (usb_buffer_size s) evs') /\
    length idxs = length evs' /\
    Forall (fun idx => 0 <= idx < Z.of_nat NUM_BUFS) idxs /\
    pool_inv [] s' /\
    free_list s' = free_list s ++ (Some <$> completed evs') /\
    aio_pending s' = list_difference (aio_pending s) (completed evs') /\
    usb_buffer_size s' = usb_buffer_size s /\
    overflows s' = overflows s /\
    keep_running s' = keep_running s.
Proof.
  intros Hinv Hk Hrr Hret evs'. cbn in Hk. destruct Hk as [Hk|(Hle & Hnd & Hall)]; [lia|].
  fold evs' in Hnd, Hall.
  destruct (data_completed _ _ Hall) as [Hdata Hin]. rewrite Hdata in Hnd.
  apply NoDup_fmap_1 in Hnd.
  pose proof (pool_inv_getevents s (completed evs') Hinv Hnd Hin) as Hinv1.
  set (s1 := set_aio_pending (list_difference (aio_pending s) (completed evs')) s) in *.
  destruct (for_each_completions evs' (completed evs') s1 Hdata Hinv1)
    as (idxs & s' & Hrun & Hlen & Hidxs & Hinv' & Hfl' & Hp' & Hsz' & Hov' & Hkr').
  assert (Hget : io_getevents ret evs s = Done ret s1 [Io_getevents ret]) by done.
  exists s1, idxs, s'. split; [done|]. split; [done|]. split.
  { unfold handle_eventfd_aio.
    rewrite (bind_run (emit _) _ s () s [Read fd_aio_event]) by done.
    destruct (Z.ltb_spec read_ret 0); [lia|].
    rewrite (bind_run _ _ _ _ _ _ Hget).
    destruct (Z.ltb_spec ret 0); [lia|].
    fold evs'. rewrite (bind_run _ _ _ _ _ _ Hrun). cbn. by rewrite app_nil_r. }
  split; [done|]. split; [done|]. split; [done|].
  split; [by rewrite Hfl'|]. by repeat split.
Qed.


(** The invariant does not depend on [keep_running], [overflows] and
    [usb_buffer_size]. *)
Lemma pool_inv_ext rem s s' :
  ring_buf_ctx s' = ring_buf_ctx s -> ring_buf_data s' = ring_buf_data s ->
  buffers s' = buffers s -> heap s' = heap s -> aio_pending s' = aio_pending s ->
  pool_inv rem s -> pool_inv rem s'.
Proof.
  intros H1 H2 H3 H4 H5 [Hwf Hcap Hlen Hbufs Hhl Hheap Hperm].
  split; unfold free_list in *; rewrite ?H1, ?H2, ?H3, ?H4, ?H5; done.
Qed.

Lemma handle_iio_buffer_spec G s nbytes submit_res :
  pool_inv [] s ->
  exists x s' tr,
    handle_iio_buffer G nbytes submit_res s = Done x s' tr /\
    (0 <= x -> pool_inv [] s').
Proof.
  intros Hinv.
  destruct (pool_inv_free _ _ Hinv) as (fl & Hfl & Hperm & Husage).
  pose proof Hinv as [Hwf Hcap Hlen Hbufs Hhl Hheap _].
  assert (HN : NUM_BUFS = 16%nat) by done.
  unfold handle_iio_buffer, ring_get, load_ring_buf_data, store_in_use, io_submit.
  unfold_monad. zsimpl.
  destruct (nbytes =? signed32 (usb_buffer_size s)); zsimpl.
  2:{ eexists _, _, _. split; [done|]. lia. }
  destruct (Z.lt_ge_cases 0 (usage (ring_buf_ctx s))) as [Hpos|Hzero].
  - (* a free buffer *)
    pose proof (ring_content_get _ (ring_buf_data s) Hwf Hpos) as Hget.
    fold (free_list s) in Hget. rewrite Hfl, get_some in Hget by done. cbn [snd] in Hget.
    destruct fl as [|p fl]; [done|]. cbn in Hget. injection Hget as Hp Hfl'.
    destruct Hwf as [Hc Hu Ht Hh].
    assert (Hload : ring_buf_data s !! Z.to_nat (tail (ring_buf_ctx s)) = Some (Some p)).
    { rewrite Hp. apply list_lookup_lookup_total_lt. lia. }
    assert (Hplt : (p < NUM_BUFS)%nat).
    { assert (p ∈ seq 0 NUM_BUFS) as Hin
        by (rewrite <- Hperm, !elem_of_app, elem_of_cons; auto).
      apply elem_of_seq in Hin. lia. }
    destruct (lookup_lt_is_Some_2 (heap s) p) as [o Ho]; [lia|].
    destruct (Hheap p o Ho) as (b & -> & Hb).
    rewrite get_some by (done || by split). zsimpl.
    destruct (Z.eqb_spec RING_BUFFER_NO_INDEX (tail (ring_buf_ctx s))) as [Heq|_];
      [unfold RING_BUFFER_NO_INDEX, UINT32_MAX in Heq; lia|].
    destruct (Z.leb_spec 0 (tail (ring_buf_ctx s))); [|lia].
    zsimpl. rewrite Hload. zsimpl. rewrite Ho. zsimpl.
    destruct (Z.eqb_spec submit_res 1) as [->|Hne]; zsimpl.
    + eexists _, _, _. split; [done|]. intros _.
      assert (Hnd : NoDup ((p :: fl) ++ aio_pending s ++ [])).
      { rewrite Hperm. apply NoDup_seq. }
      rewrite app_nil_r in *.
      split; zsimpl.
      * split; zsimpl; [done | lia | unfold wrap; cmp_cases; lia |].
        rewrite Hh. unfold wrap. cmp_cases; lia.
      * done.
      * done.
      * done.
      * by rewrite length_insert.
      * intros q o Hq. destruct (decide (q = p)) as [->|Hqp].
        -- rewrite list_lookup_insert_eq in Hq by lia. injection Hq as <-.
           eexists; split; [done|]. zsimpl. rewrite !elem_of_app, list_elem_of_singleton. tauto.
        -- rewrite list_lookup_insert_ne in Hq by done.
           destruct (Hheap q o Hq) as (b' & -> & Hb').
           exists b'. split; [done|].
           rewrite Hb', !elem_of_app, list_elem_of_singleton, elem_of_nil. tauto.
      * exists fl. split; [unfold free_list; zsimpl; by rewrite <- Hfl'|].
        rewrite <- Hperm, app_nil_r, app_assoc. zsimpl.
        symmetry. apply Permutation_cons_append.
    + destruct (Z.eqb_spec 1 submit_res) as [Heq|_]; [lia|]. zsimpl.
      rewrite list_lookup_insert_eq by lia. zsimpl.
      eexists _, _, _. split; [done|]. lia.
  - (* none: the samples are dropped *)
    rewrite get_empty by lia. zsimpl.
    destruct G; zsimpl; eexists _, _, _; (split; [done|]); intros _;
      (eapply pool_inv_ext; [..|exact Hinv]); done.
Qed.

(** *** The set-up *)

Lemma enable_channels_state channels found ixs s b s' tr :
  enable_channels channels found ixs s = Done b s' tr -> s' = s.
Proof.
  revert tr. induction ixs as [|i ixs IH]; intros tr; cbn [enable_channels].
  - by intros [= _ -> _].
  - destruct (negb (Z.land channels (Z.shiftl 1 (Z.of_nat i)) =? 0)); [|by apply IH].
    destruct (negb (found i)).
    + unfold_monad. by intros [= _ -> _].
    + intros H. apply bind_Done_inv in H as (a & s1 & tr1 & tr2 & Hm & H & _).
      injection Hm as _ <- _. by apply IH in H.
Qed.

(** When every allocation succeeds the loop does not depend on the
    environment. *)
Lemma allocate_buffers_ext env env' ixs s :
  Forall (fun i => malloc_ok env i = malloc_ok env' i) ixs ->
  allocate_buffers env ixs s = allocate_buffers env' ixs s.
Proof.
  intros Hall. revert s. induction Hall as [|i ixs Hi _ IH]; intros s; [done|].
  cbn [allocate_buffers]. rewrite Hi. unfold mbind, M_bind.
  destruct (alloc_usb_buffer (malloc_ok env' i) s) as [|[p|] s1 tr1]; [done| |done].
  destruct (store_buffers i (Some p) s1) as [|[] s2 tr2]; [done|].
  destruct (ring_put s2) as [|idx s3 tr3]; [done|].
  destruct (store_ring_buf_data idx (Some p) s3) as [|[] s4 tr4]; [done|].
  by rewrite IH.
Qed.

Lemma allocate_buffers_ok env ixs s r s' tr :
  allocate_buffers env ixs s = Done (Some r) s' tr ->
  Forall (fun i => malloc_ok env i = true) ixs.
Proof.
  revert s r s' tr. induction ixs as [|i ixs IH]; intros s r s' tr H; [constructor|].
  cbn [allocate_buffers] in H.
  apply bind_Done_inv in H as ([p|] & s1 & tr1 & tr2 & Hm & H & _).
  2:{ by injection H. }
  constructor.
  - destruct (malloc_ok env i) eqn:Hok; [done|].
    unfold alloc_usb_buffer, malloc in Hm. unfold_monad. cbn in Hm. done.
  - apply bind_Done_inv in H as (? & s2 & ? & ? & _ & H & _).
    apply bind_Done_inv in H as (? & s3 & ? & ? & _ & H & _).
    apply bind_Done_inv in H as (? & s4 & ? & ? & _ & H & _).
    apply bind_Done_inv in H as ([r'|] & s5 & ? & ? & Hrec & H & _); [|by injection H].
    by eapply IH.
Qed.

Lemma allocate_buffers_run env size :
  Forall (fun i => malloc_ok env i = true) (seq 0 NUM_BUFS) ->
  allocate_buffers env (seq 0 NUM_BUFS) (pool_empty size)
  = Done (Some (Z.of_nat <$> seq 0 NUM_BUFS))
         (set_keep_running false (pool_ready size))
         (replicate NUM_BUFS (Malloc true)).
Proof.
  intros Hall.
  set (env' := {| epoll_create1_ret := 0; epoll_ctl_quit_ret := 0; iio_ctx_found := true;
                  iio_dev_found := true; iio_channel_found := fun _ => true;
                  iio_buffer_created := true; epoll_ctl_iio_ret := 0; iio_buffer_step := 0;
                  io_setup_ret := 0; eventfd_ret := 0; epoll_ctl_aio_ret := 0;
                  malloc_ok := fun _ => true; timerfd_create_ret := 0;
                  timerfd_settime_ret := 0; epoll_ctl_timer_ret := 0 |}).
  rewrite (allocate_buffers_ext env env') by done.
  vm_compute. reflexivity.
Qed.


Lemma setup_stats_state env s b s' tr :
  setup_stats env s = Done b s' tr -> s' = s.
Proof.
  unfold setup_stats. unfold_monad.
  destruct (timerfd_create_ret env <? 0); [by intros [= _ -> _]|].
  destruct (timerfd_settime_ret env <? 0); [by intros [= _ -> _]|].
  destruct (epoll_ctl_timer_ret env <? 0); by intros [= _ -> _].
Qed.

(** A set-up that reaches the main loop leaves every buffer allocated and
    in the free-list, and has performed 16 puts, which returned 0 to 15. *)
Lemma setup_ready G args env s tr :
  setup G args env zero_state = Done true s tr ->
  let size := size_t (iio_buffer_step env * iio_buffer_size args) in
  s = set_keep_running false (pool_ready size) /\
  exists tr',
    allocate_buffers env (seq 0 NUM_BUFS) (pool_empty size)
    = Done (Some (Z.of_nat <$> seq 0 NUM_BUFS)) s tr'.
Proof.
  intros H size. unfold setup in H.
  apply emit_bind_inv in H as (? & H & _).
  destruct (epoll_create1_ret env <? 0); [by apply emit_ret_inv in H as [? _]|].
  apply emit_bind_inv in H as (? & H & _).
  destruct (epoll_ctl_quit_ret env <? 0); [by apply emit_ret_inv in H as [? _]|].
  apply emit_bind_inv in H as (? & H & _).
  destruct (negb (iio_ctx_found env)); [by apply emit_ret_inv in H as [? _]|].
  apply emit_bind_inv in H as (? & H & _).
  destruct (negb (iio_dev_found env)); [by apply emit_ret_inv in H as [? _]|].
  apply emit_bind_inv in H as (? & H & _).
  apply bind_Done_inv in H as (en & s1 & ? & ? & Hen & H & _).
  apply enable_channels_state in Hen as ->.
  destruct (negb en); [by injection H|].
  apply emit_bind_inv in H as (? & H & _).
  destruct (negb (iio_buffer_created env)); [by apply emit_ret_inv in H as [? _]|].
  apply emit_bind_inv in H as (? & H & _).
  destruct (epoll_ctl_iio_ret env <? 0); [by apply emit_ret_inv in H as [? _]|].
  apply modify_bind_inv in H.
  apply emit_bind_inv in H as (? & H & _).
  destruct (io_setup_ret env <? 0); [by apply emit_ret_inv in H as [? _]|].
  apply emit_bind_inv in H as (? & H & _).
  destruct (eventfd_ret env <? 0); [by apply emit_ret_inv in H as [? _]|].
  apply emit_bind_inv in H as (? & H & _).
  destruct (epoll_ctl_aio_ret env <? 0); [by apply emit_ret_inv in H as [? _]|].
  apply modify_bind_inv in H.
  apply bind_Done_inv in H as (r & s2 & tr2 & ? & Halloc & H & _).
  change (allocate_buffers env (seq 0 NUM_BUFS) (pool_empty size) = Done r s2 tr2)
    in Halloc.
  destruct r as [idxs|]; [|by injection H].
  pose proof (allocate_buffers_ok _ _ _ _ _ _ Halloc) as Hok.
  pose proof Halloc as Halloc'.
  rewrite (allocate_buffers_run env size Hok) in Halloc'.
  injection Halloc' as <- <- <-.
  assert (s = set_keep_running false (pool_ready size)) as ->.
  { destruct G.
    - by apply setup_stats_state in H.
    - by injection H. }
  split; [done|]. by eexists.
Qed.

Lemma pool_inv_ready size : pool_inv [] (pool_ready size).
Proof.
  split; cbn -[seq replicate NUM_BUFS].
  - split; unfold is_uint32, UINT32_MAX, wrap; cbn; [lia | lia | lia | done].
  - done.
  - by rewrite length_fmap, length_seq.
  - done.
  - by rewrite length_replicate.
  - intros p o Ho. apply lookup_replicate in Ho as [-> _].
    eexists. split; [done|]. cbn. rewrite elem_of_nil. split; [done|tauto].
  - exists (seq 0 NUM_BUFS). split; [done|]. by rewrite !app_nil_r.
Qed.

(** *** The running engine *)

Lemma dispatch_spec G s r :
  pool_inv [] s -> kernel_ok G s r ->
  exists x s' tr, dispatch G r s = Done x s' tr /\ (0 <= x -> pool_inv [] s').
Proof.
  intros Hinv Hk. destruct r as [|nbytes submit_res|read_ret ret evs|read_ret]; cbn [dispatch].
  - eexists _, _, _. split; [done|]. intros _. by eapply pool_inv_ext; [..|exact Hinv].
  - by apply handle_iio_buffer_spec.
  - destruct (Z.lt_ge_cases read_ret 0) as [Hrr|Hrr].
    { unfold handle_eventfd_aio. unfold_monad. zsimpl.
      destruct (Z.ltb_spec read_ret 0); [|lia]. eexists _, _, _. split; [done|]. lia. }
    destruct (Z.lt_ge_cases ret 0) as [Hret|Hret].
    { unfold handle_eventfd_aio, io_getevents. unfold_monad. zsimpl.
      destruct (Z.ltb_spec read_ret 0); [lia|]. zsimpl.
      destruct (Z.ltb_spec ret 0); [|lia]. eexists _, _, _. split; [done|]. lia. }
    destruct (handle_eventfd_aio_ok G s read_ret ret evs Hinv Hk)
      as (s1 & idxs & s' & _ & _ & Hrun & _ & _ & Hinv' & _); [lia..|].
    eexists _, _, _. split; [exact Hrun|done].
  - unfold handle_stats_timer. unfold_monad. zsimpl.
    destruct (read_ret <? 0); zsimpl.
    + eexists _, _, _. split; [done|]. done.
    + destruct (0 <? overflows s); zsimpl; eexists _, _, _; (split; [done|]); intros _;
        by eapply pool_inv_ext; [..|exact Hinv].
Qed.

Lemma Running_pool_inv G s : Running G s -> pool_inv [] s.
Proof.
  induction 1 as [args env s tr Hsetup | s r x s' tr _ IH Hk Hrun Hx].
  - apply setup_ready in Hsetup as [-> _].
    by eapply pool_inv_ext; [..|apply pool_inv_ready].
  - destruct (dispatch_spec G s r IH Hk) as (x' & s'' & tr' & Hrun' & Hinv).
    rewrite Hrun in Hrun'. injection Hrun' as <- <- <-. by apply Hinv.
Qed.

(** C1: between two handlers of the running RX engine, each of the 16
    transfer buffers is either in the free-list or in flight and not both,
    neither list holds a buffer twice, and the length of the free-list
    (the usage of the ring) plus the number of buffers in flight is 16. *)
Theorem C1_rx_pool_invariant G s :
  Running G s ->
  (forall i, (i < NUM_BUFS)%nat ->
     (in_free_list s i /\ ~ in_flight s i) \/ (in_flight s i /\ ~ in_free_list s i)) /\
  NoDup (free_list s) /\ NoDup (aio_pending s) /\
  (length (free_list s) + length (aio_pending s) = NUM_BUFS)%nat /\
  usage (ring_buf_ctx s) = Z.of_nat (length (free_list s)).
Proof.
  intros Hrun. apply Running_pool_inv in Hrun as Hinv.
  destruct (pool_inv_free _ _ Hinv) as (fl & Hfl & Hperm & Husage).
  destruct Hinv as [_ _ _ Hbufs _ _ _]. rewrite app_nil_r in Hperm.
  assert (Hnd : NoDup (fl ++ aio_pending s)) by (rewrite Hperm; apply NoDup_seq).
  apply NoDup_app in Hnd as (Hnd1 & Hdisj & Hnd2).
  split; [|split; [|split; [|split]]].
  - intros i Hi.
    assert (Hb : buffers s !! i = Some (Some i)).
    { rewrite Hbufs, list_lookup_fmap, lookup_seq_lt by done. done. }
    assert (Hin : i ∈ fl ++ aio_pending s) by (rewrite Hperm, elem_of_seq; lia).
    unfold in_free_list, in_flight. rewrite Hfl.
    apply elem_of_app in Hin as [Hin|Hin]; [left|right]; split.
    + exists i. split; [done|]. by apply list_elem_of_fmap_2.
    + intros (p & Hp & Hpin). rewrite Hb in Hp. injection Hp as <-. by apply (Hdisj i).
    + by exists i.
    + intros (p & Hp & Hpin). rewrite Hb in Hp. injection Hp as <-.
      apply list_elem_of_fmap in Hpin as (q & [= <-] & Hq). by apply (Hdisj i).
  - rewrite Hfl. apply NoDup_fmap_2; [|done]. by intros ?? [=].
  - done.
  - rewrite Hfl, length_fmap. apply Permutation_length in Hperm.
    by rewrite length_app, length_seq in Hperm.
  - by rewrite Hfl, length_fmap.
Qed.


Lemma refilled_Running n : (n <= 16)%nat -> Running false (refilled n).
Proof.
  induction n as [|n IH]; intros Hn.
  - apply (Running_enter false example_args example_env
             (set_keep_running false (pool_ready 4096))
             (trace_of (setup false example_args example_env zero_state))).
    vm_compute. reflexivity.
  - apply (Running_dispatch false (refilled n) (Ready_iio 4096 1) 0 (refilled (S n))
             (trace_of (dispatch false (Ready_iio 4096 1) (refilled n)))).
    + apply IH. lia.
    + exact I.
    + do 16 (destruct n as [|n]; [vm_compute; reflexivity|]). lia.
    + lia.
Qed.

Lemma C1_witness :
  (forall i, (i < NUM_BUFS)%nat ->
     (in_free_list (refilled 3) i /\ ~ in_flight (refilled 3) i) \/
     (in_flight (refilled 3) i /\ ~ in_free_list (refilled 3) i)) /\
  NoDup (free_list (refilled 3)) /\ NoDup (aio_pending (refilled 3)) /\
  (length (free_list (refilled 3)) + length (aio_pending (refilled 3)) = NUM_BUFS)%nat /\
  usage (ring_buf_ctx (refilled 3)) = Z.of_nat (length (free_list (refilled 3))).
Proof.
  apply (C1_rx_pool_invariant false (refilled 3)).
  apply refilled_Running. lia.
Defined.

(** C4, as the code has it: when a refill succeeds and the free-list is
    empty, the handler returns 0 after the refill alone, without a
    submission and with the pending requests and the free-list untouched; a
    build with [GENERATE_STATS] counts one overflow in a [uint32_t], a build
    without it (the default) has no counter to change. *)
Theorem C4_rx_overflow_drops_refill G s nbytes submit_res :
  usage (ring_buf_ctx s) = 0 ->
  nbytes = signed32 (usb_buffer_size s) ->
  exists s',
    handle_iio_buffer G nbytes submit_res s = Done 0 s' [Iio_buffer_refill] /\
    overflows s' = (if G then uint32 (overflows s + 1) else overflows s) /\
    (G = true -> 0 <= overflows s < UINT32_MAX -> overflows s' = overflows s + 1) /\
    aio_pending s' = aio_pending s /\
    free_list s' = free_list s /\
    heap s' = heap s.
Proof.
  intros Husage ->.
  unfold handle_iio_buffer, ring_get. unfold_monad. zsimpl.
  rewrite Z.eqb_refl. zsimpl. rewrite get_empty by lia. zsimpl.
  destruct G; zsimpl; eexists; (split; [done|]); (split; [done|]).
  - split; [|done]. intros _ Hov. apply uint32_small. unfold is_uint32. lia.
  - split; [done|]. done.
Qed.

Lemma C4_witness :
  exists s',
    handle_iio_buffer true 4096 1 (refilled 16) = Done 0 s' [Iio_buffer_refill] /\
    overflows s' = uint32 (overflows (refilled 16) + 1) /\
    (true = true -> 0 <= overflows (refilled 16) < UINT32_MAX ->
     overflows s' = overflows (refilled 16) + 1) /\
    aio_pending s' = aio_pending (refilled 16) /\
    free_list s' = free_list (refilled 16) /\
    heap s' = heap (refilled 16).
Proof.
  apply (C4_rx_overflow_drops_refill true (refilled 16) 4096 1); reflexivity.
Defined.

(** C4 as the spec states it fails in the default build: the engine is
    running with all 16 buffers in flight, a refill succeeds, and no
    overflow is counted. *)
Lemma C4_counterexample :
  Running false (refilled 16) /\
  free_list (refilled 16) = [] /\
  exists s',
    handle_iio_buffer false 4096 1 (refilled 16) = Done 0 s' [Iio_buffer_refill] /\
    overflows s' <> overflows (refilled 16) + 1.
Proof.
  split; [apply refilled_Running; lia|]. split; [reflexivity|].
  eexists. split; [vm_compute; reflexivity|]. vm_compute. discriminate.
Qed.


Lemma reported_iff size e :
  reported size e = true <->
  size_t (res e) <> size /\ signed32 (res e) <> - ESHUTDOWN.
Proof.
  unfold reported. rewrite andb_true_iff, !negb_true_iff, !Z.eqb_neq.
  split; intros [H1 H2]; split; congruence.
Qed.

(** C5: when the running RX engine fetches a batch of completions, it
    writes an error to stderr for exactly those whose byte count is not the
    buffer size and whose status is not -ESHUTDOWN, in the order of the
    batch, and whatever the status, every buffer of the batch ends not in
    use, in the free-list and no longer in flight. *)
Theorem C5_rx_completion_recycles G s read_ret ret evs :
  Running G s -> kernel_ok G s (Ready_aio read_ret ret evs) ->
  0 <= read_ret -> 0 <= ret ->
  let evs' := take (Z.to_nat ret) evs in
  exists s',
    handle_eventfd_aio read_ret ret evs s
    = Done 0 s' (Read fd_aio_event :: Io_getevents ret ::
                 error_log (usb_buffer_size s) evs') /\
    error_log (usb_buffer_size s) evs'
    = (fun e => Fprintf_stderr "USB write completed with error, res: %ld, res2: %ld"
                  [res e; res2 e])
        <$> filter (fun e => size_t (res e) <> usb_buffer_size s /\
                             signed32 (res e) <> - ESHUTDOWN) evs' /\
    forall e, e ∈ evs' ->
      exists p, data e = Some p /\
                heap s' !! p = Some (Some {| in_use := false |}) /\
                in_free_list s' p /\ ~ in_flight s' p.
Proof.
  intros Hrun Hk Hrr Hret evs'. apply Running_pool_inv in Hrun as Hinv.
  destruct (handle_eventfd_aio_ok G s read_ret ret evs Hinv Hk Hrr Hret)
    as (s1 & idxs & s' & _ & _ & Hh & _ & _ & Hinv' & Hfl' & _).
  fold evs' in Hh, Hfl'.
  exists s'. split; [done|]. split.
  { unfold error_log. f_equal. apply list_filter_iff. intros e. apply reported_iff. }
  intros e He.
  cbn in Hk. destruct Hk as [?|(_ & _ & Hall)]; [lia|]. fold evs' in Hall.
  rewrite Forall_forall in Hall. destruct (Hall e He) as (p & Hp & _).
  assert (Hfree : Some p ∈ free_list s').
  { rewrite Hfl', elem_of_app. right. apply list_elem_of_fmap_2.
    unfold completed. apply list_elem_of_omap. by exists e. }
  destruct (pool_inv_free _ _ Hinv') as (fl & Hfl & Hperm & _).
  destruct Hinv' as [_ _ _ Hbufs Hhl Hheap _]. rewrite app_nil_r in Hperm.
  assert (Hnd : NoDup (fl ++ aio_pending s')) by (rewrite Hperm; apply NoDup_seq).
  apply NoDup_app in Hnd as (_ & Hdisj & _).
  assert (Hpfl : p ∈ fl).
  { rewrite Hfl in Hfree. by apply list_elem_of_fmap in Hfree as (q & [= <-] & Hq). }
  assert (Hplt : (p < NUM_BUFS)%nat).
  { assert (p ∈ seq 0 NUM_BUFS) as Hin by (rewrite <- Hperm, elem_of_app; auto).
    apply elem_of_seq in Hin. lia. }
  assert (Hb : buffers s' !! p = Some (Some p)).
  { rewrite Hbufs, list_lookup_fmap, lookup_seq_lt by done. done. }
  exists p. split; [done|]. split; [|split].
  - destruct (lookup_lt_is_Some_2 (heap s') p) as [o Ho]; [lia|].
    destruct (Hheap p o Ho) as ([[]] & -> & Hiu); [|done].
    exfalso. apply (Hdisj p Hpfl). rewrite app_nil_r in Hiu. by apply Hiu.
  - by exists p.
  - intros (q & Hq & Hqin). rewrite Hb in Hq. injection Hq as <-. by apply (Hdisj p).
Qed.


Lemma example_kernel_ok : kernel_ok false (refilled 3) (Ready_aio 8 2 example_events).
Proof.
  right. split; [cbn; lia|]. split.
  - cbn. apply NoDup_cons. split; [|apply NoDup_singleton].
    rewrite list_elem_of_singleton. discriminate.
  - repeat constructor; eexists; (split; [reflexivity|]);
      apply list_elem_of_In; vm_compute; tauto.
Qed.

Lemma C5_witness :
  let evs' := take (Z.to_nat 2) example_events in
  exists s',
    handle_eventfd_aio 8 2 example_events (refilled 3)
    = Done 0 s' (Read fd_aio_event :: Io_getevents 2 ::
                 error_log (usb_buffer_size (refilled 3)) evs') /\
    error_log (usb_buffer_size (refilled 3)) evs'
    = (fun e => Fprintf_stderr "USB write completed with error, res: %ld, res2: %ld"
                  [res e; res2 e])
        <$> filter (fun e => size_t (res e) <> usb_buffer_size (refilled 3) /\
                             signed32 (res e) <> - ESHUTDOWN) evs' /\
    forall e, e ∈ evs' ->
      exists p, data e = Some p /\
                heap s' !! p = Some (Some {| in_use := false |}) /\
                in_free_list s' p /\ ~ in_flight s' p.
Proof.
  apply (C5_rx_completion_recycles false (refilled 3) 8 2 example_events).
  - apply refilled_Running. lia.
  - exact example_kernel_ok.
  - lia.
  - lia.
Defined.

(** The scenario of the spec: with buffers of 4096 bytes a completion of
    4096 bytes is not reported, one of 2048 bytes is, and one that failed
    with -ESHUTDOWN is not. *)
Example error_log_scenario :
  error_log 4096
    [ {| data := Some 1%nat; res := 4096; res2 := 0 |};
      {| data := Some 0%nat; res := 2048; res2 := 0 |};
      {| data := Some 2%nat; res := 2 ^ 32 - 108; res2 := 0 |} ]
  = [Fprintf_stderr "USB write completed with error, res: %ld, res2: %ld" [2048; 0]].
Proof. reflexivity. Qed.

(** "Allocate buffers" never runs into undefined behaviour, whichever
    allocation fails, and the puts it performs return slots of the ring. *)
Lemma allocate_buffers_no_fault env ixs s (k : nat) :
  length (buffers s) = NUM_BUFS -> length (ring_buf_data s) = NUM_BUFS ->
  wf (ring_buf_ctx s) -> capacity (ring_buf_ctx s) = Z.of_nat NUM_BUFS ->
  usage (ring_buf_ctx s) = Z.of_nat k ->
  (k + length ixs <= NUM_BUFS)%nat -> Forall (fun i => (i < NUM_BUFS)%nat) ixs ->
  exists r s' tr,
    allocate_buffers env ixs s = Done r s' tr /\
    forall idxs, r = Some idxs ->
      Forall (fun idx => idx <> RING_BUFFER_NO_INDEX /\ 0 <= idx < Z.of_nat NUM_BUFS) idxs.
Proof.
  assert (HN : NUM_BUFS = 16%nat) by done.
  revert s k. induction ixs as [|i ixs IH]; intros s k Hbl Hrl Hwf Hcap Hus Hk Hixs.
  - eexists _, _, _. split; [done|]. intros idxs [= <-]. constructor.
  - apply Forall_cons in Hixs as [Hi Hixs]. cbn [length] in Hk.
    assert (Hroom : usage (ring_buf_ctx s) < capacity (ring_buf_ctx s)) by lia.
    pose proof (wf_head_lt _ Hwf Hroom) as Hhd.
    cbn [allocate_buffers].
    unfold alloc_usb_buffer, malloc, store_in_use, store_buffers, ring_put,
      store_ring_buf_data.
    unfold_monad. destruct (malloc_ok env i); zsimpl.
    2:{ eexists _, _, _. split; [done|]. by intros idxs [=]. }
    rewrite lookup_app_r, Nat.sub_diag by lia. zsimpl.
    destruct (decide (i < length (buffers s))%nat) as [_|]; [|lia]. zsimpl.
    rewrite put_room by done. zsimpl. rewrite Hrl.
    replace ((0 <=? head (ring_buf_ctx s)) && (head (ring_buf_ctx s) <? Z.of_nat NUM_BUFS))
      with true by (symmetry; apply andb_true_iff; split; cmp_cases; lia).
    zsimpl.
    match goal with
    | |- context [allocate_buffers env ixs ?st] =>
        destruct (IH st (S k)) as (r & s' & tr & Hrec & Hr)
    end; zsimpl.
    + by rewrite length_insert.
    + by rewrite length_insert.
    + pose proof (wf_put _ Hwf) as Hwf'. by rewrite put_room in Hwf' by done.
    + done.
    + lia.
    + lia.
    + done.
    + rewrite Hrec. eexists _, _, _. split; [done|].
      intros idxs Hidxs. destruct r as [r|]; [|done]. injection Hidxs as <-.
      constructor; [|by apply Hr].
      unfold RING_BUFFER_NO_INDEX, UINT32_MAX. lia.
Qed.

(** C10: [RING_BUFFER_Put] never returns [RING_BUFFER_NO_INDEX] where
    thread_read.c uses its result as an index.  When the running engine
    fetches a batch of completions, the loop over the batch runs without
    undefined behaviour and every put returns a slot of the 16-entry ring;
    and "Allocate buffers" runs without undefined behaviour whichever
    allocation fails, its puts returning 0 to 15 when all succeed. *)
Theorem C10_rx_put_in_bounds G s read_ret ret evs :
  Running G s -> kernel_ok G s (Ready_aio read_ret ret evs) ->
  0 <= read_ret -> 0 <= ret ->
  (exists s1 idxs s' tr,
     io_getevents ret evs s = Done ret s1 [Io_getevents ret] /\
     for_each handle_completion (take (Z.to_nat ret) evs) s1 = Done idxs s' tr /\
     length idxs = length (take (Z.to_nat ret) evs) /\
     Forall (fun idx => idx <> RING_BUFFER_NO_INDEX /\ 0 <= idx < Z.of_nat NUM_BUFS) idxs) /\
  (forall env size,
     exists r s' tr,
       allocate_buffers env (seq 0 NUM_BUFS) (pool_empty size) = Done r s' tr /\
       forall idxs, r = Some idxs ->
         idxs = Z.of_nat <$> seq 0 NUM_BUFS /\
         Forall (fun idx => idx <> RING_BUFFER_NO_INDEX /\ 0 <= idx < Z.of_nat NUM_BUFS) idxs).
Proof.
  intros Hrun Hk Hrr Hret. apply Running_pool_inv in Hrun as Hinv. split.
  - destruct (handle_eventfd_aio_ok G s read_ret ret evs Hinv Hk Hrr Hret)
      as (s1 & idxs & s' & Hget & Hloop & _ & Hlen & Hidxs & _).
    exists s1, idxs, s'. eexists. split; [done|]. split; [done|]. split; [done|].
    eapply Forall_impl; [exact Hidxs|]. intros idx Hidx.
    assert (HN : NUM_BUFS = 16%nat) by done.
    unfold RING_BUFFER_NO_INDEX, UINT32_MAX. cbn beta in *. lia.
  - intros env size.
    destruct (allocate_buffers_no_fault env (seq 0 NUM_BUFS) (pool_empty size) 0)
      as (r & s' & tr & Halloc & Hr); try done.
    + apply (wf_init (ring_buf_ctx zero_state) (Z.of_nat NUM_BUFS)).
      unfold is_uint32, UINT32_MAX, NUM_BUFS. lia.
    + apply Forall_forall. intros i Hi. apply elem_of_seq in Hi. lia.
    + exists r, s', tr. split; [done|]. intros idxs ->. split; [|by apply Hr].
      pose proof (allocate_buffers_ok _ _ _ _ _ _ Halloc) as Hok.
      rewrite (allocate_buffers_run env size Hok) in Halloc. by injection Halloc as <- _ _.
Qed.

Lemma C10_witness :
  (exists s1 idxs s' tr,
     io_getevents 2 example_events (refilled 3) = Done 2 s1 [Io_getevents 2] /\
     for_each handle_completion (take (Z.to_nat 2) example_events) s1 = Done idxs s' tr /\
     length idxs = length (take (Z.to_nat 2) example_events) /\
     Forall (fun idx => idx <> RING_BUFFER_NO_INDEX /\ 0 <= idx < Z.of_nat NUM_BUFS) idxs) /\
  (forall env size,
     exists r s' tr,
       allocate_buffers env (seq 0 NUM_BUFS) (pool_empty size) = Done r s' tr /\
       forall idxs, r = Some idxs ->
         idxs = Z.of_nat <$> seq 0 NUM_BUFS /\
         Forall (fun idx => idx <> RING_BUFFER_NO_INDEX /\ 0 <= idx < Z.of_nat NUM_BUFS) idxs).
Proof.
  apply (C10_rx_put_in_bounds false (refilled 3) 8 2 example_events).
  - apply refilled_Running. lia.
  - exact example_kernel_ok.
  - lia.
  - lia.
Defined.


(** *** What the main loop never does *)

(** Side conditions: the fields a handler writes are not those of
    [pool_alloc]. *)
Local Ltac alloc_side := intros ? [Hb Hh]; split; [exact Hb | exact Hh].

Lemma store_in_use_alloc buf v : preserves pool_alloc not_teardown (store_in_use buf v).
Proof.
  intros s a s' tr [Hb Hh] H. unfold store_in_use in H. unfold_monad.
  destruct buf as [p|]; [|done].
  destruct (heap s !! p) as [[b|]|] eqn:Hp; [|done..].
  injection H as _ <- <-. split; [|done]. split; [exact Hb|].
  intros q Hq. cbn. destruct (decide (q = p)) as [->|Hne].
  - rewrite list_lookup_insert_eq by (by eapply lookup_lt_Some). by eexists.
  - rewrite list_lookup_insert_ne by done. by apply Hh.
Qed.

Lemma handle_completion_alloc ev : preserves pool_alloc not_teardown (handle_completion ev).
Proof.
  unfold handle_completion, ring_put, store_ring_buf_data.
  preserves_tac; try apply store_in_use_alloc; alloc_side.
Qed.

Lemma handle_eventfd_aio_alloc read_ret ret evs :
  preserves pool_alloc not_teardown (handle_eventfd_aio read_ret ret evs).
Proof.
  unfold handle_eventfd_aio, io_getevents.
  preserves_tac; try alloc_side.
  apply preserves_for_each. apply handle_completion_alloc.
Qed.

Lemma handle_iio_buffer_alloc G nbytes submit_res :
  preserves pool_alloc not_teardown (handle_iio_buffer G nbytes submit_res).
Proof.
  unfold handle_iio_buffer, ring_get, load_ring_buf_data, io_submit.
  preserves_tac; try apply store_in_use_alloc; alloc_side.
Qed.

Lemma dispatch_alloc G r : preserves pool_alloc not_teardown (dispatch G r).
Proof.
  destruct r; cbn [dispatch].
  - unfold handle_eventfd_thread. preserves_tac. alloc_side.
  - apply handle_iio_buffer_alloc.
  - apply handle_eventfd_aio_alloc.
  - unfold handle_stats_timer. preserves_tac. alloc_side.
Qed.

Lemma run_handlers_alloc G rs : preserves pool_alloc not_teardown (run_handlers G rs).
Proof.
  induction rs as [|r rs IH]; cbn [run_handlers].
  - apply preserves_ret.
  - apply preserves_bind; [apply dispatch_alloc|]. intros x.
    destruct (x <? 0); [apply preserves_ret | exact IH].
Qed.

Lemma main_loop_alloc G sched : preserves pool_alloc not_teardown (main_loop G sched).
Proof.
  induction sched as [|w sched IH]; cbn [main_loop].
  - preserves_tac.
  - apply preserves_bind; [apply preserves_get|]. intros s.
    destruct (keep_running s); [|apply preserves_ret].
    apply preserves_bind.
    + destruct w; cbn [EPOLL_LOOP_Run]; [apply preserves_ret | apply run_handlers_alloc].
    + intros x. destruct (x <? 0); [apply preserves_ret | exact IH].
Qed.

(** *** The teardown *)

Lemma free_buffers_run n : forall i s,
  (forall j, (i <= j < i + n)%nat ->
     buffers s !! j = Some (Some j) /\ exists b, heap s !! j = Some (Some b)) ->
  exists s', free_buffers (seq i n) s = Done () s' (Free <$> seq i n) /\
             aio_pending s' = aio_pending s.
Proof.
  induction n as [|n IH]; intros i s Hs.
  - by exists s.
  - destruct (Hs i) as [Hbi [b Hhi]]; [lia|].
    cbn [seq free_buffers]. unfold free, store_buffers. unfold_monad.
    rewrite Hbi. zsimpl. rewrite Hhi. zsimpl.
    destruct (decide (i < length (buffers s))%nat) as [_|Hge];
      [|exfalso; apply Hge; by eapply lookup_lt_Some].
    zsimpl.
    match goal with
    | |- context [free_buffers (seq (S i) n) ?st] =>
        destruct (IH (S i) st) as (s' & Hrun & Hpend)
    end.
    { intros j Hj. zsimpl. rewrite !list_lookup_insert_ne by lia. apply Hs. lia. }
    rewrite Hrun. exists s'. split; [done|]. by rewrite Hpend.
Qed.

Lemma teardown_run G s :
  pool_alloc s ->
  exists s' tr,
    teardown G s = Done () s' tr /\
    teardown_calls tr
    = Io_destroy :: (Free <$> seq 0 NUM_BUFS) ++ [Iio_buffer_destroy; Iio_context_destroy] /\
    aio_pending s' = [].
Proof.
  intros [Hb Hh]. unfold teardown, io_destroy. unfold_monad.
  cbn -[free_buffers seq NUM_BUFS].
  destruct (free_buffers_run NUM_BUFS 0 (set_aio_pending [] s)) as (s' & Hrun & Hpend).
  { intros j Hj. split; [|apply Hh; lia].
    cbn [buffers set_aio_pending]. rewrite Hb, list_lookup_fmap, lookup_seq_lt by lia. done. }
  rewrite Hrun. destruct G; eexists _, _; (split; [reflexivity|]); by split.
Qed.



Lemma enable_channels_quiet channels found ixs :
  preserves (fun _ => True) not_teardown (enable_channels channels found ixs).
Proof.
  induction ixs as [|i ixs IH]; cbn [enable_channels]; preserves_tac; exact IH.
Qed.

Lemma allocate_buffers_quiet env ixs :
  preserves (fun _ => True) not_teardown (allocate_buffers env ixs).
Proof.
  induction ixs as [|i ixs IH]; cbn [allocate_buffers].
  - apply preserves_ret.
  - unfold alloc_usb_buffer, malloc, store_in_use, store_buffers, ring_put,
      store_ring_buf_data.
    preserves_tac; try done; exact IH.
Qed.

Lemma setup_quiet G args env :
  preserves (fun _ => True) not_teardown (setup G args env).
Proof.
  unfold setup, setup_stats.
  preserves_tac; try done;
    first [apply enable_channels_quiet | apply allocate_buffers_quiet].
Qed.

Lemma teardown_calls_quiet tr : Forall not_teardown tr -> teardown_calls tr = [].
Proof.
  unfold teardown_calls, not_teardown.
  induction 1 as [|c tr Hc _ IH]; [done|]. rewrite filter_cons, IH.
  case_decide; [congruence | done].
Qed.

Lemma teardown_calls_app tr1 tr2 :
  teardown_calls (tr1 ++ tr2) = teardown_calls tr1 ++ teardown_calls tr2.
Proof. apply filter_app. Qed.

Lemma pool_alloc_ready size : pool_alloc (pool_ready size).
Proof.
  split; [done|]. intros p Hp. cbn [heap pool_ready].
  rewrite lookup_replicate_2 by done. by eexists.
Qed.

(** The teardown calls of a whole run of the thread: none unless the
    main loop was left, and then those of the teardown, in its order. *)
Lemma rx_entrypoint_teardown G args env sched s0 k s tr :
  THREAD_READ_Entrypoint G args env sched s0 = Done k s tr ->
  teardown_calls tr
  = match k with
    | Exited =>
        Io_destroy :: (Free <$> seq 0 NUM_BUFS) ++ [Iio_buffer_destroy; Iio_context_destroy]
    | _ => []
    end.
Proof.
  intros H. unfold THREAD_READ_Entrypoint in H.
  apply modify_bind_inv in H.
  apply bind_Done_inv in H as (ok & s1 & tr1 & tr2 & Hsetup & H & ->).
  destruct (setup_quiet G args env _ _ _ _ I Hsetup) as [_ Hq1].
  rewrite teardown_calls_app, (teardown_calls_quiet _ Hq1). cbn [app].
  destruct ok; cbn [negb] in H.
  2:{ injection H as <- _ <-. done. }
  apply setup_ready in Hsetup as [-> _].
  apply modify_bind_inv in H.
  apply bind_Done_inv in H as (exited & s2 & tr3 & tr4 & Hloop & H & ->).
  destruct (main_loop_alloc G sched _ _ _ _ (pool_alloc_ready _) Hloop) as [Ha2 Hq3].
  rewrite teardown_calls_app, (teardown_calls_quiet _ Hq3). cbn [app].
  destruct exited; cbn [negb] in H.
  2:{ injection H as <- _ <-. done. }
  apply bind_Done_inv in H as ([] & s3 & tr5 & tr6 & Htear & H & ->).
  injection H as <- _ <-. rewrite app_nil_r.
  destruct (teardown_run G s2 Ha2) as (s3' & tr5' & Htear' & Hcalls & _).
  rewrite Htear in Htear'. by injection Htear' as _ ->.
Qed.


End RxFacts.

(** ** thread_write.c *)

Section TxFacts.
Import Tx.

Local Ltac zsimpl := cbn -[Z.eqb Z.leb Z.ltb Z.add Z.sub Z.of_nat Z.to_nat].

(** The head of the loop body only touches the overflow counter. *)
Lemma tx_push_completion_run G c p b s :
  heap s !! p = Some (Some b) -> data (event c) = Some p ->
  exists s1 tr1,
    push_completion G c s = Done () s1 tr1 /\
    heap s1 = heap s /\ buffers s1 = buffers s /\ aio_pending s1 = aio_pending s /\
    Forall (fun e => is_teardown e = false) tr1.
Proof.
  intros Hp Hdata. unfold push_completion, deref. unfold_monad. rewrite Hdata. zsimpl.
  destruct (usb_buffer_size s =? size_t (res (event c))); zsimpl.
  - rewrite Hp. zsimpl.
    destruct (push_ret c =? signed32 (usb_buffer_size s)); zsimpl;
      [|destruct G; zsimpl]; eexists _, _; (split; [done|]);
      repeat split; repeat constructor.
  - destruct (- ESHUTDOWN =? signed32 (res (event c))); zsimpl;
      eexists _, _; (split; [done|]); repeat split; repeat constructor.
Qed.

Lemma tx_handle_completion_spec G c p rem s :
  pool_inv (p :: rem) s -> data (event c) = Some p ->
  exists x s' tr,
    handle_completion G c s = Done x s' tr /\
    Forall (fun e => is_teardown e = false) tr /\
    (x = -1 \/
     x = 0 /\ submit_ret c = 1 /\ pool_inv rem s' /\ Io_submit [p] 1 ∈ tr).
Proof.
  intros [Hbufs Hheap Hperm] Hdata.
  assert (Hplt : (p < NUM_BUFS)%nat).
  { assert (p ∈ seq 0 NUM_BUFS) as Hin
      by (rewrite <- Hperm, elem_of_app, elem_of_cons; auto).
    apply elem_of_seq in Hin. lia. }
  assert (Hp : heap s !! p = Some (Some {| in_use := true |})).
  { rewrite Hheap. by apply lookup_replicate_2. }
  destruct (tx_push_completion_run G c p _ s Hp Hdata)
    as (s1 & tr1 & Hrun & Hh1 & Hb1 & Hp1 & Htr1).
  unfold handle_completion. rewrite (bind_run _ _ _ _ _ _ Hrun).
  unfold deref, io_submit, store_in_use, deref. unfold_monad. rewrite Hdata. zsimpl.
  rewrite Hh1, Hp. zsimpl.
  destruct (Z.eqb_spec 1 (submit_ret c)) as [Heq|Hne]; zsimpl.
  - eexists _, _, _. split; [done|]. split.
    { apply Forall_app. split; [done|]. repeat constructor. }
    right. split; [done|]. split; [done|]. split.
    + split; cbn [buffers heap aio_pending set_aio_pending]; [congruence | congruence |].
      rewrite Hp1, <- Heq. cbn [Z.to_nat Pos.to_nat Pos.iter_op Nat.add take]. rewrite <- Hperm, <- app_assoc.
      apply Permutation_app_head. cbn. apply Permutation_middle.
    + rewrite <- Heq. rewrite elem_of_app. right. apply elem_of_cons. by left.
  - destruct (lookup_lt_is_Some_2 (heap s) p) as [o Ho];
      [rewrite Hheap, length_replicate; lia|].
    rewrite Hh1, Hp. zsimpl.
    eexists _, _, _. split; [done|]. split; [|by left].
    apply Forall_app. split; [done|]. repeat constructor.
Qed.

Lemma tx_handle_completions_spec G cs ps s :
  data <$> (event <$> cs) = Some <$> ps -> pool_inv ps s ->
  exists x s' tr,
    handle_completions G cs s = Done x s' tr /\
    Forall (fun e => is_teardown e = false) tr /\
    (x = -1 \/
     x = 0 /\ pool_inv [] s' /\ Forall (fun p => Io_submit [p] 1 ∈ tr) ps /\
     Forall (fun c => submit_ret c = 1) cs).
Proof.
  revert ps s. induction cs as [|c cs IH]; intros ps s Hdata Hinv.
  - destruct ps; [|done]. eexists _, _, _. split; [done|]. split; [constructor|].
    right. split; [done|]. split; [done|]. split; constructor.
  - destruct ps as [|p ps]; [done|]. cbn in Hdata. injection Hdata as Hc Hdata.
    destruct (tx_handle_completion_spec G c p ps s Hinv Hc)
      as (x & s1 & tr1 & Hrun & Htr1 & Hx).
    cbn [handle_completions]. rewrite (bind_run _ _ _ _ _ _ Hrun).
    destruct Hx as [->|(-> & Hsub & Hinv1 & Hin1)].
    + cbn -[handle_completions]. eexists _, _, _. split; [done|].
      rewrite app_nil_r. split; [done|]. by left.
    + cbn -[handle_completions]. destruct (IH ps s1 Hdata Hinv1) as (x & s' & tr & Hrun' & Htr & Hx).
      rewrite Hrun'. eexists _, _, _. split; [done|]. split; [by apply Forall_app|].
      destruct Hx as [->|(-> & Hinv' & Hall & Hsubs)]; [by left|right].
      split; [done|]. split; [done|]. split; [|by constructor].
      constructor.
      * apply elem_of_app. by left.
      * eapply Forall_impl; [exact Hall|]. intros q Hq. apply elem_of_app. by right.
Qed.

Lemma tx_pool_inv_getevents s ps :
  pool_inv [] s -> NoDup ps -> Forall (fun p => p ∈ aio_pending s) ps ->
  pool_inv ps (set_aio_pending (list_difference (aio_pending s) ps) s).
Proof.
  intros [Hbufs Hheap Hperm] Hnd Hin. rewrite app_nil_r in Hperm.
  assert (Hpnd : NoDup (aio_pending s)) by (rewrite Hperm; apply NoDup_seq).
  split; cbn; [done | done |].
  by rewrite <- (list_difference_Permutation _ _ Hpnd Hnd Hin).
Qed.

Lemma tx_pool_inv_ext rem s s' :
  buffers s' = buffers s -> heap s' = heap s -> aio_pending s' = aio_pending s ->
  pool_inv rem s -> pool_inv rem s'.
Proof. intros H1 H2 H3 [? ? ?]. split; congruence. Qed.

Lemma tx_data_completed (pending : list nat) (cs : list completion) :
  Forall (fun c => exists p, data (event c) = Some p /\ p ∈ pending) cs ->
  data <$> (event <$> cs) = Some <$> completed (event <$> cs) /\
  Forall (fun p => p ∈ pending) (completed (event <$> cs)).
Proof.
  induction 1 as [|c cs (p & He & Hp) _ [IH1 IH2]]; [done|].
  unfold completed in *. cbn. rewrite He. cbn. split; [by f_equal | by constructor].
Qed.

(** What a handler does to a running engine: if it does not fail, every
    buffer is in flight again, and the completion handler has submitted
    every buffer of its batch. *)
Lemma tx_dispatch_spec G s r :
  pool_inv [] s -> kernel_ok G s r ->
  exists x s' tr,
    dispatch G r s = Done x s' tr /\
    Forall (fun e => is_teardown e = false) tr /\
    (0 <= x ->
     pool_inv [] s' /\
     match r with
     | Ready_aio _ ret events =>
         Forall (fun p => Io_submit [p] 1 ∈ tr)
                (completed (event <$> take (Z.to_nat ret) events))
     | _ => True
     end).
Proof.
  intros Hinv Hk. destruct r as [|read_ret ret evs|read_ret]; cbn [dispatch].
  - eexists _, _, _. split; [done|]. split; [constructor|]. intros _.
    split; [|done]. by eapply tx_pool_inv_ext; [..|exact Hinv].
  - unfold handle_eventfd_aio, io_getevents. unfold_monad. zsimpl.
    destruct (Z.ltb_spec read_ret 0).
    { eexists _, _, _. split; [done|]. split; [repeat constructor|]. lia. }
    zsimpl. destruct (Z.ltb_spec ret 0).
    { eexists _, _, _. split; [done|]. split; [repeat constructor|]. lia. }
    cbn in Hk. destruct Hk as [?|(Hle & Hnd & Hall)]; [lia|].
    destruct (tx_data_completed _ _ Hall) as [Hdata Hin]. rewrite Hdata in Hnd.
    apply NoDup_fmap_1 in Hnd.
    rewrite <- fmap_take.
    pose proof (tx_pool_inv_getevents s _ Hinv Hnd Hin) as Hinv1.
    destruct (tx_handle_completions_spec G _ _ _ Hdata Hinv1)
      as (x & s' & tr & Hrun & Htr & Hx).
    rewrite Hrun. eexists _, _, _. split; [done|].
    split; [repeat constructor; done|].
    intros Hx0. destruct Hx as [->|(-> & Hinv' & Hsub & _)]; [lia|].
    split; [done|]. eapply Forall_impl; [exact Hsub|]. intros p Hp.
    apply elem_of_cons. right. apply elem_of_cons. by right.
  - unfold handle_stats_timer. unfold_monad. zsimpl.
    destruct (read_ret <? 0); zsimpl.
    + eexists _, _, _. split; [done|]. split; [repeat constructor|]. done.
    + destruct (0 <? overflows s); zsimpl; eexists _, _, _; (split; [done|]);
        (split; [repeat constructor|]); intros _; (split; [|done]);
        by eapply tx_pool_inv_ext; [..|exact Hinv].
Qed.


(** *** The set-up *)

Lemma tx_enable_channels_state channels found ixs s b s' tr :
  enable_channels channels found ixs s = Done b s' tr -> s' = s.
Proof.
  revert tr. induction ixs as [|i ixs IH]; intros tr; cbn [enable_channels].
  - by intros [= _ -> _].
  - destruct (negb (Z.land channels (Z.shiftl 1 (Z.of_nat i)) =? 0)); [|by apply IH].
    destruct (negb (found i)).
    + unfold_monad. by intros [= _ -> _].
    + intros H. apply emit_bind_inv in H as (? & H & _). by apply IH in H.
Qed.

Lemma tx_setup_stats_state env s b s' tr :
  setup_stats env s = Done b s' tr -> s' = s.
Proof.
  unfold setup_stats. unfold_monad.
  destruct (timerfd_create_ret env <? 0); [by intros [= _ -> _]|].
  destruct (timerfd_settime_ret env <? 0); [by intros [= _ -> _]|].
  destruct (epoll_ctl_timer_ret env <? 0); by intros [= _ -> _].
Qed.

Lemma tx_allocate_buffers_ext env env' ixs s :
  Forall (fun i => malloc_ok env i = malloc_ok env' i) ixs ->
  allocate_buffers env ixs s = allocate_buffers env' ixs s.
Proof.
  intros Hall. revert s. induction Hall as [|i ixs Hi _ IH]; intros s; [done|].
  cbn [allocate_buffers]. rewrite Hi. unfold mbind, M_bind.
  destruct (alloc_usb_buffer (malloc_ok env' i) s) as [|[p|] s1 tr1]; [done| |done].
  destruct (store_buffers i (Some p) s1) as [|[] s2 tr2]; [done|].
  destruct (store_in_use (Some p) true s2) as [|[] s3 tr3]; [done|].
  by rewrite IH.
Qed.

Lemma tx_allocate_buffers_ok env ixs s r s' tr :
  allocate_buffers env ixs s = Done (Some r) s' tr ->
  Forall (fun i => malloc_ok env i = true) ixs.
Proof.
  revert s r s' tr. induction ixs as [|i ixs IH]; intros s r s' tr H; [constructor|].
  cbn [allocate_buffers] in H.
  apply bind_Done_inv in H as ([p|] & s1 & tr1 & tr2 & Hm & H & _).
  2:{ by injection H. }
  constructor.
  - destruct (malloc_ok env i) eqn:Hok; [done|].
    unfold alloc_usb_buffer, malloc in Hm. unfold_monad. cbn in Hm. done.
  - apply bind_Done_inv in H as (? & s2 & ? & ? & _ & H & _).
    apply bind_Done_inv in H as (? & s3 & ? & ? & _ & H & _).
    apply bind_Done_inv in H as ([r'|] & s5 & ? & ? & Hrec & H & _); [|by injection H].
    by eapply IH.
Qed.

Lemma tx_allocate_buffers_run env size :
  Forall (fun i => malloc_ok env i = true) (seq 0 NUM_BUFS) ->
  allocate_buffers env (seq 0 NUM_BUFS) (set_usb_buffer_size size zero_state)
  = Done (Some (seq 0 NUM_BUFS))
         (set_aio_pending [] (set_keep_running false (pool_ready size)))
         (replicate NUM_BUFS (Malloc true)).
Proof.
  intros Hall.
  rewrite (tx_allocate_buffers_ext env example_env) by done.
  vm_compute. reflexivity.
Qed.

(** A set-up that reaches the main loop leaves every buffer allocated, in
    use and submitted. *)
Lemma tx_setup_ready G args env s tr :
  setup G args env zero_state = Done true s tr ->
  s = set_keep_running false
        (pool_ready (size_t (iio_buffer_step env * iio_buffer_size args))).
Proof.
  intros H. unfold setup in H.
  set (size := size_t (iio_buffer_step env * iio_buffer_size args)) in *.
  apply emit_bind_inv in H as (? & H & _).
  destruct (epoll_create1_ret env <? 0); [by apply emit_ret_inv in H as [? _]|].
  apply emit_bind_inv in H as (? & H & _).
  destruct (epoll_ctl_quit_ret env <? 0); [by apply emit_ret_inv in H as [? _]|].
  apply emit_bind_inv in H as (? & H & _).
  destruct (negb (iio_ctx_found env)); [by apply emit_ret_inv in H as [? _]|].
  apply emit_bind_inv in H as (? & H & _).
  destruct (negb (iio_dev_found env)); [by apply emit_ret_inv in H as [? _]|].
  apply emit_bind_inv in H as (? & H & _).
  apply bind_Done_inv in H as (en & s1 & ? & ? & Hen & H & _).
  apply tx_enable_channels_state in Hen as ->.
  destruct (negb en); [by injection H|].
  apply emit_bind_inv in H as (? & H & _).
  destruct (negb (iio_buffer_created env)); [by apply emit_ret_inv in H as [? _]|].
  apply modify_bind_inv in H.
  apply emit_bind_inv in H as (? & H & _).
  destruct (io_setup_ret env <? 0); [by apply emit_ret_inv in H as [? _]|].
  apply emit_bind_inv in H as (? & H & _).
  destruct (eventfd_ret env <? 0); [by apply emit_ret_inv in H as [? _]|].
  apply emit_bind_inv in H as (? & H & _).
  destruct (epoll_ctl_aio_ret env <? 0); [by apply emit_ret_inv in H as [? _]|].
  apply bind_Done_inv in H as (r & s2 & tr2 & ? & Halloc & H & _).
  destruct r as [bufs|]; [|by injection H].
  pose proof (tx_allocate_buffers_ok _ _ _ _ _ _ Halloc) as Hok.
  rewrite (tx_allocate_buffers_run env size Hok) in Halloc.
  injection Halloc as <- <- <-.
  apply bind_Done_inv in H as (st & s3 & ? & ? & Hst & H & _).
  assert (s3 = set_aio_pending [] (set_keep_running false (pool_ready size))) as ->.
  { destruct G; [by apply tx_setup_stats_state in Hst | by injection Hst]. }
  destruct (negb st); [by injection H|].
  apply bind_Done_inv in H as (res & s4 & ? & ? & Hres & H & _).
  unfold io_submit in Hres. apply emit_bind_inv in Hres as (? & Hres & _).
  apply modify_bind_inv in Hres. injection Hres as <- <- _.
  destruct (Z.eqb_spec (Z.of_nat NUM_BUFS) (io_submit_ret env)) as [Heq|Hne]; cbn [negb] in H.
  2:{ by apply emit_ret_inv in H as [? _]. }
  injection H as <- _. rewrite <- Heq. reflexivity.
Qed.

Lemma tx_pool_inv_ready size : pool_inv [] (pool_ready size).
Proof. split; [done | done |]. by rewrite app_nil_r. Qed.

(** *** The running engine *)

Lemma tx_Running_pool_inv G s : Running G s -> pool_inv [] s.
Proof.
  induction 1 as [args env s tr Hsetup | s r x s' tr _ IH Hk Hrun Hx].
  - apply tx_setup_ready in Hsetup as ->.
    by eapply tx_pool_inv_ext; [..|apply tx_pool_inv_ready].
  - destruct (tx_dispatch_spec G s r IH Hk) as (x' & s'' & tr' & Hrun' & _ & Hinv).
    rewrite Hrun in Hrun'. injection Hrun' as <- <- <-. by apply Hinv.
Qed.

Lemma tx_example_Running G : Running G (pool_ready 4096).
Proof.
  apply (Running_enter G example_args example_env
           (set_keep_running false (pool_ready 4096))
           (trace_of (setup G example_args example_env zero_state))).
  destruct G; vm_compute; reflexivity.
Qed.

(** *** What the main loop never does *)

Local Ltac alloc_side := intros ? [Hb Hh]; split; [exact Hb | exact Hh].

Lemma tx_deref_alloc buf : preserves pool_alloc not_teardown (deref buf).
Proof. unfold deref. preserves_tac. Qed.

Lemma tx_store_in_use_alloc buf v : preserves pool_alloc not_teardown (store_in_use buf v).
Proof.
  intros s a s' tr [Hb Hh] H. unfold store_in_use, deref in H. unfold_monad.
  destruct buf as [p|]; [|done].
  destruct (heap s !! p) as [[b|]|] eqn:Hp; [|done..].
  injection H as _ <- <-. split; [|done]. split; [exact Hb|].
  intros q Hq. cbn. destruct (decide (q = p)) as [->|Hne].
  - rewrite list_lookup_insert_eq by (by eapply lookup_lt_Some). by eexists.
  - rewrite list_lookup_insert_ne by done. by apply Hh.
Qed.

Lemma tx_handle_completion_alloc G c :
  preserves pool_alloc not_teardown (handle_completion G c).
Proof.
  unfold handle_completion, push_completion, io_submit.
  preserves_tac;
    first [apply tx_deref_alloc | apply tx_store_in_use_alloc | alloc_side].
Qed.

Lemma tx_handle_completions_alloc G cs :
  preserves pool_alloc not_teardown (handle_completions G cs).
Proof.
  induction cs as [|c cs IH]; cbn [handle_completions].
  - apply preserves_ret.
  - apply preserves_bind; [apply tx_handle_completion_alloc|]. intros x.
    destruct (x <? 0); [apply preserves_ret | exact IH].
Qed.

Lemma tx_dispatch_alloc G r : preserves pool_alloc not_teardown (dispatch G r).
Proof.
  destruct r; cbn [dispatch].
  - unfold handle_eventfd_thread. preserves_tac. alloc_side.
  - unfold handle_eventfd_aio, io_getevents.
    preserves_tac; first [apply tx_handle_completions_alloc | alloc_side].
  - unfold handle_stats_timer. preserves_tac. alloc_side.
Qed.

Lemma tx_run_handlers_alloc G rs : preserves pool_alloc not_teardown (run_handlers G rs).
Proof.
  induction rs as [|r rs IH]; cbn [run_handlers].
  - apply preserves_ret.
  - apply preserves_bind; [apply tx_dispatch_alloc|]. intros x.
    destruct (x <? 0); [apply preserves_ret | exact IH].
Qed.

Lemma tx_main_loop_alloc G sched : preserves pool_alloc not_teardown (main_loop G sched).
Proof.
  induction sched as [|w sched IH]; cbn [main_loop].
  - preserves_tac.
  - apply preserves_bind; [apply preserves_get|]. intros s.
    destruct (keep_running s); [|apply preserves_ret].
    apply preserves_bind.
    + destruct w; cbn [EPOLL_LOOP_Run]; [apply preserves_ret | apply tx_run_handlers_alloc].
    + intros x. destruct (x <? 0); [apply preserves_ret | exact IH].
Qed.

Lemma tx_enable_channels_quiet channels found ixs :
  preserves (fun _ => True) not_teardown (enable_channels channels found ixs).
Proof.
  induction ixs as [|i ixs IH]; cbn [enable_channels]; preserves_tac; exact IH.
Qed.

Lemma tx_allocate_buffers_quiet env ixs :
  preserves (fun _ => True) not_teardown (allocate_buffers env ixs).
Proof.
  induction ixs as [|i ixs IH]; cbn [allocate_buffers].
  - apply preserves_ret.
  - unfold alloc_usb_buffer, malloc, store_in_use, deref, store_buffers.
    preserves_tac; try done; exact IH.
Qed.

Lemma tx_setup_quiet G args env :
  preserves (fun _ => True) not_teardown (setup G args env).
Proof.
  unfold setup, setup_stats, io_submit.
  preserves_tac; try done;
    first [apply tx_enable_channels_quiet | apply tx_allocate_buffers_quiet].
Qed.

(** *** The teardown *)

Lemma tx_free_buffers_run n : forall i s,
  (forall j, (i <= j < i + n)%nat ->
     buffers s !! j = Some (Some j) /\ exists b, heap s !! j = Some (Some b)) ->
  exists s', free_buffers (seq i n) s = Done () s' (Free <$> seq i n) /\
             aio_pending s' = aio_pending s.
Proof.
  induction n as [|n IH]; intros i s Hs.
  - by exists s.
  - destruct (Hs i) as [Hbi [b Hhi]]; [lia|].
    cbn [seq free_buffers]. unfold free, store_buffers. unfold_monad.
    rewrite Hbi. zsimpl. rewrite Hhi. zsimpl.
    destruct (decide (i < length (buffers s))%nat) as [_|Hge];
      [|exfalso; apply Hge; by eapply lookup_lt_Some].
    zsimpl.
    match goal with
    | |- context [free_buffers (seq (S i) n) ?st] =>
        destruct (IH (S i) st) as (s' & Hrun & Hpend)
    end.
    { intros j Hj. zsimpl. rewrite !list_lookup_insert_ne by lia. apply Hs. lia. }
    rewrite Hrun. exists s'. split; [done|]. by rewrite Hpend.
Qed.

Lemma tx_teardown_run G s :
  pool_alloc s ->
  exists s' tr,
    teardown G s = Done () s' tr /\
    teardown_calls tr
    = Io_destroy :: (Free <$> seq 0 NUM_BUFS) ++ [Iio_buffer_destroy; Iio_context_destroy] /\
    aio_pending s' = [].
Proof.
  intros [Hb Hh]. unfold teardown, io_destroy. unfold_monad.
  cbn -[free_buffers seq NUM_BUFS].
  destruct (tx_free_buffers_run NUM_BUFS 0 (set_aio_pending [] s)) as (s' & Hrun & Hpend).
  { intros j Hj. split; [|apply Hh; lia].
    cbn [buffers set_aio_pending]. rewrite Hb, list_lookup_fmap, lookup_seq_lt by lia. done. }
  rewrite Hrun. destruct G; eexists _, _; (split; [reflexivity|]); by split.
Qed.

Lemma tx_pool_alloc_ready size : pool_alloc (pool_ready size).
Proof.
  split; [done|]. intros p Hp. cbn [heap pool_ready].
  rewrite lookup_replicate_2 by done. by eexists.
Qed.

Lemma tx_entrypoint_teardown G args env sched s0 k s tr :
  THREAD_WRITE_Entrypoint G args env sched s0 = Done k s tr ->
  teardown_calls tr
  = match k with
    | Exited =>
        Io_destroy :: (Free <$> seq 0 NUM_BUFS) ++ [Iio_buffer_destroy; Iio_context_destroy]
    | _ => []
    end.
Proof.
  intros H. unfold THREAD_WRITE_Entrypoint in H.
  apply modify_bind_inv in H.
  apply bind_Done_inv in H as (ok & s1 & tr1 & tr2 & Hsetup & H & ->).
  destruct (tx_setup_quiet G args env _ _ _ _ I Hsetup) as [_ Hq1].
  rewrite teardown_calls_app, (teardown_calls_quiet _ Hq1). cbn [app].
  destruct ok; cbn [negb] in H.
  2:{ injection H as <- _ <-. done. }
  apply tx_setup_ready in Hsetup as ->.
  apply modify_bind_inv in H.
  apply bind_Done_inv in H as (exited & s2 & tr3 & tr4 & Hloop & H & ->).
  destruct (tx_main_loop_alloc G sched _ _ _ _ (tx_pool_alloc_ready _) Hloop) as [Ha2 Hq3].
  rewrite teardown_calls_app, (teardown_calls_quiet _ Hq3). cbn [app].
  destruct exited; cbn [negb] in H.
  2:{ injection H as <- _ <-. done. }
  apply bind_Done_inv in H as ([] & s3 & tr5 & tr6 & Htear & H & ->).
  injection H as <- _ <-. rewrite app_nil_r.
  destruct (tx_teardown_run G s2 Ha2) as (s3' & tr5' & Htear' & Hcalls & _).
  rewrite Htear in Htear'. by injection Htear' as _ ->.
Qed.


End TxFacts.

(** ** The shutdown of both engines *)

(** C3: in every run of an engine thread that leaves its main loop, the
    teardown calls are, in this order: [io_destroy], the [free] of each of
    the 16 buffers, [iio_buffer_destroy], [iio_context_destroy]; and a run
    that does not leave the main loop, or does not reach it, performs none
    of them. *)
Theorem C3_teardown_order G :
  (forall args env sched s0 k s tr,
     Rx.THREAD_READ_Entrypoint G args env sched s0 = Done k s tr ->
     teardown_calls tr = match k with Rx.Exited => shutdown_order | _ => [] end) /\
  (forall args env sched s0 k s tr,
     Tx.THREAD_WRITE_Entrypoint G args env sched s0 = Done k s tr ->
     teardown_calls tr = match k with Tx.Exited => shutdown_order | _ => [] end).
Proof.
  split; intros args env sched s0 k s tr H.
  - exact (rx_entrypoint_teardown G args env sched s0 k s tr H).
  - exact (tx_entrypoint_teardown G args env sched s0 k s tr H).
Qed.

Lemma C3_witness :
  teardown_calls
    (trace_of
       (Rx.THREAD_READ_Entrypoint false Rx.example_args Rx.example_env
          [Rx.Epoll_ready [Rx.Ready_iio 4096 1; Rx.Ready_quit]] Rx.zero_state))
  = shutdown_order.
Proof.
  pose (o := Rx.THREAD_READ_Entrypoint false Rx.example_args Rx.example_env
               [Rx.Epoll_ready [Rx.Ready_iio 4096 1; Rx.Ready_quit]] Rx.zero_state).
  apply (proj1 (C3_teardown_order false) Rx.example_args Rx.example_env
           [Rx.Epoll_ready [Rx.Ready_iio 4096 1; Rx.Ready_quit]] Rx.zero_state Rx.Exited
           (match o with Done _ s _ => s | Fault => Rx.zero_state end) (trace_of o)).
  vm_compute. reflexivity.
Defined.

(** ** main.c *)

Section MainFacts.
Import Main.
Local Ltac zsimpl := cbn -[Z.eqb Z.leb Z.ltb Z.add Z.sub Z.of_nat Z.to_nat].

(** *** The table of threads *)

Lemma engines_of_join tx t (l : list (nat * engine)) :
  filter (fun te => engine_tx te.2 = tx) (filter (fun te => te.1 <> t) l)
  = filter (fun te => te.1 <> t) (filter (fun te => engine_tx te.2 = tx) l).
Proof.
  induction l as [|te l IH]; [done|].
  rewrite !filter_cons. repeat case_decide; rewrite ?filter_cons; repeat case_decide;
    try done; by rewrite IH.
Qed.

Lemma filter_all {A} (P : A -> Prop) `{forall x, Decision (P x)} (l : list A) :
  Forall P l -> filter P l = l.
Proof.
  induction 1 as [|x l Hx _ IH]; [done|]. rewrite filter_cons, IH. by case_decide.
Qed.

(** Joining the one running thread of a direction leaves no engine of
    that direction, and the engines of the other direction as they are. *)
Lemma join_own tx t (l : list (nat * engine)) :
  fst <$> filter (fun te => engine_tx te.2 = tx) l = [t] ->
  filter (fun te => engine_tx te.2 = tx) (filter (fun te => te.1 <> t) l) = [].
Proof.
  intros Hone. rewrite engines_of_join.
  destruct (filter (fun te => engine_tx te.2 = tx) l) as [|[t' e] [|? ?]]; try done.
  cbn in Hone. injection Hone as ->. rewrite filter_cons. cbn. by case_decide.
Qed.

Lemma join_other tx t (l : list (nat * engine)) :
  functional l ->
  fst <$> filter (fun te => engine_tx te.2 = tx) l = [t] ->
  filter (fun te => engine_tx te.2 = negb tx) (filter (fun te => te.1 <> t) l)
  = filter (fun te => engine_tx te.2 = negb tx) l.
Proof.
  intros Hfun Hone. rewrite engines_of_join. apply filter_all.
  apply Forall_forall. intros [t' e'] Hin. apply list_elem_of_filter in Hin as [Htx Hin].
  cbn in *. intros ->.
  assert (Hmem : t ∈ fst <$> filter (fun te => engine_tx te.2 = tx) l)
    by (rewrite Hone; apply elem_of_cons; by left).
  apply list_elem_of_fmap in Hmem as ([t'' e] & Ht & He). cbn in Ht. subst t''.
  apply list_elem_of_filter in He as [Htx' He]. cbn in Htx'.
  rewrite (Hfun t e e' He Hin) in Htx'. rewrite Htx' in Htx. by destruct tx.
Qed.

Lemma functional_filter (P : nat * engine -> Prop) `{forall x, Decision (P x)} l :
  functional l -> functional (filter P l).
Proof.
  intros Hfun t e e' H1 H2. apply list_elem_of_filter in H1 as [_ H1].
  apply list_elem_of_filter in H2 as [_ H2]. by eapply Hfun.
Qed.

Lemma functional_snoc l c e :
  functional l -> Forall (fun te => (te.1 < c)%nat) l -> functional (l ++ [(c, e)]).
Proof.
  intros Hfun Hlt t e1 e2 H1 H2. rewrite Forall_forall in Hlt.
  apply elem_of_app in H1 as [H1|H1]; apply elem_of_app in H2 as [H2|H2].
  - by eapply Hfun.
  - apply list_elem_of_singleton in H2. injection H2 as -> ->.
    specialize (Hlt _ H1). cbn in Hlt. lia.
  - apply list_elem_of_singleton in H1. injection H1 as -> ->.
    specialize (Hlt _ H2). cbn in Hlt. lia.
  - apply list_elem_of_singleton in H1. apply list_elem_of_singleton in H2. congruence.
Qed.

Lemma Forall_filter_1 {A} (P Q : A -> Prop) `{forall x, Decision (P x)} (l : list A) :
  Forall Q l -> Forall Q (filter P l).
Proof.
  rewrite !Forall_forall. intros HQ x Hx. apply list_elem_of_filter in Hx as [_ Hx]. auto.
Qed.

Lemma session_zero : session_ok zero_state.
Proof.
  split; cbn; [done | done | constructor |].
  intros t e e' Hin. by apply elem_of_nil in Hin.
Qed.

(** *** stop_thread and start_thread *)

Lemma stop_thread_idle tx env s :
  started tx s = false -> stop_thread tx env s = Done true s [].
Proof.
  intros Hst. unfold stop_thread. unfold_monad.
  destruct tx; cbn in Hst; rewrite Hst; cbn; [done|].
  destruct (write_started s); done.
Qed.

(** C7: STOP is idempotent.  [stop_thread] for a direction that is not
    started returns true without a call and without a change of the state,
    whatever the calls would have returned; and a STOP request for such a
    direction is handled by the two reads of ep0 alone, returns 0 and
    leaves the state as it is. *)
Theorem C7_stop_not_running_is_noop tx s :
  started tx s = false ->
  (forall env, stop_thread tx env s = Done true s []) /\
  (forall env, stop_request tx env ->
     handle_ep0 env s = Done 0 s [Read fd_ep0; Read fd_ep0]).
Proof.
  intros Hst. split; [intros; by apply stop_thread_idle|].
  intros env [Hev Hty Hout Hreq Htgt Hcnt].
  unfold handle_ep0. unfold_monad. rewrite Hev, Hty, Hout, Hreq, Htgt.
  cbn -[stop_thread Z.ltb]. destruct (Z.ltb_spec (read_count env) 0); [lia|].
  cbn -[stop_thread]. by rewrite stop_thread_idle.
Qed.

Lemma C7_witness :
  (forall env, stop_thread false env zero_state = Done true zero_state []) /\
  (forall env, stop_request false env ->
     handle_ep0 env zero_state = Done 0 zero_state [Read fd_ep0; Read fd_ep0]).
Proof. apply (C7_stop_not_running_is_noop false zero_state). reflexivity. Defined.

(** C9: a START request whose body is not 8 bytes long changes nothing.
    [handle_ep0] reads the event and the body, writes "Bad start request"
    (or, when the read itself failed, reports that and fails), and leaves
    the state as it is: no call to stop or start a thread, the same
    arguments, the same flags. *)
Theorem C9_malformed_start_rejected env s :
  event_read_ret env = sizeof_usb_functionfs_event ->
  type (event env) = FUNCTIONFS_SETUP ->
  Z.land (bRequestType (setup (event env))) USB_DIR_IN = 0 ->
  bRequest (setup (event env)) = SDR_USB_GADGET_COMMAND_START ->
  read_count env <> sizeof_cmdStartRequest_t ->
  handle_ep0 env s
  = if read_count env <? 0
    then Done (-1) s [Read fd_ep0; Read fd_ep0; Perror "Failed to read packet from host"]
    else Done 0 s [Read fd_ep0; Read fd_ep0;
                   Printf "Bad start request, incorrect data size" []].
Proof.
  intros Hev Hty Hout Hreq Hcnt.
  unfold handle_ep0. unfold_monad. rewrite Hev, Hty, Hout, Hreq. zsimpl.
  destruct (read_count env <? 0); zsimpl; [done|].
  destruct (Z.eqb_spec (read_count env) sizeof_cmdStartRequest_t); [done|]. done.
Qed.

Lemma C9_witness :
  handle_ep0 (request SDR_USB_GADGET_COMMAND_START 0 [3; 0; 0; 0; 0; 4; 0] stop_ok) zero_state
  = Done 0 zero_state [Read fd_ep0; Read fd_ep0;
                       Printf "Bad start request, incorrect data size" []].
Proof.
  apply (C9_malformed_start_rejected
           (request SDR_USB_GADGET_COMMAND_START 0 [3; 0; 0; 0; 0; 4; 0] stop_ok)
           zero_state); try reflexivity.
  cbn. unfold sizeof_cmdStartRequest_t. lia.
Defined.


Lemma engines_of_snoc tx l c e :
  filter (fun te : nat * engine => engine_tx te.2 = tx) (l ++ [(c, e)])
  = filter (fun te => engine_tx te.2 = tx) l ++ (if decide (engine_tx e = tx) then [(c, e)] else []).
Proof. rewrite filter_app, filter_cons. cbn. by case_decide. Qed.

(** A stop of a started direction whose calls succeed: signal, join,
    drain, and the flag cleared; the other direction is not touched. *)
Lemma stop_thread_running tx env s :
  session_ok s -> started tx s = true ->
  0 <= eventfd_write_ret env -> 0 <= eventfd_read_ret env ->
  exists s',
    stop_thread tx env s
    = Done true s' [Write (thread_event_fd tx); Pthread_join tx; Read (thread_event_fd tx)] /\
    started tx s' = false /\ engines_of tx s' = [] /\
    engines_of (negb tx) s' = engines_of (negb tx) s /\
    started (negb tx) s' = started (negb tx) s /\
    thread_of (negb tx) s' = thread_of (negb tx) s /\
    read_args s' = read_args s /\ write_args s' = write_args s /\
    config_enabled s' = config_enabled s /\
    session_ok s'.
Proof.
  intros [Hr Hw Hc Hf] Hst Hwr Hrd.
  unfold stop_thread, pthread_join. unfold_monad.
  destruct tx; cbn in Hst; rewrite Hst in *; zsimpl;
    [|replace (true && write_started s) with (write_started s) by done;
      destruct (write_started s) eqn:Hws; zsimpl].
  all: destruct (Z.ltb_spec (eventfd_write_ret env) 0); [lia|]; zsimpl.
  all: destruct (Z.ltb_spec (eventfd_read_ret env) 0); [lia|]; zsimpl.
  all: eexists; (split; [done|]).
  all: unfold engines_of, running_threads, engines_of in *; zsimpl.
  1: pose proof (join_own true _ _ Hw) as Hown;
     pose proof (join_other true _ _ Hf Hw) as Hoth.
  2,3: pose proof (join_own false _ _ Hr) as Hown;
       pose proof (join_other false _ _ Hf Hr) as Hoth.
  all: cbn [negb] in Hoth.
  all: try rewrite Hws in Hw.
  all: repeat split; try done;
    first [ by apply Forall_filter_1 | by apply functional_filter
          | unfold running_threads, engines_of; zsimpl;
            first [by rewrite Hoth | by rewrite Hown | by rewrite Hoth, Hw, Hws] ].
Qed.



(** A start of a direction that is not started, whose thread is created:
    one new thread with the stored arguments; the other direction is not
    touched.  The [sigprocmask] that restores the mask comes after the
    thread has been created: when it fails the function reports it and
    returns false, with the thread running. *)
Lemma start_thread_fresh tx env s :
  session_ok s -> started tx s = false ->
  0 <= sigprocmask_block_ret env -> pthread_create_ret env = 0 ->
  exists s',
    start_thread tx env s
    = Done (negb (sigprocmask_restore_ret env <? 0)) s'
        ([Sigprocmask; Pthread_create tx (args_of tx s).1 (args_of tx s).2 0; Sigprocmask] ++
         if sigprocmask_restore_ret env <? 0
         then [Perror "Failed to unmask signals"] else []) /\
    started tx s' = true /\ running_engines tx s' = [args_of tx s] /\
    engines_of (negb tx) s' = engines_of (negb tx) s /\
    started (negb tx) s' = started (negb tx) s /\
    read_args s' = read_args s /\ write_args s' = write_args s /\
    config_enabled s' = config_enabled s /\
    session_ok s'.
Proof.
  intros [Hr Hw Hc Hf] Hst Hblock Hcreate.
  unfold start_thread, pthread_create. unfold_monad. rewrite Hcreate.
  destruct (Z.ltb_spec (sigprocmask_block_ret env) 0); [lia|]. zsimpl.
  destruct tx; cbn in Hst; rewrite Hst in *; zsimpl;
    [|replace (negb (write_started s) && false) with false by (by destruct (write_started s))];
    zsimpl.
  all: destruct (sigprocmask_restore_ret env <? 0); zsimpl.
  all: eexists; (split; [done|]).
  all: unfold running_engines, engines_of, running_threads, engines_of in *; zsimpl.
  all: rewrite !engines_of_snoc; cbn [engine_tx]; repeat case_decide; try done.
  all: rewrite ?app_nil_r.
  1,2: apply fmap_nil_inv in Hw; rewrite Hw.
  3,4: apply fmap_nil_inv in Hr; rewrite Hr.
  all: repeat split; try done.
  all: first
    [ by apply functional_snoc
    | apply Forall_app; split;
        [eapply Forall_impl; [exact Hc|]; cbn; intros; lia | repeat constructor; cbn; lia]
    | unfold running_threads, engines_of; zsimpl; rewrite engines_of_snoc;
      cbn [engine_tx]; repeat case_decide; try done;
      rewrite ?app_nil_r, ?fmap_app; first [by rewrite Hw | by rewrite Hr | done] ].
Qed.



Lemma session_ok_ext s s' :
  read_started s' = read_started s -> write_started s' = write_started s ->
  thread_read s' = thread_read s -> thread_write s' = thread_write s ->
  threads s' = threads s -> created s' = created s ->
  session_ok s -> session_ok s'.
Proof.
  intros H1 H2 H3 H4 H5 H6 [Hr Hw Hc Hf].
  split; unfold running_threads, engines_of in *; rewrite ?H1, ?H2, ?H3, ?H4, ?H5, ?H6; done.
Qed.

(** [stop_thread] whose calls succeed, started or not. *)
Lemma stop_thread_ok tx env s :
  session_ok s -> 0 <= eventfd_write_ret env -> 0 <= eventfd_read_ret env ->
  exists s',
    stop_thread tx env s
    = Done true s'
        (if started tx s
         then [Write (thread_event_fd tx); Pthread_join tx; Read (thread_event_fd tx)]
         else []) /\
    started tx s' = false /\
    engines_of (negb tx) s' = engines_of (negb tx) s /\
    started (negb tx) s' = started (negb tx) s /\
    read_args s' = read_args s /\ write_args s' = write_args s /\
    config_enabled s' = config_enabled s /\
    session_ok s'.
Proof.
  intros Hok Hwr Hrd. destruct (started tx s) eqn:Hst.
  - destruct (stop_thread_running tx env s Hok Hst Hwr Hrd)
      as (s' & Hrun & H1 & _ & H3 & H4 & _ & H6 & H7 & H8 & H9).
    exists s'. do 7 (split; [done|]). done.
  - exists s. rewrite stop_thread_idle by done. do 7 (split; [done|]). done.
Qed.

(** A well-formed START whose stop succeeds and whose thread is created:
    the direction is stopped if it was started, the arguments are stored,
    and one thread is started with them. *)
Lemma handle_start tx channels size env s :
  session_ok s -> start_request tx channels size env -> engine_replaced env ->
  exists s',
    handle_ep0 env s
    = Done 0 s'
        ([Read fd_ep0; Read fd_ep0] ++
         (if started tx s
          then [Write (thread_event_fd tx); Pthread_join tx; Read (thread_event_fd tx)]
          else []) ++
         [Sigprocmask; Pthread_create tx channels size 0; Sigprocmask] ++
         restore_error env) /\
    started tx s' = true /\ running_engines tx s' = [(channels, size)] /\
    args_of tx s' = (channels, size) /\
    engines_of (negb tx) s' = engines_of (negb tx) s /\
    started (negb tx) s' = started (negb tx) s /\
    session_ok s'.
Proof.
  intros Hok [Hev Hty Hout Hreq Htgt Hcnt Hch Hsz] [Hwr Hrd Hbl Hcr].
  destruct (stop_thread_ok tx (stop_first env) s Hok Hwr Hrd)
    as (s1 & Hstop & Hst1 & Heng1 & Hoth1 & Hra1 & Hwa1 & Hce1 & Hok1).
  unfold handle_ep0. unfold_monad. rewrite Hev, Hty, Hout, Hreq, Hcnt, Htgt.
  replace (SDR_USB_GADGET_COMMAND_TARGET_TX =?
           (if tx then SDR_USB_GADGET_COMMAND_TARGET_TX else SDR_USB_GADGET_COMMAND_TARGET_RX))
    with tx by (by destruct tx).
  cbn -[stop_thread start_thread]. rewrite Hstop. rewrite Hch, Hsz.
  destruct tx; cbn -[stop_thread start_thread].
  - set (s2 := set_write_args _ s1).
    assert (Hok2 : session_ok s2) by (by eapply session_ok_ext; [..|exact Hok1]).
    destruct (start_thread_fresh true (start env) s2 Hok2 Hst1 Hbl Hcr)
      as (s' & Hstart & Hst' & Hrun' & Heng' & Hoth' & Hra' & Hwa' & _ & Hok').
    rewrite Hstart. cbn -[app]. cbn [negb] in *. exists s'. split.
    { unfold restore_error. by rewrite app_nil_r. }
    split; [done|]. split; [done|]. split; [cbn; by rewrite Hwa'|].
    split; [exact (eq_trans Heng' Heng1)|]. split; [exact (eq_trans Hoth' Hoth1)|]. done.
  - set (s2 := set_read_args _ s1).
    assert (Hok2 : session_ok s2) by (by eapply session_ok_ext; [..|exact Hok1]).
    destruct (start_thread_fresh false (start env) s2 Hok2 Hst1 Hbl Hcr)
      as (s' & Hstart & Hst' & Hrun' & Heng' & Hoth' & Hra' & Hwa' & _ & Hok').
    rewrite Hstart. cbn -[app]. cbn [negb] in *. exists s'. split.
    { unfold restore_error. by rewrite app_nil_r. }
    split; [done|]. split; [done|]. split; [cbn; by rewrite Hra'|].
    split; [exact (eq_trans Heng' Heng1)|]. split; [exact (eq_trans Hoth' Hoth1)|]. done.
Qed.

Lemma first_start_request stop : start_request false 3 1024 (first_start stop).
Proof. by split. Qed.

Lemma second_start_request stop : start_request false 1 2048 (second_start stop).
Proof. by split. Qed.

Lemma with_start_request tx ch sz st env :
  start_request tx ch sz env -> start_request tx ch sz (with_start st env).
Proof. by intros []. Qed.

End MainFacts.

(** ** ring_buffer.c: the ring as a queue of slots *)

Section RingBufferQueue.
Import RingBuffer.

Lemma occupied_put ctx :
  wf ctx -> usage ctx < capacity ctx ->
  occupied (snd (RING_BUFFER_Put ctx)) = occupied ctx ++ [head ctx].
Proof.
  intros Hwf Hlt. rewrite put_room by done. cbn [snd].
  destruct Hwf as [Hc Hu Ht Hh].
  unfold occupied. cbn [usage capacity tail].
  replace (Z.to_nat (usage ctx + 1)) with (S (Z.to_nat (usage ctx))) by lia.
  rewrite seq_S, fmap_app. cbn [fmap list_fmap plus]. do 2 f_equal.
  rewrite Hh. f_equal. lia.
Qed.

Lemma occupied_get ctx :
  wf ctx -> 0 < usage ctx ->
  occupied ctx = tail ctx :: occupied (snd (RING_BUFFER_Get ctx)).
Proof.
  intros Hwf Hlt. rewrite get_some by done. cbn [snd].
  destruct Hwf as [Hc Hu Ht Hh].
  unfold occupied. cbn [usage capacity tail].
  replace (Z.to_nat (usage ctx)) with (S (Z.to_nat (usage ctx - 1))) by lia.
  cbn [seq fmap list_fmap]. f_equal.
  - unfold wrap. cmp_cases; lia.
  - rewrite <- fmap_S_seq, <- list_fmap_compose.
    apply list_fmap_ext. intros i k Hk.
    apply lookup_seq in Hk as [-> Hi]. cbn.
    unfold wrap. cmp_cases; lia.
Qed.

Lemma occupied_length ctx : Z.of_nat (length (occupied ctx)) = Z.max 0 (usage ctx).
Proof. unfold occupied. rewrite length_fmap, length_seq. lia. Qed.

Lemma occupied_bounds ctx :
  wf ctx -> Forall (fun i => 0 <= i < capacity ctx) (occupied ctx).
Proof.
  intros [Hc Hu Ht Hh]. unfold occupied. apply Forall_fmap, Forall_forall.
  intros k Hk. apply elem_of_seq in Hk. cbn. unfold wrap. cmp_cases; lia.
Qed.

Lemma occupied_NoDup ctx : wf ctx -> NoDup (occupied ctx).
Proof.
  intros [Hc Hu Ht Hh]. unfold occupied.
  apply NoDup_fmap_2_strong; [|apply NoDup_seq].
  intros j k Hj Hk. apply elem_of_seq in Hj, Hk.
  unfold wrap. cmp_cases; lia.
Qed.

(** The head is not one of the occupied slots while there is room. *)
Lemma head_not_occupied ctx :
  wf ctx -> usage ctx < capacity ctx -> head ctx ∉ occupied ctx.
Proof.
  intros Hwf Hlt Hin.
  pose proof (occupied_NoDup _ (wf_put ctx Hwf)) as Hnd.
  rewrite occupied_put in Hnd by done.
  apply NoDup_app in Hnd as (_ & Hno & _). apply (Hno _ Hin). by left.
Qed.

(** What a client has put is what it has got followed by what the ring
    still holds. *)
Lemma run_queue ops : forall ctx ps gs ctx',
  wf ctx -> run ops ctx = (ps, gs, ctx') ->
  occupied ctx ++ ps = gs ++ occupied ctx' /\
  wf ctx' /\ capacity ctx' = capacity ctx /\
  Forall (fun i => 0 <= i < capacity ctx) ps.
Proof.
  induction ops as [|[|] ops IH]; intros ctx ps gs ctx' Hwf Hrun; cbn [run] in Hrun.
  - injection Hrun as <- <- <-. by rewrite app_nil_r.
  - destruct (run ops (snd (RING_BUFFER_Put ctx))) as [[ps1 gs1] ctx1] eqn:Hrest.
    cbv zeta in Hrun. injection Hrun as <- <- <-.
    destruct (IH _ _ _ _ (wf_put _ Hwf) Hrest) as (Hq & Hwf1 & Hcap & Hps).
    rewrite capacity_put in Hcap, Hps.
    destruct (Z.lt_ge_cases (usage ctx) (capacity ctx)) as [Hlt|Hge].
    + rewrite occupied_put in Hq by done.
      pose proof (wf_head_lt _ Hwf Hlt) as Hhd.
      pose proof (wf_capacity _ Hwf) as Hc. unfold is_uint32 in Hc.
      rewrite put_room by done. cbn [fst].
      destruct (Z.eqb_spec (head ctx) RING_BUFFER_NO_INDEX) as [Heq|_];
        [unfold RING_BUFFER_NO_INDEX in Heq; lia|].
      split; [by rewrite <- Hq, <- app_assoc|].
      split; [done|]. split; [done|]. by constructor.
    + rewrite put_full in Hq |- * by done. cbn [fst snd] in *.
      by rewrite Z.eqb_refl.
  - destruct (run ops (snd (RING_BUFFER_Get ctx))) as [[ps1 gs1] ctx1] eqn:Hrest.
    cbv zeta in Hrun. injection Hrun as <- <- <-.
    destruct (IH _ _ _ _ (wf_get _ Hwf) Hrest) as (Hq & Hwf1 & Hcap & Hps).
    rewrite capacity_get in Hcap, Hps.
    destruct (Z.lt_ge_cases 0 (usage ctx)) as [Hlt|Hge].
    + rewrite (occupied_get ctx) by done.
      pose proof (wf_capacity _ Hwf) as Hc. unfold is_uint32 in Hc.
      pose proof (wf_usage _ Hwf) as Hu.
      pose proof (wf_tail _ Hwf) as Ht.
      rewrite get_some in Hq |- * by done. cbn [fst snd] in *.
      destruct (Z.eqb_spec (tail ctx) RING_BUFFER_NO_INDEX) as [Heq|_];
        [unfold RING_BUFFER_NO_INDEX in Heq; lia|].
      split; [cbn; by rewrite Hq|]. done.
    + rewrite get_empty in Hq |- * by lia. cbn [fst snd] in *.
      by rewrite Z.eqb_refl.
Qed.

(** The ring is a first-in first-out queue of slots: for every sequence
    of puts and gets on a ring initialised with a [uint32_t] capacity, the
    indexes the gets return are the indexes the puts returned, in the same
    order, up to the slots that are still occupied; every index is that of
    a slot, and the usage is the number of puts minus the number of gets
    that returned an index. *)
Theorem ring_buffer_fifo cap ctx0 ops ps gs ctx :
  is_uint32 cap ->
  run ops (RING_BUFFER_Init ctx0 cap) = (ps, gs, ctx) ->
  ps = gs ++ occupied ctx /\
  Forall (fun i => 0 <= i < cap) ps /\
  usage ctx = Z.of_nat (length ps) - Z.of_nat (length gs).
Proof.
  intros Hcap Hrun.
  destruct (run_queue ops _ _ _ _ (wf_init ctx0 cap Hcap) Hrun) as (Hq & Hwf & _ & Hps).
  change (ps = gs ++ occupied ctx) in Hq. split; [done|]. split; [done|].
  rewrite Hq, length_app, Nat2Z.inj_add, occupied_length.
  destruct Hwf as [_ Hu _ _]. lia.
Qed.

Lemma ring_buffer_fifo_witness :
  let ops := [Op_put; Op_put; Op_get; Op_put; Op_get] in
  let zero := {| capacity := 0; usage := 0; head := 0; tail := 0 |} in
  let ctx := {| capacity := 2; usage := 1; head := 1; tail := 0 |} in
  [0; 1; 0] = [0; 1] ++ occupied ctx /\
  Forall (fun i => 0 <= i < 2) [0; 1; 0] /\
  usage ctx = Z.of_nat (length [0; 1; 0]) - Z.of_nat (length [0; 1]).
Proof.
  intros ops zero ctx.
  apply (ring_buffer_fifo 2 zero ops [0; 1; 0] [0; 1] ctx).
  - unfold is_uint32, UINT32_MAX. lia.
  - reflexivity.
Defined.

(** A put never hands out a slot that is still occupied: in every
    reachable context the occupied slots are distinct slots of the ring,
    as many as the usage says, and while there is room the index that
    [RING_BUFFER_Put] returns is a slot that is not among them. *)
Theorem ring_buffer_put_fresh cap ctx :
  is_uint32 cap -> reachable cap ctx ->
  NoDup (occupied ctx) /\
  Forall (fun i => 0 <= i < cap) (occupied ctx) /\
  Z.of_nat (length (occupied ctx)) = usage ctx /\
  (usage ctx < cap ->
   0 <= fst (RING_BUFFER_Put ctx) < cap /\
   (fst (RING_BUFFER_Put ctx) ∉ occupied ctx) /\
   usage (snd (RING_BUFFER_Put ctx)) = usage ctx + 1) /\
  (0 < usage ctx ->
   occupied ctx = fst (RING_BUFFER_Get ctx) :: occupied (snd (RING_BUFFER_Get ctx)) /\
   usage (snd (RING_BUFFER_Get ctx)) = usage ctx - 1).
Proof.
  intros Hcap Hreach. destruct (reachable_wf cap ctx Hcap Hreach) as [Hwf <-].
  split; [by apply occupied_NoDup|].
  split; [by apply occupied_bounds|].
  split; [rewrite occupied_length; destruct Hwf as [_ Hu _ _]; lia|].
  split.
  - intros Hlt. rewrite put_room by done. cbn [fst snd usage].
    split; [by apply wf_head_lt|]. split; [by apply head_not_occupied | done].
  - intros Hlt. rewrite (occupied_get ctx) by done.
    by rewrite get_some by done.
Qed.

Lemma ring_buffer_put_fresh_witness :
  let ctx := snd (RING_BUFFER_Put
                    (RING_BUFFER_Init {| capacity := 0; usage := 0; head := 0; tail := 0 |} 3)) in
  NoDup (occupied ctx) /\
  Forall (fun i => 0 <= i < 3) (occupied ctx) /\
  Z.of_nat (length (occupied ctx)) = usage ctx /\
  (usage ctx < 3 ->
   0 <= fst (RING_BUFFER_Put ctx) < 3 /\
   (fst (RING_BUFFER_Put ctx) ∉ occupied ctx) /\
   usage (snd (RING_BUFFER_Put ctx)) = usage ctx + 1) /\
  (0 < usage ctx ->
   occupied ctx = fst (RING_BUFFER_Get ctx) :: occupied (snd (RING_BUFFER_Get ctx)) /\
   usage (snd (RING_BUFFER_Get ctx)) = usage ctx - 1).
Proof.
  intros ctx. apply (ring_buffer_put_fresh 3 ctx).
  - unfold is_uint32, UINT32_MAX. lia.
  - apply reach_put, reach_init.
Defined.

End RingBufferQueue.

(** ** Commands that return *)

Section Returns.
Context {S E : Type}.

Lemma ret_returns {A} (a : A) (s : S) : returns (mret a : M S E A) s.
Proof. by eexists _, _, _. Qed.

Lemma bind_returns {A B} (m : M S E A) (k : A -> M S E B) s a s1 tr1 :
  m s = Done a s1 tr1 -> returns (k a) s1 -> returns (m ≫= k) s.
Proof.
  intros Hm (b & s2 & tr2 & Hk). unfold returns.
  rewrite (bind_run _ _ _ _ _ _ Hm), Hk. by eexists _, _, _.
Qed.

Lemma emit_bind_returns {B} (e : E) (k : unit -> M S E B) s :
  returns (k ()) s -> returns (emit e ≫= k) s.
Proof. intros H. by eapply bind_returns. Qed.

Lemma modify_bind_returns {B} (f : S -> S) (k : unit -> M S E B) s :
  returns (k ()) (f s) -> returns (modify f ≫= k) s.
Proof. intros H. by eapply bind_returns. Qed.

Lemma get_bind_returns {B} (k : S -> M S E B) s :
  returns (k s) s -> returns (get ≫= k) s.
Proof. intros H. by eapply bind_returns. Qed.

End Returns.

(** ** thread_read.c: the whole thread *)

Section RxEngine.
Import RingBuffer Rx.

Local Ltac zsimpl := cbn -[Z.eqb Z.leb Z.ltb Z.add Z.sub Z.of_nat Z.to_nat].

Lemma enable_channels_returns channels found ixs s :
  exists b tr, enable_channels channels found ixs s = Done b s tr.
Proof.
  induction ixs as [|i ixs IH]; cbn [enable_channels].
  - by eexists _, _.
  - destruct (negb (Z.land channels (Z.shiftl 1 (Z.of_nat i)) =? 0)); [|exact IH].
    destruct (negb (found i)); [by eexists _, _|].
    destruct IH as (b & tr & IH). unfold_monad. rewrite IH. by eexists _, _.
Qed.

Lemma setup_stats_returns env s : returns (setup_stats env) s.
Proof.
  unfold setup_stats. apply emit_bind_returns.
  destruct (_ <? 0); [apply emit_bind_returns, ret_returns|]. apply emit_bind_returns.
  destruct (_ <? 0); [apply emit_bind_returns, ret_returns|]. apply emit_bind_returns.
  destruct (_ <? 0); [apply emit_bind_returns, ret_returns|]. apply ret_returns.
Qed.

(** The set-up does not run into [Fault], whatever its calls return. *)
Lemma setup_returns G args env : returns (setup G args env) zero_state.
Proof.
  unfold setup. apply emit_bind_returns.
  destruct (_ <? 0); [apply emit_bind_returns, ret_returns|]. apply emit_bind_returns.
  destruct (_ <? 0); [apply emit_bind_returns, ret_returns|]. apply emit_bind_returns.
  destruct (negb _); [apply emit_bind_returns, ret_returns|]. apply emit_bind_returns.
  destruct (negb _); [apply emit_bind_returns, ret_returns|]. apply emit_bind_returns.
  destruct (enable_channels_returns (iio_channels args) (iio_channel_found env)
              (seq 0 32) zero_state) as (en & tr & Hen).
  eapply bind_returns; [exact Hen|].
  destruct (negb en); [apply ret_returns|]. apply emit_bind_returns.
  destruct (negb _); [apply emit_bind_returns, ret_returns|]. apply emit_bind_returns.
  destruct (_ <? 0); [apply emit_bind_returns, ret_returns|].
  apply modify_bind_returns, emit_bind_returns.
  destruct (_ <? 0); [apply emit_bind_returns, ret_returns|]. apply emit_bind_returns.
  destruct (_ <? 0); [apply emit_bind_returns, ret_returns|]. apply emit_bind_returns.
  destruct (_ <? 0); [apply emit_bind_returns, ret_returns|].
  apply modify_bind_returns.
  set (size := size_t (iio_buffer_step env * iio_buffer_size args)).
  destruct (allocate_buffers_no_fault env (seq 0 NUM_BUFS) (pool_empty size) 0)
    as (r & s' & tr' & Halloc & _).
  - done.
  - done.
  - apply wf_init. unfold is_uint32, UINT32_MAX, NUM_BUFS. lia.
  - done.
  - done.
  - by rewrite length_seq.
  - apply Forall_forall. intros i Hi. apply elem_of_seq in Hi. lia.
  - eapply bind_returns; [exact Halloc|].
    destruct r; [|apply ret_returns].
    destruct G; [apply setup_stats_returns | apply ret_returns].
Qed.

(** The handlers of one wake-up run to the end, and leave the pool
    consistent unless one of them fails. *)
Lemma run_handlers_returns G rs : forall s,
  pool_inv [] s -> handlers_ok G rs s ->
  exists x s' tr, run_handlers G rs s = Done x s' tr /\ (0 <= x -> pool_inv [] s').
Proof.
  induction rs as [|r rs IH]; intros s Hinv Hok; cbn [run_handlers].
  - by eexists _, _, _.
  - destruct Hok as [Hk Hok].
    destruct (dispatch_spec G s r Hinv Hk) as (x & s1 & tr1 & Hd & Hinv1).
    rewrite Hd in Hok. rewrite (bind_run _ _ _ _ _ _ Hd).
    destruct (Z.ltb_spec x 0) as [Hneg|Hpos].
    + eexists _, _, _. split; [reflexivity|]. lia.
    + destruct (IH s1 (Hinv1 Hpos) (Hok Hpos)) as (x' & s' & tr' & Hrun & Hinv').
      rewrite Hrun. by eexists _, _, _.
Qed.

Lemma main_loop_returns G sched : forall s,
  pool_inv [] s -> schedule_ok G sched s -> returns (main_loop G sched) s.
Proof.
  induction sched as [|w sched IH]; intros s Hinv Hok; cbn [main_loop];
    apply get_bind_returns; destruct (keep_running s) eqn:Hkeep;
    try apply ret_returns.
  destruct w as [|rs]; cbn [EPOLL_LOOP_Run].
  - eapply bind_returns; [reflexivity|]. apply ret_returns.
  - cbn [schedule_ok] in Hok. destruct (Hok Hkeep) as [Hh Hrest].
    destruct (run_handlers_returns G rs s Hinv Hh) as (x & s' & tr & Hrun & Hinv').
    rewrite Hrun in Hrest. eapply bind_returns; [exact Hrun|].
    destruct (Z.ltb_spec x 0) as [Hneg|Hpos]; [apply ret_returns|].
    apply IH; [by apply Hinv' | by apply Hrest].
Qed.

(** The loop of the teardown frees each buffer and clears its entry. *)
Lemma free_buffers_frees n : forall i s,
  (forall j, (i <= j < i + n)%nat ->
     buffers s !! j = Some (Some j) /\ exists b, heap s !! j = Some (Some b)) ->
  exists s', free_buffers (seq i n) s = Done () s' (Free <$> seq i n) /\
             aio_pending s' = aio_pending s /\
             (forall j, (i <= j < i + n)%nat ->
                buffers s' !! j = Some None /\ heap s' !! j = Some None) /\
             (forall j, ~ (i <= j < i + n)%nat ->
                buffers s' !! j = buffers s !! j /\ heap s' !! j = heap s !! j).
Proof.
  induction n as [|n IH]; intros i s Hs.
  - exists s. split; [done|]. split; [done|]. split; [lia | done].
  - destruct (Hs i) as [Hbi [b Hhi]]; [lia|].
    cbn [seq free_buffers]. unfold free, store_buffers. unfold_monad.
    rewrite Hbi. zsimpl. rewrite Hhi. zsimpl.
    pose proof (lookup_lt_Some _ _ _ Hbi) as Hlb.
    pose proof (lookup_lt_Some _ _ _ Hhi) as Hlh.
    destruct (decide (i < length (buffers s))%nat) as [_|Hge]; [|done].
    zsimpl.
    match goal with
    | |- context [free_buffers (seq (S i) n) ?st] =>
        destruct (IH (S i) st) as (s' & Hrun & Hpend & Hin & Hout)
    end.
    { intros j Hj. zsimpl. rewrite !list_lookup_insert_ne by lia. apply Hs. lia. }
    rewrite Hrun. exists s'. split; [done|]. split; [by rewrite Hpend|].
    cbn -[Z.eqb Z.leb Z.ltb Z.add Z.sub Z.of_nat Z.to_nat] in Hout. split.
    + intros j Hj. destruct (decide (j = i)) as [->|Hne].
      * destruct (Hout i) as [-> ->]; [lia|].
        by rewrite !list_lookup_insert_eq by done.
      * apply Hin. lia.
    + intros j Hj. destruct (Hout j) as [-> ->]; [lia|].
      rewrite !list_lookup_insert_ne by lia. done.
Qed.

Lemma teardown_frees G s :
  pool_alloc s ->
  exists s' tr,
    teardown G s = Done () s' tr /\
    aio_pending s' = [] /\
    forall j, (j < NUM_BUFS)%nat -> buffers s' !! j = Some None /\ heap s' !! j = Some None.
Proof.
  intros [Hb Hh]. unfold teardown, io_destroy. unfold_monad.
  cbn -[free_buffers seq NUM_BUFS].
  destruct (free_buffers_frees NUM_BUFS 0 (set_aio_pending [] s))
    as (s' & Hrun & Hpend & Hin & _).
  { intros j Hj. split; [|apply Hh; lia].
    cbn [buffers set_aio_pending]. rewrite Hb, list_lookup_fmap, lookup_seq_lt by lia. done. }
  rewrite Hrun.
  destruct G; eexists _, _; (split; [reflexivity|]); (split; [done|]);
    intros j Hj; apply Hin; lia.
Qed.

(** The RX engine thread uses its buffers soundly: whatever the calls of
    the set-up return, and for every schedule of wake-ups in which the
    kernel hands out completions of distinct pending requests only, the
    thread function returns without using a [usb_buf_t *] that is null or
    has been freed, without freeing a buffer twice and without an index
    outside [buffers] and [ring_buf_data]; and when it returns through the
    teardown, no request is pending any more and each of the 16 buffers has
    been freed and its entry cleared.  The extent of a buffer is not
    represented: the size passed to [malloc] and the length of the
    [memcpy] are outside this statement. *)
Theorem rx_engine_buffers_sound G args env sched s0 :
  schedule_ok G sched (pool_ready (size_t (iio_buffer_step env * iio_buffer_size args))) ->
  exists k s tr,
    THREAD_READ_Entrypoint G args env sched s0 = Done k s tr /\
    (k = Exited ->
     aio_pending s = [] /\
     forall j, (j < NUM_BUFS)%nat -> buffers s !! j = Some None /\ heap s !! j = Some None).
Proof.
  intros Hsched. unfold THREAD_READ_Entrypoint.
  destruct (setup_returns G args env) as (ok & s1 & tr1 & Hsetup).
  rewrite (bind_run _ _ _ _ _ _ (eq_refl : modify _ s0 = Done tt zero_state [])).
  rewrite (bind_run _ _ _ _ _ _ Hsetup).
  destruct ok; cbn [negb].
  2:{ eexists _, _, _. split; [reflexivity|done]. }
  apply setup_ready in Hsetup as [-> _].
  set (size := size_t (iio_buffer_step env * iio_buffer_size args)) in *.
  destruct (main_loop_returns G sched (pool_ready size) (pool_inv_ready size) Hsched)
    as (exited & s2 & tr2 & Hloop).
  destruct (main_loop_alloc G sched _ _ _ _ (pool_alloc_ready size) Hloop) as [Ha2 _].
  rewrite (bind_run _ _ _ _ _ _
             (eq_refl : modify (set_keep_running true) (set_keep_running false (pool_ready size))
                        = Done tt (pool_ready size) [])).
  rewrite (bind_run _ _ _ _ _ _ Hloop).
  destruct exited; cbn [negb].
  2:{ eexists _, _, _. split; [reflexivity|done]. }
  destruct (teardown_frees G s2 Ha2) as (s3 & tr3 & Htear & Hpend & Hfreed).
  rewrite (bind_run _ _ _ _ _ _ Htear).
  eexists _, _, _. split; [reflexivity|]. done.
Qed.

Lemma rx_engine_buffers_sound_witness :
  exists k s tr,
    THREAD_READ_Entrypoint false example_args example_env example_schedule zero_state
    = Done k s tr /\
    (k = Exited ->
     aio_pending s = [] /\
     forall j, (j < NUM_BUFS)%nat -> buffers s !! j = Some None /\ heap s !! j = Some None).
Proof.
  apply (rx_engine_buffers_sound false example_args example_env example_schedule zero_state).
  cbn. intros _. repeat split.
  right. split; [lia|]. cbn. split; [apply NoDup_singleton|].
  constructor; [|constructor]. exists 0%nat. split; [reflexivity|]. by left.
Defined.

(** *** The refill handler *)

(** A refill that finds a free buffer takes the oldest one; the handler
    fails iff the submission does. *)
Lemma handle_iio_buffer_take G s p fl submit_res :
  pool_inv [] s -> free_list s = Some p :: fl ->
  exists s',
    handle_iio_buffer G (signed32 (usb_buffer_size s)) submit_res s
    = Done (if submit_res =? 1 then 0 else -1) s'
        (Iio_buffer_refill :: Memcpy_from_iio p :: Io_submit [p] submit_res ::
         if submit_res =? 1 then [] else [Perror "Failed to submit usb write"]) /\
    free_list s' = fl /\
    aio_pending s' = (if submit_res =? 1 then aio_pending s ++ [p] else aio_pending s) /\
    heap s' = <[p := Some {| in_use := (submit_res =? 1) |}]> (heap s) /\
    buffers s' = buffers s /\
    (p < NUM_BUFS)%nat /\ (p ∉ aio_pending s) /\ (Some p ∉ fl).
Proof.
  intros Hinv Hfree.
  destruct (pool_inv_free _ _ Hinv) as (fl0 & Hfl & Hperm & Husage).
  pose proof Hinv as [Hwf Hcap Hlen Hbufs Hhl Hheap _].
  assert (HN : NUM_BUFS = 16%nat) by done.
  rewrite Hfree in Hfl. destruct fl0 as [|p0 fl0]; [done|].
  cbn [fmap list_fmap] in Hfl. injection Hfl as <- ->.
  assert (Hnd : NoDup (p :: fl0 ++ aio_pending s)).
  { rewrite app_nil_r in Hperm. change (NoDup ((p :: fl0) ++ aio_pending s)).
    rewrite Hperm. apply NoDup_seq. }
  apply NoDup_cons in Hnd as [Hnotin _].
  rewrite elem_of_app in Hnotin.
  assert (Hpos : 0 < usage (ring_buf_ctx s)) by (rewrite Husage; cbn [length]; lia).
  pose proof (ring_content_get _ (ring_buf_data s) Hwf Hpos) as Hget.
  fold (free_list s) in Hget. rewrite Hfree, get_some in Hget by done. cbn [snd] in Hget.
  injection Hget as Hp Hfl'.
  pose proof Hwf as [Hc Hu Ht Hh].
  assert (Hload : ring_buf_data s !! Z.to_nat (tail (ring_buf_ctx s)) = Some (Some p)).
  { rewrite Hp. apply list_lookup_lookup_total_lt. lia. }
  assert (Hplt : (p < NUM_BUFS)%nat).
  { assert (p ∈ seq 0 NUM_BUFS) as Hin
      by (rewrite <- Hperm, !elem_of_app, elem_of_cons; auto).
    apply elem_of_seq in Hin. lia. }
  destruct (lookup_lt_is_Some_2 (heap s) p) as [o Ho]; [lia|].
  destruct (Hheap p o Ho) as (b & -> & Hb).
  unfold handle_iio_buffer, ring_get, load_ring_buf_data, store_in_use, io_submit.
  unfold_monad. zsimpl. rewrite Z.eqb_refl. zsimpl.
  rewrite get_some by done. zsimpl.
  destruct (Z.eqb_spec RING_BUFFER_NO_INDEX (tail (ring_buf_ctx s))) as [Heq|_];
    [unfold RING_BUFFER_NO_INDEX, UINT32_MAX in Heq; lia|].
  destruct (Z.leb_spec 0 (tail (ring_buf_ctx s))); [|lia].
  zsimpl. rewrite Hload. zsimpl. rewrite Ho. zsimpl.
  assert (Hflp : Some p ∉ Some <$> fl0).
  { intros Hin. apply list_elem_of_fmap in Hin as (q & [= <-] & Hq). tauto. }
  destruct (Z.eqb_spec submit_res 1) as [->|Hne]; zsimpl.
  - eexists. split; [reflexivity|]. zsimpl.
    split; [unfold free_list; zsimpl; by rewrite <- Hfl'|]. tauto.
  - destruct (Z.eqb_spec 1 submit_res) as [Heq|_]; [lia|]. zsimpl.
    rewrite list_lookup_insert_eq by lia. zsimpl.
    eexists. split; [reflexivity|]. zsimpl.
    split; [unfold free_list; zsimpl; by rewrite <- Hfl'|].
    split; [done|]. split; [by rewrite list_insert_insert_eq|]. tauto.
Qed.

(** Transfers leave in the order the buffers came back: when the
    running engine has a free buffer and both the refill and the submission
    succeed, the handler copies the samples into the oldest buffer of the
    free-list, which is not one that the kernel still has, submits this
    buffer and no other, marks it in use, and leaves the rest of the
    free-list in its order. *)
Theorem rx_refill_submits_oldest_free G s p fl :
  Running G s -> free_list s = Some p :: fl ->
  exists s',
    handle_iio_buffer G (signed32 (usb_buffer_size s)) 1 s
    = Done 0 s' [Iio_buffer_refill; Memcpy_from_iio p; Io_submit [p] 1] /\
    (p ∉ aio_pending s) /\
    free_list s' = fl /\
    aio_pending s' = aio_pending s ++ [p] /\
    heap s' !! p = Some (Some {| in_use := true |}) /\
    Running G s'.
Proof.
  intros Hrun Hfree. pose proof (Running_pool_inv G s Hrun) as Hinv.
  destruct (handle_iio_buffer_take G s p fl 1 Hinv Hfree)
    as (s' & Hh & Hfl & Hpend & Hheap & _ & Hp & Hnp & _).
  cbn in Hh, Hpend, Hheap. exists s'. split; [exact Hh|]. split; [done|].
  split; [done|]. split; [done|].
  split.
  - rewrite Hheap. apply list_lookup_insert_eq.
    rewrite (inv_heap_len _ _ Hinv). exact Hp.
  - by apply (Running_dispatch G s (Ready_iio (signed32 (usb_buffer_size s)) 1) 0 s'
                [Iio_buffer_refill; Memcpy_from_iio p; Io_submit [p] 1]).
Qed.

Lemma rx_refill_submits_oldest_free_witness :
  exists s',
    handle_iio_buffer false (signed32 (usb_buffer_size (refilled 3))) 1 (refilled 3)
    = Done 0 s' [Iio_buffer_refill; Memcpy_from_iio 3; Io_submit [3%nat] 1] /\
    (3%nat ∉ aio_pending (refilled 3)) /\
    free_list s' = Some <$> seq 4 12 /\
    aio_pending s' = aio_pending (refilled 3) ++ [3%nat] /\
    heap s' !! 3%nat = Some (Some {| in_use := true |}) /\
    Running false s'.
Proof.
  apply (rx_refill_submits_oldest_free false (refilled 3) 3 (Some <$> seq 4 12)).
  - apply refilled_Running. lia.
  - reflexivity.
Defined.

(** A failed submission loses the buffer: when [io_submit] does not
    return 1 the handler reports it and returns -1, and the buffer it had
    taken is left marked unused but in neither list, so that one buffer
    less is in the free-list or in flight. *)
Theorem rx_failed_submit_loses_buffer G s p fl submit_res :
  Running G s -> free_list s = Some p :: fl -> submit_res <> 1 ->
  exists s',
    handle_iio_buffer G (signed32 (usb_buffer_size s)) submit_res s
    = Done (-1) s' [Iio_buffer_refill; Memcpy_from_iio p; Io_submit [p] submit_res;
                    Perror "Failed to submit usb write"] /\
    heap s' !! p = Some (Some {| in_use := false |}) /\
    ~ in_free_list s' p /\ ~ in_flight s' p /\
    (length (free_list s') + length (aio_pending s') = NUM_BUFS - 1)%nat.
Proof.
  intros Hrun Hfree Hne. pose proof (Running_pool_inv G s Hrun) as Hinv.
  destruct (handle_iio_buffer_take G s p fl submit_res Hinv Hfree)
    as (s' & Hh & Hfl & Hpend & Hheap & Hbufs & Hp & Hnp & Hnf).
  destruct (Z.eqb_spec submit_res 1) as [|_]; [done|].
  exists s'. split; [exact Hh|].
  assert (Hbp : buffers s' !! p = Some (Some p)).
  { rewrite Hbufs, (inv_buffers _ _ Hinv), list_lookup_fmap, lookup_seq_lt by done. done. }
  split; [|split; [|split]].
  - rewrite Hheap. apply list_lookup_insert_eq.
    rewrite (inv_heap_len _ _ Hinv). exact Hp.
  - intros (q & Hq & Hin). rewrite Hbp in Hq. injection Hq as <-. by rewrite Hfl in Hin.
  - intros (q & Hq & Hin). rewrite Hbp in Hq. injection Hq as <-. by rewrite Hpend in Hin.
  - destruct (pool_inv_free _ _ Hinv) as (fl0 & Hfl0 & Hperm & _).
    apply Permutation_length in Hperm.
    rewrite !length_app, length_seq in Hperm. cbn [length] in Hperm.
    rewrite Hfl, Hpend.
    assert (Hlen : length (free_list s) = length fl0) by (by rewrite Hfl0, length_fmap).
    rewrite Hfree in Hlen. cbn [length] in Hlen. lia.
Qed.

Lemma rx_failed_submit_loses_buffer_witness :
  exists s',
    handle_iio_buffer false (signed32 (usb_buffer_size (refilled 3))) (-1) (refilled 3)
    = Done (-1) s' [Iio_buffer_refill; Memcpy_from_iio 3; Io_submit [3%nat] (-1);
                    Perror "Failed to submit usb write"] /\
    heap s' !! 3%nat = Some (Some {| in_use := false |}) /\
    ~ in_free_list s' 3 /\ ~ in_flight s' 3 /\
    (length (free_list s') + length (aio_pending s') = NUM_BUFS - 1)%nat.
Proof.
  apply (rx_failed_submit_loses_buffer false (refilled 3) 3 (Some <$> seq 4 12) (-1)).
  - apply refilled_Running. lia.
  - reflexivity.
  - lia.
Defined.

(** Buffers are used again in the order their transfers completed: when
    the free-list is empty and the running engine fetches a batch of
    completions, the next refill is carried by the buffer of the first
    completion of the batch, and the buffers of the other completions stay
    in the free-list in the order of the batch. *)
Theorem rx_recycles_in_completion_order G s read_ret ret evs p ps :
  Running G s -> kernel_ok G s (Ready_aio read_ret ret evs) ->
  0 <= read_ret -> 0 <= ret ->
  free_list s = [] -> completed (take (Z.to_nat ret) evs) = p :: ps ->
  exists s1 tr1 s2,
    handle_eventfd_aio read_ret ret evs s = Done 0 s1 tr1 /\
    handle_iio_buffer G (signed32 (usb_buffer_size s)) 1 s1
    = Done 0 s2 [Iio_buffer_refill; Memcpy_from_iio p; Io_submit [p] 1] /\
    free_list s2 = Some <$> ps /\
    Running G s2.
Proof.
  intros Hrun Hk Hrr Hret Hempty Hcompl.
  pose proof (Running_pool_inv G s Hrun) as Hinv.
  destruct (handle_eventfd_aio_ok G s read_ret ret evs Hinv Hk Hrr Hret)
    as (s0 & idxs & s1 & _ & _ & Haio & _ & _ & Hinv1 & Hfl1 & _ & Hsz1 & _).
  rewrite Hempty, Hcompl in Hfl1. cbn [app fmap list_fmap] in Hfl1.
  assert (Hrun1 : Running G s1).
  { by apply (Running_dispatch G s (Ready_aio read_ret ret evs) 0 s1
                (Read fd_aio_event :: Io_getevents ret ::
                 error_log (usb_buffer_size s) (take (Z.to_nat ret) evs))). }
  destruct (handle_iio_buffer_take G s1 p (Some <$> ps) 1 Hinv1 Hfl1)
    as (s2 & Hh & Hfl2 & _).
  rewrite Hsz1 in Hh. cbn in Hh.
  exists s1. eexists. exists s2.
  split; [exact Haio|]. split; [exact Hh|]. split; [exact Hfl2|].
  rewrite <- Hsz1 in Hh.
  by apply (Running_dispatch G s1 (Ready_iio (signed32 (usb_buffer_size s1)) 1) 0 s2
              [Iio_buffer_refill; Memcpy_from_iio p; Io_submit [p] 1]).
Qed.

Lemma refilled_all_pending : aio_pending (refilled 16) = seq 0 16.
Proof. vm_compute. reflexivity. Qed.

Lemma rx_recycles_in_completion_order_witness :
  let evs := [ {| data := Some 5%nat; res := 4096; res2 := 0 |};
               {| data := Some 2%nat; res := 4096; res2 := 0 |} ] in
  exists s1 tr1 s2,
    handle_eventfd_aio 8 2 evs (refilled 16) = Done 0 s1 tr1 /\
    handle_iio_buffer false (signed32 (usb_buffer_size (refilled 16))) 1 s1
    = Done 0 s2 [Iio_buffer_refill; Memcpy_from_iio 5; Io_submit [5%nat] 1] /\
    free_list s2 = Some <$> [2%nat] /\
    Running false s2.
Proof.
  intros evs.
  apply (rx_recycles_in_completion_order false (refilled 16) 8 2 evs 5 [2%nat]).
  - apply refilled_Running. lia.
  - subst evs. right. rewrite refilled_all_pending.
    split; [cbn; lia|]. cbn. split.
    + apply (bool_decide_unpack _). vm_compute. exact I.
    + constructor; [|constructor; [|constructor]].
      * exists 5%nat. split; [reflexivity|]. apply (bool_decide_unpack _). vm_compute. exact I.
      * exists 2%nat. split; [reflexivity|]. apply (bool_decide_unpack _). vm_compute. exact I.
  - lia.
  - lia.
  - reflexivity.
  - reflexivity.
Defined.

(** *** Cancellation *)

Local Ltac stopped_side := intros ? Hstop; exact Hstop.

Lemma store_in_use_stopped buf v :
  preserves (fun s => keep_running s = false) not_teardown (store_in_use buf v).
Proof.
  unfold store_in_use. preserves_tac. stopped_side.
Qed.

(** No handler sets [keep_running]. *)
Lemma dispatch_stopped G r :
  preserves (fun s => keep_running s = false) not_teardown (dispatch G r).
Proof.
  destruct r; cbn [dispatch].
  - unfold handle_eventfd_thread. preserves_tac. by intros.
  - unfold handle_iio_buffer, ring_get, load_ring_buf_data, io_submit.
    preserves_tac; try apply store_in_use_stopped; stopped_side.
  - unfold handle_eventfd_aio, io_getevents. preserves_tac; try stopped_side.
    apply preserves_for_each. intros ev.
    unfold handle_completion, ring_put, store_ring_buf_data.
    preserves_tac; try apply store_in_use_stopped; stopped_side.
  - unfold handle_stats_timer. preserves_tac. stopped_side.
Qed.

Lemma run_handlers_stopped G rs :
  preserves (fun s => keep_running s = false) not_teardown (run_handlers G rs).
Proof.
  induction rs as [|r rs IH]; cbn [run_handlers].
  - apply preserves_ret.
  - apply preserves_bind; [apply dispatch_stopped|]. intros x.
    destruct (x <? 0); [apply preserves_ret | exact IH].
Qed.

Lemma run_handlers_quit G rs : forall s x s' tr,
  Ready_quit ∈ rs -> run_handlers G rs s = Done x s' tr ->
  x < 0 \/ keep_running s' = false.
Proof.
  induction rs as [|r rs IH]; intros s x s' tr Hin Hrun.
  - by apply elem_of_nil in Hin.
  - cbn [run_handlers] in Hrun.
    apply bind_Done_inv in Hrun as (x1 & s1 & tr1 & tr2 & Hd & Hrun & _).
    destruct (Z.ltb_spec x1 0) as [Hneg|Hpos].
    { injection Hrun as <- _ _. left. lia. }
    apply elem_of_cons in Hin as [<-|Hin].
    + right. cbn in Hd. injection Hd as _ <- _.
      by destruct (run_handlers_stopped G rs _ _ _ _ (eq_refl : keep_running
                     (set_keep_running false s) = false) Hrun).
    + by eapply IH.
Qed.

Lemma main_loop_stopped G sched s :
  keep_running s = false -> main_loop G sched s = Done true s [].
Proof. intros Hstop. destruct sched; cbn [main_loop]; unfold_monad; by rewrite Hstop. Qed.

Lemma main_loop_cons G w sched s :
  main_loop G (w :: sched) s
  = if keep_running s then
      match EPOLL_LOOP_Run G w s with
      | Fault => Fault
      | Done x s1 tr1 =>
          if x <? 0 then Done true s1 (tr1 ++ [])
          else match main_loop G sched s1 with
               | Fault => Fault
               | Done b s2 tr2 => Done b s2 (tr1 ++ tr2)
               end
      end
    else Done true s [].
Proof.
  cbn [main_loop]. unfold_monad. destruct (keep_running s); [|reflexivity].
  destruct (EPOLL_LOOP_Run G w s) as [|x s1 tr1]; [reflexivity|].
  destruct (x <? 0); [reflexivity|].
  by destruct (main_loop G sched s1).
Qed.

Lemma main_loop_quit G rs sched2 sched1 : forall s,
  Ready_quit ∈ rs ->
  main_loop G (sched1 ++ Epoll_ready rs :: sched2) s
  = main_loop G (sched1 ++ [Epoll_ready rs]) s /\
  forall b s' tr, main_loop G (sched1 ++ [Epoll_ready rs]) s = Done b s' tr -> b = true.
Proof.
  induction sched1 as [|w sched1 IH]; intros s Hin; cbn [app];
    rewrite !main_loop_cons; destruct (keep_running s) eqn:Hkeep;
    try (split; [reflexivity | by intros b s' tr [= <- _ _]]).
  - cbn [EPOLL_LOOP_Run].
    destruct (run_handlers G rs s) as [|x s1 tr1] eqn:Hrun; [by split|].
    destruct (Z.ltb_spec x 0) as [Hneg|Hpos].
    { split; [reflexivity|]. by intros b s' tr [= <- _ _]. }
    destruct (run_handlers_quit G rs _ _ _ _ Hin Hrun) as [?|Hstop]; [lia|].
    rewrite !(main_loop_stopped G _ s1 Hstop).
    split; [reflexivity|]. by intros b s' tr [= <- _ _].
  - destruct (EPOLL_LOOP_Run G w s) as [|x s1 tr1]; [by split|].
    destruct (Z.ltb_spec x 0) as [Hneg|Hpos].
    { split; [reflexivity|]. by intros b s' tr [= <- _ _]. }
    destruct (IH s1 Hin) as [-> Hb]. split; [reflexivity|].
    intros b s' tr Hloop.
    destruct (main_loop G (sched1 ++ [Epoll_ready rs]) s1) as [|b1 s2 tr2] eqn:Hl; [done|].
    injection Hloop as <- _ _. by eapply Hb.
Qed.

(** A request to quit ends the engine: once a wake-up includes the
    quit eventfd, the main loop is left at the end of that wake-up, the
    wake-ups after it are never handled, and the thread function does not
    stay in its loop. *)
Theorem rx_quit_ends_engine G args env sched1 rs sched2 s0 :
  Ready_quit ∈ rs ->
  THREAD_READ_Entrypoint G args env (sched1 ++ Epoll_ready rs :: sched2) s0
  = THREAD_READ_Entrypoint G args env (sched1 ++ [Epoll_ready rs]) s0 /\
  forall k s tr,
    THREAD_READ_Entrypoint G args env (sched1 ++ Epoll_ready rs :: sched2) s0 = Done k s tr ->
    k <> Still_running.
Proof.
  intros Hin.
  assert (Heq : THREAD_READ_Entrypoint G args env (sched1 ++ Epoll_ready rs :: sched2) s0
                = THREAD_READ_Entrypoint G args env (sched1 ++ [Epoll_ready rs]) s0).
  { unfold THREAD_READ_Entrypoint. unfold_monad.
    destruct (setup G args env zero_state) as [|ok s1 tr1]; [done|].
    destruct ok; cbn [negb]; [|done].
    by destruct (main_loop_quit G rs sched2 sched1 (set_keep_running true s1) Hin) as [-> _]. }
  split; [exact Heq|]. rewrite Heq. clear Heq.
  intros k s tr H. unfold THREAD_READ_Entrypoint in H.
  apply modify_bind_inv in H.
  apply bind_Done_inv in H as (ok & s1 & tr1 & tr2 & _ & H & _).
  destruct ok; cbn [negb] in H; [|by injection H as <-].
  apply modify_bind_inv in H.
  apply bind_Done_inv in H as (exited & s2 & tr3 & tr4 & Hloop & H & _).
  apply (proj2 (main_loop_quit G rs sched2 sched1 _ Hin)) in Hloop as ->. cbn [negb] in H.
  apply bind_Done_inv in H as ([] & s3 & tr5 & tr6 & _ & H & _). by injection H as <-.
Qed.

Lemma rx_quit_ends_engine_witness :
  THREAD_READ_Entrypoint false example_args example_env
    ([Epoll_ready [Ready_iio 4096 1]] ++
     Epoll_ready [Ready_quit] :: [Epoll_ready [Ready_iio 4096 1]]) zero_state
  = THREAD_READ_Entrypoint false example_args example_env
      ([Epoll_ready [Ready_iio 4096 1]] ++ [Epoll_ready [Ready_quit]]) zero_state /\
  forall k s tr,
    THREAD_READ_Entrypoint false example_args example_env
      ([Epoll_ready [Ready_iio 4096 1]] ++
       Epoll_ready [Ready_quit] :: [Epoll_ready [Ready_iio 4096 1]]) zero_state
    = Done k s tr ->
    k <> Still_running.
Proof.
  apply (rx_quit_ends_engine false example_args example_env
           [Epoll_ready [Ready_iio 4096 1]] [Ready_quit]
           [Epoll_ready [Ready_iio 4096 1]] zero_state).
  by left.
Defined.

(** *** Statistics *)

Lemma handle_iio_buffer_drop G s submit_res :
  usage (ring_buf_ctx s) = 0 ->
  exists s',
    handle_iio_buffer G (signed32 (usb_buffer_size s)) submit_res s
    = Done 0 s' [Iio_buffer_refill] /\
    overflows s' = (if G then uint32 (overflows s + 1) else overflows s) /\
    ring_buf_ctx s' = ring_buf_ctx s /\
    usb_buffer_size s' = usb_buffer_size s.
Proof.
  intros Husage.
  unfold handle_iio_buffer, ring_get. unfold_monad. zsimpl.
  rewrite Z.eqb_refl. zsimpl. rewrite get_empty by lia. zsimpl.
  destruct G; zsimpl; by eexists.
Qed.

(** [n] refills in a row that find the free-list empty. *)
Lemma run_handlers_drops submit_res rest n : forall s,
  usage (ring_buf_ctx s) = 0 ->
  0 <= overflows s -> overflows s + Z.of_nat n <= UINT32_MAX ->
  exists s1,
    overflows s1 = overflows s + Z.of_nat n /\
    run_handlers true
      (replicate n (Ready_iio (signed32 (usb_buffer_size s)) submit_res) ++ rest) s
    = match run_handlers true rest s1 with
      | Fault => Fault
      | Done x s' tr => Done x s' (replicate n Iio_buffer_refill ++ tr)
      end.
Proof.
  induction n as [|n IH]; intros s Husage Hov Hmax.
  - exists s. split; [lia|]. cbn [replicate app]. by destruct (run_handlers true rest s).
  - destruct (handle_iio_buffer_drop true s submit_res Husage)
      as (s1 & Hdrop & Hov1 & Hring & Hsize).
    rewrite uint32_small in Hov1 by (unfold is_uint32; lia).
    destruct (IH s1) as (s2 & Hov2 & Hrun); [by rewrite Hring | lia | lia |].
    exists s2. split; [lia|].
    cbn [replicate app run_handlers dispatch].
    rewrite (bind_run _ _ _ _ _ _ Hdrop). cbn [Z.ltb Z.compare].
    rewrite <- Hsize, Hrun. by destruct (run_handlers true rest s2).
Qed.

(** The statistics report counts the dropped refills: in a build with
    [GENERATE_STATS], after [n] refills that found the free-list empty
    since the counter was last zero, the report of the statistics timer
    prints [n] as the number of overflows, and zeroes the counter. *)
Theorem rx_stats_timer_reports_drops s n submit_res read_ret :
  usage (ring_buf_ctx s) = 0 -> overflows s = 0 ->
  (0 < n)%nat -> Z.of_nat n <= UINT32_MAX -> 0 <= read_ret ->
  exists s',
    run_handlers true
      (replicate n (Ready_iio (signed32 (usb_buffer_size s)) submit_res) ++
       [Ready_stats read_ret]) s
    = Done 0 s'
        (replicate n Iio_buffer_refill ++
         [Read fd_stats_timer;
          Printf "Read period: min: %llu, max: %llu, avg: %llu (uS)" [];
          Printf "Read dur: min: %llu, max: %llu, avg: %llu (uS)" [];
          Printf "Read overflows: %u in last 5s period" [Z.of_nat n]]) /\
    overflows s' = 0.
Proof.
  intros Husage Hov Hn Hmax Hread.
  destruct (run_handlers_drops submit_res [Ready_stats read_ret] n s Husage)
    as (s1 & Hov1 & ->); [lia..|].
  cbn [run_handlers dispatch]. unfold handle_stats_timer. unfold_monad.
  destruct (Z.ltb_spec read_ret 0); [lia|]. zsimpl.
  destruct (Z.ltb_spec 0 (overflows s1)); [|lia]. zsimpl.
  rewrite Hov1, Hov, Z.add_0_l. by eexists.
Qed.

Lemma rx_stats_timer_reports_drops_witness :
  exists s',
    run_handlers true
      (replicate 2 (Ready_iio (signed32 (usb_buffer_size (refilled 16))) 1) ++
       [Ready_stats 8]) (refilled 16)
    = Done 0 s'
        (replicate 2 Iio_buffer_refill ++
         [Read fd_stats_timer;
          Printf "Read period: min: %llu, max: %llu, avg: %llu (uS)" [];
          Printf "Read dur: min: %llu, max: %llu, avg: %llu (uS)" [];
          Printf "Read overflows: %u in last 5s period" [Z.of_nat 2]]) /\
    overflows s' = 0.
Proof.
  apply (rx_stats_timer_reports_drops (refilled 16) 2 1 8).
  - reflexivity.
  - reflexivity.
  - lia.
  - unfold UINT32_MAX. lia.
  - lia.
Defined.

End RxEngine.

(** ** thread_write.c: the whole thread *)

Section TxEngine.
Import Tx.

Local Ltac zsimpl := cbn -[Z.eqb Z.leb Z.ltb Z.add Z.sub Z.of_nat Z.to_nat].

Lemma tx_enable_channels_returns channels found ixs s :
  exists b tr, enable_channels channels found ixs s = Done b s tr.
Proof.
  induction ixs as [|i ixs IH]; cbn [enable_channels].
  - by eexists _, _.
  - destruct (negb (Z.land channels (Z.shiftl 1 (Z.of_nat i)) =? 0)); [|exact IH].
    destruct (negb (found i)); [by eexists _, _|].
    destruct IH as (b & tr & IH). unfold_monad. rewrite IH. by eexists _, _.
Qed.

Lemma tx_setup_stats_returns env s : returns (setup_stats env) s.
Proof.
  unfold setup_stats. apply emit_bind_returns.
  destruct (_ <? 0); [apply emit_bind_returns, ret_returns|]. apply emit_bind_returns.
  destruct (_ <? 0); [apply emit_bind_returns, ret_returns|]. apply emit_bind_returns.
  destruct (_ <? 0); [apply emit_bind_returns, ret_returns|]. apply ret_returns.
Qed.

(** [alloc_usb_buffer] yields a fresh object, not in use, or null. *)
Lemma tx_alloc_usb_buffer_run ok s :
  alloc_usb_buffer ok s
  = if ok
    then Done (Some (length (heap s)))
              (set_heap (heap s ++ [Some {| in_use := false |}]) s) [Malloc true]
    else Done None s [Malloc false; Perror "alloc_buffer failed"].
Proof.
  unfold alloc_usb_buffer, malloc, store_in_use, deref. unfold_monad.
  destruct ok; zsimpl; [|done].
  rewrite list_lookup_middle by done. zsimpl.
  rewrite list_insert_id by (by apply list_lookup_middle). done.
Qed.

Lemma tx_store_buffers_run i buf s :
  (i < length (buffers s))%nat ->
  store_buffers i buf s = Done tt (set_buffers (<[i := buf]> (buffers s)) s) [].
Proof.
  intros Hi. unfold store_buffers. unfold_monad.
  by destruct (decide (i < length (buffers s))%nat).
Qed.

Lemma tx_store_in_use_run p v b s :
  heap s !! p = Some (Some b) ->
  store_in_use (Some p) v s
  = Done tt (set_heap (<[p := Some {| in_use := v |}]> (heap s)) s) [].
Proof. intros Hp. unfold store_in_use, deref. unfold_monad. by rewrite Hp. Qed.

Lemma tx_allocate_buffers_returns env ixs : forall s,
  Forall (fun i => (i < length (buffers s))%nat) ixs ->
  returns (allocate_buffers env ixs) s.
Proof.
  induction ixs as [|i ixs IH]; intros s Hall; cbn [allocate_buffers].
  - apply ret_returns.
  - apply Forall_cons in Hall as [Hi Hall].
    pose proof (tx_alloc_usb_buffer_run (malloc_ok env i) s) as Halloc.
    destruct (malloc_ok env i);
      (eapply bind_returns; [exact Halloc|]); [|apply ret_returns].
    eapply bind_returns; [by apply tx_store_buffers_run|].
    eapply bind_returns.
    { eapply tx_store_in_use_run. cbn. by apply list_lookup_middle. }
    match goal with
    | |- returns _ ?st =>
        destruct (IH st) as (r & s' & tr & Hrec);
          [zsimpl; by rewrite length_insert|]
    end.
    eapply bind_returns; [exact Hrec|]. apply ret_returns.
Qed.

(** The set-up does not run into [Fault], whatever its calls return. *)
Lemma tx_setup_returns G args env : returns (setup G args env) zero_state.
Proof.
  unfold setup. apply emit_bind_returns.
  destruct (_ <? 0); [apply emit_bind_returns, ret_returns|]. apply emit_bind_returns.
  destruct (_ <? 0); [apply emit_bind_returns, ret_returns|]. apply emit_bind_returns.
  destruct (negb _); [apply emit_bind_returns, ret_returns|]. apply emit_bind_returns.
  destruct (negb _); [apply emit_bind_returns, ret_returns|]. apply emit_bind_returns.
  destruct (tx_enable_channels_returns (iio_channels args) (iio_channel_found env)
              (seq 0 32) zero_state) as (en & tr & Hen).
  eapply bind_returns; [exact Hen|].
  destruct (negb en); [apply ret_returns|]. apply emit_bind_returns.
  destruct (negb _); [apply emit_bind_returns, ret_returns|].
  apply modify_bind_returns, emit_bind_returns.
  destruct (_ <? 0); [apply emit_bind_returns, ret_returns|]. apply emit_bind_returns.
  destruct (_ <? 0); [apply emit_bind_returns, ret_returns|]. apply emit_bind_returns.
  destruct (_ <? 0); [apply emit_bind_returns, ret_returns|].
  match goal with
  | |- returns _ ?st =>
      destruct (tx_allocate_buffers_returns env (seq 0 NUM_BUFS) st)
        as (r & s' & tr' & Halloc)
  end.
  { apply Forall_forall. intros i Hi. apply elem_of_seq in Hi.
    cbn [buffers set_usb_buffer_size zero_state]. rewrite length_replicate. lia. }
  eapply bind_returns; [exact Halloc|].
  destruct r as [bufs|]; [|apply ret_returns].
  assert (Hstats : exists st tr1,
             (if G then setup_stats env else mret true) s' = Done st s' tr1).
  { destruct G; [|by eexists _, _].
    destruct (tx_setup_stats_returns env s') as (st & s1 & tr1 & Hst).
    pose proof (tx_setup_stats_state _ _ _ _ _ Hst) as ->. by eexists _, _. }
  destruct Hstats as (st & tr1 & Hst).
  eapply bind_returns; [exact Hst|].
  destruct (negb st); [apply ret_returns|].
  unfold io_submit.
  eapply bind_returns; [reflexivity|].
  destruct (negb _); [apply emit_bind_returns|]; apply ret_returns.
Qed.

Lemma tx_run_handlers_returns G rs : forall s,
  pool_inv [] s -> handlers_ok G rs s ->
  exists x s' tr, run_handlers G rs s = Done x s' tr /\ (0 <= x -> pool_inv [] s').
Proof.
  induction rs as [|r rs IH]; intros s Hinv Hok; cbn [run_handlers].
  - by eexists _, _, _.
  - destruct Hok as [Hk Hok].
    destruct (tx_dispatch_spec G s r Hinv Hk) as (x & s1 & tr1 & Hd & _ & Hinv1).
    rewrite Hd in Hok. rewrite (bind_run _ _ _ _ _ _ Hd).
    destruct (Z.ltb_spec x 0) as [Hneg|Hpos].
    + eexists _, _, _. split; [reflexivity|]. lia.
    + destruct (IH s1 (proj1 (Hinv1 Hpos)) (Hok Hpos)) as (x' & s' & tr' & Hrun & Hinv').
      rewrite Hrun. by eexists _, _, _.
Qed.

Lemma tx_main_loop_returns G sched : forall s,
  pool_inv [] s -> schedule_ok G sched s -> returns (main_loop G sched) s.
Proof.
  induction sched as [|w sched IH]; intros s Hinv Hok; cbn [main_loop];
    apply get_bind_returns; destruct (keep_running s) eqn:Hkeep;
    try apply ret_returns.
  destruct w as [|rs]; cbn [EPOLL_LOOP_Run].
  - eapply bind_returns; [reflexivity|]. apply ret_returns.
  - cbn [schedule_ok] in Hok. destruct (Hok Hkeep) as [Hh Hrest].
    destruct (tx_run_handlers_returns G rs s Hinv Hh) as (x & s' & tr & Hrun & Hinv').
    rewrite Hrun in Hrest. eapply bind_returns; [exact Hrun|].
    destruct (Z.ltb_spec x 0) as [Hneg|Hpos]; [apply ret_returns|].
    apply IH; [by apply Hinv' | by apply Hrest].
Qed.

(** The loop of the teardown frees each buffer and clears its entry. *)
Lemma tx_free_buffers_frees n : forall i s,
  (forall j, (i <= j < i + n)%nat ->
     buffers s !! j = Some (Some j) /\ exists b, heap s !! j = Some (Some b)) ->
  exists s', free_buffers (seq i n) s = Done () s' (Free <$> seq i n) /\
             aio_pending s' = aio_pending s /\
             (forall j, (i <= j < i + n)%nat ->
                buffers s' !! j = Some None /\ heap s' !! j = Some None) /\
             (forall j, ~ (i <= j < i + n)%nat ->
                buffers s' !! j = buffers s !! j /\ heap s' !! j = heap s !! j).
Proof.
  induction n as [|n IH]; intros i s Hs.
  - exists s. split; [done|]. split; [done|]. split; [lia | done].
  - destruct (Hs i) as [Hbi [b Hhi]]; [lia|].
    cbn [seq free_buffers]. unfold free, store_buffers. unfold_monad.
    rewrite Hbi. zsimpl. rewrite Hhi. zsimpl.
    pose proof (lookup_lt_Some _ _ _ Hbi) as Hlb.
    pose proof (lookup_lt_Some _ _ _ Hhi) as Hlh.
    destruct (decide (i < length (buffers s))%nat) as [_|Hge]; [|done].
    zsimpl.
    match goal with
    | |- context [free_buffers (seq (S i) n) ?st] =>
        destruct (IH (S i) st) as (s' & Hrun & Hpend & Hin & Hout)
    end.
    { intros j Hj. zsimpl. rewrite !list_lookup_insert_ne by lia. apply Hs. lia. }
    rewrite Hrun. exists s'. split; [done|]. split; [by rewrite Hpend|].
    cbn -[Z.eqb Z.leb Z.ltb Z.add Z.sub Z.of_nat Z.to_nat] in Hout. split.
    + intros j Hj. destruct (decide (j = i)) as [->|Hne].
      * destruct (Hout i) as [-> ->]; [lia|].
        by rewrite !list_lookup_insert_eq by done.
      * apply Hin. lia.
    + intros j Hj. destruct (Hout j) as [-> ->]; [lia|].
      rewrite !list_lookup_insert_ne by lia. done.
Qed.

Lemma tx_teardown_frees G s :
  pool_alloc s ->
  exists s' tr,
    teardown G s = Done () s' tr /\
    aio_pending s' = [] /\
    forall j, (j < NUM_BUFS)%nat -> buffers s' !! j = Some None /\ heap s' !! j = Some None.
Proof.
  intros [Hb Hh]. unfold teardown, io_destroy. unfold_monad.
  cbn -[free_buffers seq NUM_BUFS].
  destruct (tx_free_buffers_frees NUM_BUFS 0 (set_aio_pending [] s))
    as (s' & Hrun & Hpend & Hin & _).
  { intros j Hj. split; [|apply Hh; lia].
    cbn [buffers set_aio_pending]. rewrite Hb, list_lookup_fmap, lookup_seq_lt by lia. done. }
  rewrite Hrun.
  destruct G; eexists _, _; (split; [reflexivity|]); (split; [done|]);
    intros j Hj; apply Hin; lia.
Qed.

(** The TX engine thread uses its buffers soundly: whatever the calls of
    the set-up return, and for every schedule of wake-ups in which the
    kernel hands out completions of distinct pending requests only, the
    thread function returns without using a [usb_buf_t *] that is null or
    has been freed, without freeing a buffer twice and without an index
    outside [buffers]; and when it returns through the teardown, no request
    is pending any more and each of the 16 buffers has been freed and its
    entry cleared.  The extent of a buffer is not represented: the size
    passed to [malloc] and the length of the [memcpy] are outside this
    statement. *)
Theorem tx_engine_buffers_sound G args env sched s0 :
  schedule_ok G sched (pool_ready (size_t (iio_buffer_step env * iio_buffer_size args))) ->
  exists k s tr,
    THREAD_WRITE_Entrypoint G args env sched s0 = Done k s tr /\
    (k = Exited ->
     aio_pending s = [] /\
     forall j, (j < NUM_BUFS)%nat -> buffers s !! j = Some None /\ heap s !! j = Some None).
Proof.
  intros Hsched. unfold THREAD_WRITE_Entrypoint.
  destruct (tx_setup_returns G args env) as (ok & s1 & tr1 & Hsetup).
  rewrite (bind_run _ _ _ _ _ _ (eq_refl : modify _ s0 = Done tt zero_state [])).
  rewrite (bind_run _ _ _ _ _ _ Hsetup).
  destruct ok; cbn [negb].
  2:{ eexists _, _, _. split; [reflexivity|done]. }
  apply tx_setup_ready in Hsetup as ->.
  set (size := size_t (iio_buffer_step env * iio_buffer_size args)) in *.
  destruct (tx_main_loop_returns G sched (pool_ready size) (tx_pool_inv_ready size) Hsched)
    as (exited & s2 & tr2 & Hloop).
  destruct (tx_main_loop_alloc G sched _ _ _ _ (tx_pool_alloc_ready size) Hloop) as [Ha2 _].
  rewrite (bind_run _ _ _ _ _ _
             (eq_refl : modify (set_keep_running true) (set_keep_running false (pool_ready size))
                        = Done tt (pool_ready size) [])).
  rewrite (bind_run _ _ _ _ _ _ Hloop).
  destruct exited; cbn [negb].
  2:{ eexists _, _, _. split; [reflexivity|done]. }
  destruct (tx_teardown_frees G s2 Ha2) as (s3 & tr3 & Htear & Hpend & Hfreed).
  rewrite (bind_run _ _ _ _ _ _ Htear).
  eexists _, _, _. split; [reflexivity|]. done.
Qed.

Lemma tx_engine_buffers_sound_witness :
  exists k s tr,
    THREAD_WRITE_Entrypoint false example_args example_env example_schedule zero_state
    = Done k s tr /\
    (k = Exited ->
     aio_pending s = [] /\
     forall j, (j < NUM_BUFS)%nat -> buffers s !! j = Some None /\ heap s !! j = Some None).
Proof.
  apply (tx_engine_buffers_sound false example_args example_env example_schedule zero_state).
  cbn. intros _. repeat split.
  right. split; [lia|]. cbn. split.
  - apply NoDup_cons. split; [|apply NoDup_singleton].
    intros Hin. apply list_elem_of_singleton in Hin. discriminate.
  - constructor; [|constructor; [|constructor]].
    + exists 0%nat. split; [reflexivity|]. by left.
    + exists 1%nat. split; [reflexivity|]. right. by left.
Defined.

(** *** The completion handler *)

Lemma pushed_app tr1 tr2 : pushed (tr1 ++ tr2) = pushed tr1 ++ pushed tr2.
Proof. apply omap_app. Qed.

Lemma resubmitted_app tr1 tr2 :
  resubmitted (tr1 ++ tr2) = resubmitted tr1 ++ resubmitted tr2.
Proof. apply omap_app. Qed.

(** The head of the loop body: a whole buffer goes to the hardware,
    anything else does not; a push that the hardware does not take whole is
    counted in a build with [GENERATE_STATS]. *)
Lemma tx_push_completion_trace G c p b s :
  heap s !! p = Some (Some b) -> data (event c) = Some p ->
  exists s1 tr1,
    push_completion G c s = Done () s1 tr1 /\
    heap s1 = heap s /\ buffers s1 = buffers s /\ aio_pending s1 = aio_pending s /\
    usb_buffer_size s1 = usb_buffer_size s /\
    pushed tr1 = (if full (usb_buffer_size s) c then [p] else []) /\
    resubmitted tr1 = [] /\
    overflows s1
    = (if full (usb_buffer_size s) c
          && negb (push_ret c =? signed32 (usb_buffer_size s)) && G
       then uint32 (overflows s + 1) else overflows s).
Proof.
  intros Hp Hdata. unfold push_completion, deref, full. unfold_monad. rewrite Hdata. zsimpl.
  destruct (usb_buffer_size s =? size_t (res (event c))); zsimpl.
  - rewrite Hp. zsimpl.
    destruct (push_ret c =? signed32 (usb_buffer_size s)); zsimpl;
      [|destruct G; zsimpl]; by eexists _, _.
  - destruct (- ESHUTDOWN =? signed32 (res (event c))); zsimpl; by eexists _, _.
Qed.

Lemma tx_pool_inv_heap p rem s :
  pool_inv (p :: rem) s ->
  (p < NUM_BUFS)%nat /\ heap s !! p = Some (Some {| in_use := true |}).
Proof.
  intros [Hbufs Hheap Hperm].
  assert (Hplt : (p < NUM_BUFS)%nat).
  { assert (p ∈ seq 0 NUM_BUFS) as Hin
      by (rewrite <- Hperm, elem_of_app, elem_of_cons; auto).
    apply elem_of_seq in Hin. lia. }
  split; [done|]. rewrite Hheap. by apply lookup_replicate_2.
Qed.

(** One turn of the loop when the re-submission succeeds. *)
Lemma tx_handle_completion_ok G c p rem s :
  pool_inv (p :: rem) s -> data (event c) = Some p -> submit_ret c = 1 ->
  exists s' tr,
    handle_completion G c s = Done 0 s' tr /\
    pushed tr = (if full (usb_buffer_size s) c then [p] else []) /\
    resubmitted tr = [p] /\
    aio_pending s' = aio_pending s ++ [p] /\
    usb_buffer_size s' = usb_buffer_size s /\
    pool_inv rem s'.
Proof.
  intros Hinv Hdata Hsub. destruct (tx_pool_inv_heap _ _ _ Hinv) as [Hplt Hp].
  destruct Hinv as [Hbufs Hheap Hperm].
  destruct (tx_push_completion_trace G c p _ s Hp Hdata)
    as (s1 & tr1 & Hrun & Hh1 & Hb1 & Hp1 & Hsz1 & Hpush & Hres & _).
  unfold handle_completion. rewrite (bind_run _ _ _ _ _ _ Hrun).
  unfold deref, io_submit, store_in_use, deref. unfold_monad. rewrite Hdata. zsimpl.
  rewrite Hh1, Hp, Hsub. zsimpl.
  eexists _, _. split; [reflexivity|].
  rewrite pushed_app, resubmitted_app, Hpush, Hres. cbn [pushed resubmitted omap].
  rewrite !app_nil_r. cbn -[NUM_BUFS].
  split; [done|]. split; [done|]. split; [by rewrite Hp1|]. split; [done|].
  split; cbn [buffers heap aio_pending set_aio_pending]; [congruence | congruence |].
  rewrite Hp1, <- Hperm, <- app_assoc.
  apply Permutation_app_head. cbn. apply Permutation_middle.
Qed.

(** One turn of the loop when the re-submission fails. *)
Lemma tx_handle_completion_fail G c p rem s :
  pool_inv (p :: rem) s -> data (event c) = Some p -> submit_ret c <= 0 ->
  exists s' tr,
    handle_completion G c s = Done (-1) s' tr /\
    resubmitted tr = [] /\
    aio_pending s' = aio_pending s /\
    heap s' !! p = Some (Some {| in_use := false |}).
Proof.
  intros Hinv Hdata Hsub. destruct (tx_pool_inv_heap _ _ _ Hinv) as [Hplt Hp].
  destruct Hinv as [Hbufs Hheap Hperm].
  destruct (tx_push_completion_trace G c p _ s Hp Hdata)
    as (s1 & tr1 & Hrun & Hh1 & Hb1 & Hp1 & Hsz1 & Hpush & Hres & _).
  unfold handle_completion. rewrite (bind_run _ _ _ _ _ _ Hrun).
  unfold deref, io_submit, store_in_use, deref. unfold_monad. rewrite Hdata. zsimpl.
  rewrite Hh1, Hp. zsimpl.
  destruct (Z.eqb_spec 1 (submit_ret c)) as [Heq|Hne]; [lia|]. zsimpl.
  rewrite Hh1, Hp. zsimpl.
  eexists _, _. split; [reflexivity|].
  rewrite resubmitted_app, Hres.
  replace (Z.to_nat (submit_ret c)) with 0%nat by lia.
  cbn [take]. rewrite app_nil_r. split.
  { unfold resubmitted. zsimpl.
    by destruct (Z.eqb_spec (submit_ret c) 1) as [Heq|_]; [lia|]. }
  split; [by rewrite Hp1|]. zsimpl.
  rewrite Hh1. apply list_lookup_insert_eq. by eapply lookup_lt_Some.
Qed.

Lemma tx_handle_completions_ok G cs : forall ps s,
  data <$> (event <$> cs) = Some <$> ps -> pool_inv ps s ->
  Forall (fun c => submit_ret c = 1) cs ->
  exists s' tr,
    handle_completions G cs s = Done 0 s' tr /\
    pushed tr
    = completed (event <$> filter (fun c => full (usb_buffer_size s) c = true) cs) /\
    resubmitted tr = ps /\
    aio_pending s' = aio_pending s ++ ps /\
    usb_buffer_size s' = usb_buffer_size s /\
    pool_inv [] s'.
Proof.
  induction cs as [|c cs IH]; intros ps s Hdata Hinv Hsub.
  - destruct ps; [|done]. eexists _, _. split; [reflexivity|].
    by rewrite app_nil_r.
  - destruct ps as [|p ps]; [done|]. cbn in Hdata. injection Hdata as Hc Hdata.
    apply Forall_cons in Hsub as [Hsub1 Hsub].
    destruct (tx_handle_completion_ok G c p ps s Hinv Hc Hsub1)
      as (s1 & tr1 & Hrun & Hpush1 & Hres1 & Hpend1 & Hsz1 & Hinv1).
    destruct (IH ps s1 Hdata Hinv1 Hsub)
      as (s' & tr & Hrun' & Hpush & Hres & Hpend & Hsz & Hinv').
    cbn [handle_completions]. rewrite (bind_run _ _ _ _ _ _ Hrun).
    cbn [Z.ltb Z.compare]. rewrite Hrun'.
    eexists _, _. split; [reflexivity|].
    rewrite pushed_app, resubmitted_app, Hpush1, Hres1, Hpush, Hres, Hpend, Hpend1, Hsz, Hsz1.
    rewrite <- app_assoc. split; [|done].
    rewrite filter_cons. unfold completed.
    destruct (full (usb_buffer_size s) c) eqn:Hfull.
    + rewrite decide_True by done. cbn. by rewrite Hc.
    + rewrite decide_False by done. done.
Qed.

Lemma tx_handle_completions_fail G cs1 : forall ps1 s c cs2 p ps2,
  data <$> (event <$> cs1) = Some <$> ps1 -> data (event c) = Some p ->
  pool_inv (ps1 ++ p :: ps2) s ->
  Forall (fun c => submit_ret c = 1) cs1 -> submit_ret c <= 0 ->
  exists s' tr,
    handle_completions G (cs1 ++ c :: cs2) s = Done (-1) s' tr /\
    resubmitted tr = ps1 /\
    aio_pending s' = aio_pending s ++ ps1 /\
    heap s' !! p = Some (Some {| in_use := false |}).
Proof.
  induction cs1 as [|c1 cs1 IH]; intros ps1 s c cs2 p ps2 Hdata Hc Hinv Hsub Hfail.
  - destruct ps1; [|done].
    destruct (tx_handle_completion_fail G c p ps2 s Hinv Hc Hfail)
      as (s' & tr & Hrun & Hres & Hpend & Hheap).
    cbn [app handle_completions]. rewrite (bind_run _ _ _ _ _ _ Hrun).
    cbn [Z.ltb Z.compare]. eexists _, _. split; [reflexivity|].
    by rewrite !app_nil_r.
  - destruct ps1 as [|p1 ps1]; [done|]. cbn in Hdata. injection Hdata as Hc1 Hdata.
    apply Forall_cons in Hsub as [Hsub1 Hsub].
    destruct (tx_handle_completion_ok G c1 p1 (ps1 ++ p :: ps2) s Hinv Hc1 Hsub1)
      as (s1 & tr1 & Hrun & _ & Hres1 & Hpend1 & _ & Hinv1).
    destruct (IH ps1 s1 c cs2 p ps2 Hdata Hc Hinv1 Hsub Hfail)
      as (s' & tr & Hrun' & Hres & Hpend & Hheap).
    cbn [app handle_completions]. rewrite (bind_run _ _ _ _ _ _ Hrun).
    cbn [Z.ltb Z.compare]. rewrite Hrun'.
    eexists _, _. split; [reflexivity|].
    rewrite resubmitted_app, Hres1, Hres, Hpend, Hpend1, <- app_assoc. done.
Qed.

(** What the running engine does with a batch of completions, on the
    way in. *)
Lemma tx_fetch G s read_ret ret events :
  pool_inv [] s -> kernel_ok G s (Ready_aio read_ret ret events) ->
  0 <= read_ret -> 0 <= ret ->
  let cs := take (Z.to_nat ret) events in
  let s1 := set_aio_pending
              (list_difference (aio_pending s) (completed (event <$> cs))) s in
  handle_eventfd_aio G read_ret ret events s
  = match handle_completions G cs s1 with
    | Fault => Fault
    | Done x s' tr => Done x s' (Read fd_aio_event :: Io_getevents ret :: tr)
    end /\
  data <$> (event <$> cs) = Some <$> completed (event <$> cs) /\
  pool_inv (completed (event <$> cs)) s1 /\
  (length (aio_pending s1) + length cs = NUM_BUFS)%nat.
Proof.
  intros Hinv Hk Hrr Hret cs s1. subst cs s1.
  cbn in Hk. destruct Hk as [?|(Hle & Hnd & Hall)]; [lia|].
  destruct (tx_data_completed _ _ Hall) as [Hdata Hin]. rewrite Hdata in Hnd.
  apply NoDup_fmap_1 in Hnd.
  pose proof (tx_pool_inv_getevents s _ Hinv Hnd Hin) as Hinv1.
  split; [|split; [done|split; [done|]]].
  - unfold handle_eventfd_aio, io_getevents. unfold_monad. zsimpl.
    destruct (Z.ltb_spec read_ret 0); [lia|]. zsimpl.
    destruct (Z.ltb_spec ret 0); [lia|].
    rewrite <- fmap_take.
    by destruct (handle_completions G (take (Z.to_nat ret) events) _).
  - destruct Hinv1 as [_ _ Hperm]. apply Permutation_length in Hperm.
    rewrite length_app, length_seq in Hperm.
    assert (Hlen : length (completed (event <$> take (Z.to_nat ret) events))
                   = length (take (Z.to_nat ret) events)).
    { apply (f_equal length) in Hdata. by rewrite !length_fmap in Hdata. }
    cbn [aio_pending set_aio_pending] in *. lia.
Qed.

(** Samples reach the hardware in the order the USB transfers completed:
    when the running engine fetches a batch of completions and every
    re-submission succeeds, the buffers whose samples it hands to the
    hardware are those of the completions that report a whole buffer, in
    the order of the batch, and every buffer of the batch is submitted
    again once, in this order, behind the requests that were still
    pending. *)
Theorem tx_completions_pushed_in_order G s read_ret ret events :
  Running G s -> kernel_ok G s (Ready_aio read_ret ret events) ->
  0 <= read_ret -> 0 <= ret ->
  Forall (fun c => submit_ret c = 1) (take (Z.to_nat ret) events) ->
  exists s' tr,
    handle_eventfd_aio G read_ret ret events s = Done 0 s' tr /\
    pushed tr
    = completed (event <$> filter (fun c => full (usb_buffer_size s) c = true)
                             (take (Z.to_nat ret) events)) /\
    resubmitted tr = completed (event <$> take (Z.to_nat ret) events) /\
    aio_pending s'
    = list_difference (aio_pending s) (completed (event <$> take (Z.to_nat ret) events))
      ++ completed (event <$> take (Z.to_nat ret) events).
Proof.
  intros Hrun Hk Hrr Hret Hsub. pose proof (tx_Running_pool_inv G s Hrun) as Hinv.
  destruct (tx_fetch G s read_ret ret events Hinv Hk Hrr Hret) as (-> & Hdata & Hinv1 & _).
  destruct (tx_handle_completions_ok G _ _ _ Hdata Hinv1 Hsub)
    as (s' & tr & -> & Hpush & Hres & Hpend & _).
  eexists _, _. split; [reflexivity|]. by cbn [pushed resubmitted omap].
Qed.

Lemma tx_completions_pushed_in_order_witness :
  exists s' tr,
    handle_eventfd_aio false 8 2 example_events (pool_ready 4096) = Done 0 s' tr /\
    pushed tr
    = completed (event <$> filter (fun c => full (usb_buffer_size (pool_ready 4096)) c = true)
                             (take (Z.to_nat 2) example_events)) /\
    resubmitted tr = completed (event <$> take (Z.to_nat 2) example_events) /\
    aio_pending s'
    = list_difference (aio_pending (pool_ready 4096))
        (completed (event <$> take (Z.to_nat 2) example_events))
      ++ completed (event <$> take (Z.to_nat 2) example_events).
Proof.
  apply (tx_completions_pushed_in_order false (pool_ready 4096) 8 2 example_events).
  - apply tx_example_Running.
  - right. split; [cbn; lia|]. cbn. split.
    + apply NoDup_cons. split; [|apply NoDup_singleton].
      intros Hin. apply list_elem_of_singleton in Hin. discriminate.
    + constructor; [|constructor; [|constructor]].
      * exists 0%nat. split; [reflexivity|]. by left.
      * exists 1%nat. split; [reflexivity|]. right. by left.
  - lia.
  - lia.
  - repeat constructor.
Defined.

Lemma tx_data_split cs1 c cs2 : forall ps,
  data <$> (event <$> cs1 ++ c :: cs2) = Some <$> ps ->
  exists ps1 p ps2,
    ps = ps1 ++ p :: ps2 /\
    data <$> (event <$> cs1) = Some <$> ps1 /\ data (event c) = Some p /\
    length ps1 = length cs1.
Proof.
  induction cs1 as [|c1 cs1 IH]; intros ps Hdata.
  - destruct ps as [|p ps2]; [done|]. cbn in Hdata. injection Hdata as Hc _.
    by exists [], p, ps2.
  - destruct ps as [|p1 ps]; [done|]. cbn in Hdata. injection Hdata as Hc1 Hdata.
    destruct (IH ps Hdata) as (ps1 & p & ps2 & -> & Hdata1 & Hc & Hlen).
    exists (p1 :: ps1), p, ps2. cbn. rewrite Hc1, Hdata1, Hlen. done.
Qed.

(** A failed re-submission ends the batch: when the re-submission of a
    buffer fails, the handler returns -1 at once; the buffers before it in
    the batch have been submitted again, the buffer itself is marked unused,
    and neither it nor the buffers of the completions after it are queued
    any more. *)
Theorem tx_failed_resubmit_abandons_batch G s read_ret ret events cs1 c cs2 :
  Running G s -> kernel_ok G s (Ready_aio read_ret ret events) ->
  0 <= read_ret -> 0 <= ret ->
  take (Z.to_nat ret) events = cs1 ++ c :: cs2 ->
  Forall (fun c => submit_ret c = 1) cs1 -> submit_ret c <= 0 ->
  exists s' tr p,
    handle_eventfd_aio G read_ret ret events s = Done (-1) s' tr /\
    resubmitted tr = completed (event <$> cs1) /\
    data (event c) = Some p /\ heap s' !! p = Some (Some {| in_use := false |}) /\
    aio_pending s'
    = list_difference (aio_pending s) (completed (event <$> cs1 ++ c :: cs2))
      ++ completed (event <$> cs1) /\
    (length (aio_pending s') + S (length cs2) = NUM_BUFS)%nat.
Proof.
  intros Hrun Hk Hrr Hret Hsplit Hsub Hfail.
  pose proof (tx_Running_pool_inv G s Hrun) as Hinv.
  destruct (tx_fetch G s read_ret ret events Hinv Hk Hrr Hret)
    as (-> & Hdata & Hinv1 & Hlen).
  rewrite Hsplit in *. clear Hsplit.
  destruct (tx_data_split _ _ _ _ Hdata) as (ps1 & p & ps2 & Hps & Hdata1 & Hc & Hlen1).
  rewrite (completed_data _ _ Hdata1).
  rewrite Hps in Hinv1, Hlen |- *.
  destruct (tx_handle_completions_fail G cs1 _ _ c cs2 p _ Hdata1 Hc Hinv1 Hsub Hfail)
    as (s' & tr & -> & Hres & Hpend & Hheap).
  exists s', (Read fd_aio_event :: Io_getevents ret :: tr), p.
  split; [reflexivity|]. split; [done|]. split; [done|]. split; [done|].
  split; [by rewrite Hpend|].
  rewrite Hpend, length_app. cbn [aio_pending set_aio_pending] in Hlen |- *.
  rewrite length_app in Hlen. cbn [length] in Hlen. lia.
Qed.

Lemma tx_failed_resubmit_abandons_batch_witness :
  let c0 := {| event := {| data := Some 5%nat; res := 4096; res2 := 0 |};
               push_ret := 4096; submit_ret := 1 |} in
  let c1 := {| event := {| data := Some 2%nat; res := 4096; res2 := 0 |};
               push_ret := 4096; submit_ret := -1 |} in
  let c2 := {| event := {| data := Some 7%nat; res := 4096; res2 := 0 |};
               push_ret := 4096; submit_ret := 1 |} in
  exists s' tr p,
    handle_eventfd_aio false 8 3 [c0; c1; c2] (pool_ready 4096) = Done (-1) s' tr /\
    resubmitted tr = completed (event <$> [c0]) /\
    data (event c1) = Some p /\ heap s' !! p = Some (Some {| in_use := false |}) /\
    aio_pending s'
    = list_difference (aio_pending (pool_ready 4096)) (completed (event <$> [c0] ++ c1 :: [c2]))
      ++ completed (event <$> [c0]) /\
    (length (aio_pending s') + S (length [c2]) = NUM_BUFS)%nat.
Proof.
  intros c0 c1 c2.
  apply (tx_failed_resubmit_abandons_batch false (pool_ready 4096) 8 3 [c0; c1; c2]
           [c0] c1 [c2]).
  - apply tx_example_Running.
  - subst c0 c1 c2. right. split; [cbn; lia|]. cbn. split.
    + apply (bool_decide_unpack _). vm_compute. exact I.
    + repeat constructor; eexists; (split; [reflexivity|]);
        apply (bool_decide_unpack _); vm_compute; exact I.
  - lia.
  - lia.
  - reflexivity.
  - repeat constructor.
  - cbn. lia.
Defined.

(** A push that the hardware does not take whole is not repeated: the
    handler goes on, submits the buffer to USB again and returns 0; a build
    with [GENERATE_STATS] counts one overflow in a [uint32_t], the default
    build counts nothing. *)
Theorem tx_short_push_is_dropped G s read_ret c p :
  Running G s -> data (event c) = Some p -> p ∈ aio_pending s -> 0 <= read_ret ->
  full (usb_buffer_size s) c = true ->
  push_ret c <> signed32 (usb_buffer_size s) -> submit_ret c = 1 ->
  exists s',
    handle_eventfd_aio G read_ret 1 [c] s
    = Done 0 s' [Read fd_aio_event; Io_getevents 1; Memcpy_to_iio p; Iio_buffer_push;
                 Io_submit [p] 1] /\
    overflows s' = (if G then uint32 (overflows s + 1) else overflows s) /\
    Running G s'.
Proof.
  intros Hrun Hc Hin Hrr Hfull Hshort Hsub.
  pose proof (tx_Running_pool_inv G s Hrun) as Hinv.
  assert (Hk : kernel_ok G s (Ready_aio read_ret 1 [c])).
  { right. split; [cbn; lia|]. cbn. split; [apply NoDup_singleton|].
    constructor; [|constructor]. by exists p. }
  destruct (tx_fetch G s read_ret 1 [c] Hinv Hk Hrr) as (Hrun1 & _ & Hinv1 & _); [lia|].
  change (take (Z.to_nat 1) [c]) with [c] in Hrun1, Hinv1.
  assert (Hcompl : completed (event <$> [c]) = [p]) by (unfold completed; cbn; by rewrite Hc).
  rewrite Hcompl in Hrun1, Hinv1.
  destruct (tx_pool_inv_heap _ _ _ Hinv1) as [Hplt Hp].
  assert (Hrun2 : exists s',
    handle_completions G [c] (set_aio_pending (list_difference (aio_pending s) [p]) s)
    = Done 0 s' [Memcpy_to_iio p; Iio_buffer_push; Io_submit [p] 1] /\
    overflows s' = (if G then uint32 (overflows s + 1) else overflows s)).
  { cbn [handle_completions].
    unfold handle_completion, push_completion, deref, io_submit, store_in_use, deref.
    unfold full in Hfull. unfold_monad. rewrite Hc. zsimpl.
    cbn [heap set_aio_pending] in Hp.
    rewrite Hfull. zsimpl. rewrite Hp. zsimpl.
    destruct (Z.eqb_spec (push_ret c) (signed32 (usb_buffer_size s))) as [|_]; [done|].
    zsimpl. destruct G; zsimpl; rewrite Hp, Hsub; zsimpl; by eexists. }
  destruct Hrun2 as (s' & Hrun2 & Hov). rewrite Hrun2 in Hrun1.
  exists s'. split; [exact Hrun1|]. split; [exact Hov|].
  by apply (Running_dispatch G s (Ready_aio read_ret 1 [c]) 0 s'
              [Read fd_aio_event; Io_getevents 1; Memcpy_to_iio p; Iio_buffer_push;
               Io_submit [p] 1]).
Qed.

Lemma tx_short_push_is_dropped_witness :
  let c := {| event := {| data := Some 0%nat; res := 4096; res2 := 0 |};
              push_ret := 1024; submit_ret := 1 |} in
  exists s',
    handle_eventfd_aio true 8 1 [c] (pool_ready 4096)
    = Done 0 s' [Read fd_aio_event; Io_getevents 1; Memcpy_to_iio 0; Iio_buffer_push;
                 Io_submit [0%nat] 1] /\
    overflows s' = uint32 (overflows (pool_ready 4096) + 1) /\
    Running true s'.
Proof.
  intros c. apply (tx_short_push_is_dropped true (pool_ready 4096) 8 c 0).
  - apply tx_example_Running.
  - reflexivity.
  - by left.
  - lia.
  - reflexivity.
  - subst c. cbn. discriminate.
  - reflexivity.
Defined.

(** *** Cancellation *)

Local Ltac stopped_side := intros ? Hstop; exact Hstop.

Lemma tx_store_in_use_stopped buf v :
  preserves (fun s => keep_running s = false) not_teardown (store_in_use buf v).
Proof.
  unfold store_in_use, deref. preserves_tac. stopped_side.
Qed.

Lemma tx_handle_completions_stopped G cs :
  preserves (fun s => keep_running s = false) not_teardown (handle_completions G cs).
Proof.
  induction cs as [|c cs IH]; cbn [handle_completions]; [apply preserves_ret|].
  apply preserves_bind.
  - unfold handle_completion, push_completion, deref, io_submit.
    preserves_tac; try apply tx_store_in_use_stopped; stopped_side.
  - intros x. destruct (x <? 0); [apply preserves_ret | exact IH].
Qed.

(** No handler sets [keep_running]. *)
Lemma tx_dispatch_stopped G r :
  preserves (fun s => keep_running s = false) not_teardown (dispatch G r).
Proof.
  destruct r; cbn [dispatch].
  - unfold handle_eventfd_thread. preserves_tac. by intros.
  - unfold handle_eventfd_aio, io_getevents. preserves_tac; try stopped_side.
    apply tx_handle_completions_stopped.
  - unfold handle_stats_timer. preserves_tac. stopped_side.
Qed.

Lemma tx_run_handlers_stopped G rs :
  preserves (fun s => keep_running s = false) not_teardown (run_handlers G rs).
Proof.
  induction rs as [|r rs IH]; cbn [run_handlers].
  - apply preserves_ret.
  - apply preserves_bind; [apply tx_dispatch_stopped|]. intros x.
    destruct (x <? 0); [apply preserves_ret | exact IH].
Qed.

Lemma tx_run_handlers_quit G rs : forall s x s' tr,
  Ready_quit ∈ rs -> run_handlers G rs s = Done x s' tr ->
  x < 0 \/ keep_running s' = false.
Proof.
  induction rs as [|r rs IH]; intros s x s' tr Hin Hrun.
  - by apply elem_of_nil in Hin.
  - cbn [run_handlers] in Hrun.
    apply bind_Done_inv in Hrun as (x1 & s1 & tr1 & tr2 & Hd & Hrun & _).
    destruct (Z.ltb_spec x1 0) as [Hneg|Hpos].
    { injection Hrun as <- _ _. left. lia. }
    apply elem_of_cons in Hin as [<-|Hin].
    + right. cbn in Hd. injection Hd as _ <- _.
      by destruct (tx_run_handlers_stopped G rs _ _ _ _ (eq_refl : keep_running
                     (set_keep_running false s) = false) Hrun).
    + by eapply IH.
Qed.

Lemma tx_main_loop_stopped G sched s :
  keep_running s = false -> main_loop G sched s = Done true s [].
Proof. intros Hstop. destruct sched; cbn [main_loop]; unfold_monad; by rewrite Hstop. Qed.

Lemma tx_main_loop_cons G w sched s :
  main_loop G (w :: sched) s
  = if keep_running s then
      match EPOLL_LOOP_Run G w s with
      | Fault => Fault
      | Done x s1 tr1 =>
          if x <? 0 then Done true s1 (tr1 ++ [])
          else match main_loop G sched s1 with
               | Fault => Fault
               | Done b s2 tr2 => Done b s2 (tr1 ++ tr2)
               end
      end
    else Done true s [].
Proof.
  cbn [main_loop]. unfold_monad. destruct (keep_running s); [|reflexivity].
  destruct (EPOLL_LOOP_Run G w s) as [|x s1 tr1]; [reflexivity|].
  destruct (x <? 0); [reflexivity|].
  by destruct (main_loop G sched s1).
Qed.

Lemma tx_main_loop_quit G rs sched2 sched1 : forall s,
  Ready_quit ∈ rs ->
  main_loop G (sched1 ++ Epoll_ready rs :: sched2) s
  = main_loop G (sched1 ++ [Epoll_ready rs]) s /\
  forall b s' tr, main_loop G (sched1 ++ [Epoll_ready rs]) s = Done b s' tr -> b = true.
Proof.
  induction sched1 as [|w sched1 IH]; intros s Hin; cbn [app];
    rewrite !tx_main_loop_cons; destruct (keep_running s) eqn:Hkeep;
    try (split; [reflexivity | by intros b s' tr [= <- _ _]]).
  - cbn [EPOLL_LOOP_Run].
    destruct (run_handlers G rs s) as [|x s1 tr1] eqn:Hrun; [by split|].
    destruct (Z.ltb_spec x 0) as [Hneg|Hpos].
    { split; [reflexivity|]. by intros b s' tr [= <- _ _]. }
    destruct (tx_run_handlers_quit G rs _ _ _ _ Hin Hrun) as [?|Hstop]; [lia|].
    rewrite !(tx_main_loop_stopped G _ s1 Hstop).
    split; [reflexivity|]. by intros b s' tr [= <- _ _].
  - destruct (EPOLL_LOOP_Run G w s) as [|x s1 tr1]; [by split|].
    destruct (Z.ltb_spec x 0) as [Hneg|Hpos].
    { split; [reflexivity|]. by intros b s' tr [= <- _ _]. }
    destruct (IH s1 Hin) as [-> Hb]. split; [reflexivity|].
    intros b s' tr Hloop.
    destruct (main_loop G (sched1 ++ [Epoll_ready rs]) s1) as [|b1 s2 tr2] eqn:Hl; [done|].
    injection Hloop as <- _ _. by eapply Hb.
Qed.

(** A request to quit ends the engine: once a wake-up includes the
    quit eventfd, the main loop is left at the end of that wake-up, the
    wake-ups after it are never handled, and the thread function does not
    stay in its loop. *)
Theorem tx_quit_ends_engine G args env sched1 rs sched2 s0 :
  Ready_quit ∈ rs ->
  THREAD_WRITE_Entrypoint G args env (sched1 ++ Epoll_ready rs :: sched2) s0
  = THREAD_WRITE_Entrypoint G args env (sched1 ++ [Epoll_ready rs]) s0 /\
  forall k s tr,
    THREAD_WRITE_Entrypoint G args env (sched1 ++ Epoll_ready rs :: sched2) s0 = Done k s tr ->
    k <> Still_running.
Proof.
  intros Hin.
  assert (Heq : THREAD_WRITE_Entrypoint G args env (sched1 ++ Epoll_ready rs :: sched2) s0
                = THREAD_WRITE_Entrypoint G args env (sched1 ++ [Epoll_ready rs]) s0).
  { unfold THREAD_WRITE_Entrypoint. unfold_monad.
    destruct (setup G args env zero_state) as [|ok s1 tr1]; [done|].
    destruct ok; cbn [negb]; [|done].
    by destruct (tx_main_loop_quit G rs sched2 sched1 (set_keep_running true s1) Hin) as [-> _]. }
  split; [exact Heq|]. rewrite Heq. clear Heq.
  intros k s tr H. unfold THREAD_WRITE_Entrypoint in H.
  apply modify_bind_inv in H.
  apply bind_Done_inv in H as (ok & s1 & tr1 & tr2 & _ & H & _).
  destruct ok; cbn [negb] in H; [|by injection H as <-].
  apply modify_bind_inv in H.
  apply bind_Done_inv in H as (exited & s2 & tr3 & tr4 & Hloop & H & _).
  apply (proj2 (tx_main_loop_quit G rs sched2 sched1 _ Hin)) in Hloop as ->. cbn [negb] in H.
  apply bind_Done_inv in H as ([] & s3 & tr5 & tr6 & _ & H & _). by injection H as <-.
Qed.

Lemma tx_quit_ends_engine_witness :
  THREAD_WRITE_Entrypoint false example_args example_env
    ([Epoll_ready [Ready_aio 8 2 example_events]] ++
     Epoll_ready [Ready_quit] :: [Epoll_ready [Ready_aio 8 2 example_events]]) zero_state
  = THREAD_WRITE_Entrypoint false example_args example_env
      ([Epoll_ready [Ready_aio 8 2 example_events]] ++ [Epoll_ready [Ready_quit]]) zero_state /\
  forall k s tr,
    THREAD_WRITE_Entrypoint false example_args example_env
      ([Epoll_ready [Ready_aio 8 2 example_events]] ++
       Epoll_ready [Ready_quit] :: [Epoll_ready [Ready_aio 8 2 example_events]]) zero_state
    = Done k s tr ->
    k <> Still_running.
Proof.
  apply (tx_quit_ends_engine false example_args example_env
           [Epoll_ready [Ready_aio 8 2 example_events]] [Ready_quit]
           [Epoll_ready [Ready_aio 8 2 example_events]] zero_state).
  by left.
Defined.

End TxEngine.

(** ** thread_write.c: every buffer in flight *)

Section TxInFlight.
Import Tx.

(** C2, as the code has it.  Between two handlers of the running TX
    engine all 16 buffers are in flight, each once, and marked in use.  When
    the engine fetches a batch of completions, whatever they report, and
    every re-submission succeeds, the handler returns 0 having submitted
    again, once and in the order of the batch, every buffer of the batch,
    and the engine is running as before, with all 16 buffers in flight.
    When a re-submission fails, the handler returns -1 at once: the buffers
    before it in the batch have been submitted again, the buffer itself is
    marked unused and is not in flight, and neither are the buffers of the
    completions behind it, so that fewer than 16 buffers are in flight. *)
Theorem C2_tx_all_in_flight G s read_ret ret events :
  Running G s -> kernel_ok G s (Ready_aio read_ret ret events) ->
  0 <= read_ret -> 0 <= ret ->
  (length (aio_pending s) = NUM_BUFS /\ NoDup (aio_pending s) /\
   (forall i, (i < NUM_BUFS)%nat -> in_flight s i) /\
   heap s = replicate NUM_BUFS (Some {| in_use := true |})) /\
  (Forall (fun c => submit_ret c = 1) (take (Z.to_nat ret) events) ->
   exists s' tr,
     handle_eventfd_aio G read_ret ret events s = Done 0 s' tr /\
     resubmitted tr = completed (event <$> take (Z.to_nat ret) events) /\
     Running G s' /\ length (aio_pending s') = NUM_BUFS) /\
  (forall cs1 c cs2,
     take (Z.to_nat ret) events = cs1 ++ c :: cs2 ->
     Forall (fun c => submit_ret c = 1) cs1 -> submit_ret c <= 0 ->
     exists s' tr p,
       handle_eventfd_aio G read_ret ret events s = Done (-1) s' tr /\
       resubmitted tr = completed (event <$> cs1) /\
       data (event c) = Some p /\ (p ∉ aio_pending s') /\
       heap s' !! p = Some (Some {| in_use := false |}) /\
       (length (aio_pending s') + S (length cs2) = NUM_BUFS)%nat).
Proof.
  intros Hrun Hk Hrr Hret. pose proof (tx_Running_pool_inv G s Hrun) as Hinv.
  assert (Hall : forall t, Running G t -> length (aio_pending t) = NUM_BUFS /\
                   aio_pending t ≡ₚ seq 0 NUM_BUFS).
  { intros t Ht. apply tx_Running_pool_inv in Ht as [_ _ Hperm].
    rewrite app_nil_r in Hperm. split; [|done].
    apply Permutation_length in Hperm. by rewrite length_seq in Hperm. }
  split; [|split].
  - destruct (Hall s Hrun) as [Hlen Hperm]. pose proof Hinv as [Hb Hh _].
    split; [done|]. split; [rewrite Hperm; apply NoDup_seq|]. split; [|done].
    intros i Hi. exists i. split.
    + rewrite Hb, list_lookup_fmap, lookup_seq_lt by done. done.
    + rewrite Hperm. apply elem_of_seq. lia.
  - intros Hsub.
    destruct (tx_fetch G s read_ret ret events Hinv Hk Hrr Hret) as (Hrun' & Hdata & Hinv1 & _).
    destruct (tx_handle_completions_ok G _ _ _ Hdata Hinv1 Hsub)
      as (s' & tr & Hcs & _ & Hres & _).
    rewrite Hcs in Hrun'.
    assert (Hrun1 : Running G s').
    { by apply (Running_dispatch G s (Ready_aio read_ret ret events) 0 s'
                  (Read fd_aio_event :: Io_getevents ret :: tr)). }
    exists s', (Read fd_aio_event :: Io_getevents ret :: tr).
    split; [done|]. split; [done|]. split; [done|]. by apply Hall.
  - intros cs1 c cs2 Hsplit Hsub Hfail.
    destruct (tx_fetch G s read_ret ret events Hinv Hk Hrr Hret)
      as (Hrun' & Hdata & Hinv1 & Hlen).
    rewrite Hsplit in *. clear Hsplit.
    destruct (tx_data_split _ _ _ _ Hdata) as (ps1 & p & ps2 & Hps & Hdata1 & Hc & Hlen1).
    rewrite (completed_data _ _ Hdata1).
    rewrite Hps in Hinv1, Hlen, Hrun'.
    destruct (tx_handle_completions_fail G cs1 _ _ c cs2 p _ Hdata1 Hc Hinv1 Hsub Hfail)
      as (s' & tr & Hcs & Hres & Hpend & Hheap).
    rewrite Hcs in Hrun'.
    exists s', (Read fd_aio_event :: Io_getevents ret :: tr), p.
    split; [done|]. split; [done|]. split; [done|].
    destruct Hinv1 as [_ _ Hperm].
    assert (Hnd : NoDup (aio_pending
                           (set_aio_pending
                              (list_difference (aio_pending s) (ps1 ++ p :: ps2)) s)
                         ++ ps1 ++ p :: ps2)).
    { rewrite Hperm. apply NoDup_seq. }
    split; [|split; [done|]].
    + rewrite Hpend. apply NoDup_app in Hnd as (_ & Hdisj & Hnd2).
      apply NoDup_app in Hnd2 as (_ & Hdisj2 & _).
      intros Hin. apply elem_of_app in Hin as [Hin|Hin].
      * apply (Hdisj p Hin). apply elem_of_app. right. by left.
      * apply (Hdisj2 p Hin). by left.
    + rewrite Hpend, length_app. rewrite length_app in Hlen. cbn [length] in Hlen.
      cbn [aio_pending set_aio_pending] in Hlen |- *. lia.
Qed.

Lemma tx_example_kernel_ok :
  kernel_ok false (pool_ready 4096) (Ready_aio 8 2 example_events).
Proof.
  right. split; [cbn; lia|]. cbn. split.
  - apply (bool_decide_unpack _). vm_compute. exact I.
  - constructor; [|constructor; [|constructor]].
    + exists 0%nat. split; [reflexivity|]. by left.
    + exists 1%nat. split; [reflexivity|]. right. by left.
Qed.

Lemma tx_failed_kernel_ok :
  kernel_ok false (pool_ready 4096) (Ready_aio 8 2 failed_resubmission).
Proof.
  right. split; [cbn; lia|]. cbn. split.
  - apply (bool_decide_unpack _). vm_compute. exact I.
  - constructor; [|constructor; [|constructor]].
    + exists 3%nat. split; [reflexivity|]. apply (bool_decide_unpack _). vm_compute. exact I.
    + exists 7%nat. split; [reflexivity|]. apply (bool_decide_unpack _). vm_compute. exact I.
Qed.

(** The batch of [example_events]: a whole buffer and a short transfer,
    both submitted again. *)
Lemma C2_witness :
  (length (aio_pending (pool_ready 4096)) = NUM_BUFS /\
   NoDup (aio_pending (pool_ready 4096)) /\
   (forall i, (i < NUM_BUFS)%nat -> in_flight (pool_ready 4096) i) /\
   heap (pool_ready 4096) = replicate NUM_BUFS (Some {| in_use := true |})) /\
  (Forall (fun c => submit_ret c = 1) (take (Z.to_nat 2) example_events) ->
   exists s' tr,
     handle_eventfd_aio false 8 2 example_events (pool_ready 4096) = Done 0 s' tr /\
     resubmitted tr = completed (event <$> take (Z.to_nat 2) example_events) /\
     Running false s' /\ length (aio_pending s') = NUM_BUFS) /\
  (forall cs1 c cs2,
     take (Z.to_nat 2) example_events = cs1 ++ c :: cs2 ->
     Forall (fun c => submit_ret c = 1) cs1 -> submit_ret c <= 0 ->
     exists s' tr p,
       handle_eventfd_aio false 8 2 example_events (pool_ready 4096) = Done (-1) s' tr /\
       resubmitted tr = completed (event <$> cs1) /\
       data (event c) = Some p /\ (p ∉ aio_pending s') /\
       heap s' !! p = Some (Some {| in_use := false |}) /\
       (length (aio_pending s') + S (length cs2) = NUM_BUFS)%nat).
Proof.
  apply (C2_tx_all_in_flight false (pool_ready 4096) 8 2 example_events).
  - apply tx_example_Running.
  - exact tx_example_kernel_ok.
  - lia.
  - lia.
Defined.

(** C2 as the spec states it fails when a re-submission fails.  The
    running engine fetches the completions of buffers 3 and 7 and
    [io_submit] fails for buffer 3: the handler returns -1 without having
    submitted either buffer again, and 14 buffers are in flight when it
    returns, buffers 3 and 7 not among them. *)
Lemma C2_counterexample :
  Running false (pool_ready 4096) /\
  kernel_ok false (pool_ready 4096) (Ready_aio 8 2 failed_resubmission) /\
  exists s' tr,
    handle_eventfd_aio false 8 2 failed_resubmission (pool_ready 4096) = Done (-1) s' tr /\
    resubmitted tr = [] /\
    length (aio_pending s') = 14%nat /\
    ~ in_flight s' 3 /\ ~ in_flight s' 7.
Proof.
  split; [apply tx_example_Running|]. split; [exact tx_failed_kernel_ok|].
  eexists _, _. split; [vm_compute; reflexivity|].
  split; [vm_compute; reflexivity|]. split; [vm_compute; reflexivity|].
  split; intros (p & Hb & Hin); vm_compute in Hb; injection Hb as <-;
    revert Hin; apply (bool_decide_unpack _); vm_compute; exact I.
Qed.

End TxInFlight.

(** ** main.c: the session as a whole *)

Section MainSession.
Import Main.
Local Ltac zsimpl := cbn -[Z.eqb Z.leb Z.ltb Z.add Z.sub Z.of_nat Z.to_nat].

(** *** [stop_thread] and [start_thread] in closed form *)

Lemma stop_thread_run tx env s :
  stop_thread tx env s
  = if started tx s then
      if eventfd_write_ret env <? 0 then
        Done false s [Write (thread_event_fd tx); Perror (stop_write_error tx)]
      else
        let s1 := set_threads (filter (fun te => te.1 <> thread_of tx s) (threads s))
                    (created s) s in
        if eventfd_read_ret env <? 0 then
          Done false s1 [Write (thread_event_fd tx); Pthread_join tx;
                         Read (thread_event_fd tx); Perror (stop_read_error tx)]
        else
          Done true (set_started tx false s1)
               [Write (thread_event_fd tx); Pthread_join tx; Read (thread_event_fd tx)]
    else Done true s [].
Proof.
  unfold stop_thread, pthread_join. unfold_monad.
  destruct tx; cbn [started thread_of andb negb];
    [destruct (write_started s) | destruct (read_started s)]; try reflexivity.
  all: cbn [andb]; destruct (eventfd_write_ret env <? 0); [reflexivity|].
  all: destruct (eventfd_read_ret env <? 0); reflexivity.
Qed.

Lemma start_thread_run tx env s :
  start_thread tx env s
  = if sigprocmask_block_ret env <? 0 then
      Done false s [Sigprocmask; Perror "Failed to mask signals"]
    else if started tx s then
      if sigprocmask_restore_ret env <? 0 then
        Done false s [Sigprocmask; Sigprocmask; Perror "Failed to unmask signals"]
      else Done true s [Sigprocmask; Sigprocmask]
    else
      let e := engine_of tx s in
      let create :=
        Pthread_create tx (engine_channels e) (engine_buffer_size e) (pthread_create_ret env) in
      if pthread_create_ret env =? 0 then
        let s1 := set_started tx true
                    (set_thread_of tx (created s)
                       (set_threads (threads s ++ [(created s, e)]) (S (created s)) s)) in
        if sigprocmask_restore_ret env <? 0 then
          Done false s1 [Sigprocmask; create; Sigprocmask; Perror "Failed to unmask signals"]
        else Done true s1 [Sigprocmask; create; Sigprocmask]
      else
        Done false (set_started tx false s) [Sigprocmask; create; Perror (start_error tx)].
Proof.
  unfold start_thread, pthread_create. unfold_monad.
  destruct (sigprocmask_block_ret env <? 0); [reflexivity|].
  destruct tx; cbn [started andb negb];
    [destruct (write_started s) eqn:Hst | destruct (read_started s) eqn:Hst];
    cbn [andb negb].
  1,3: destruct (write_started s); cbn [andb negb];
       destruct (sigprocmask_restore_ret env <? 0); reflexivity.
  all: destruct (Z.eqb_spec (pthread_create_ret env) 0) as [Heq|Hne].
  all: try (rewrite Heq; cbn [Z.eqb negb fst snd];
            destruct (sigprocmask_restore_ret env <? 0); reflexivity).
  all: cbn [fst snd];
    destruct (Z.eqb_spec 0 (pthread_create_ret env)) as [Heq|_]; [by symmetry in Heq|];
    reflexivity.
Qed.

(** *** The invariant of the session *)

Lemma NoDup_fst_filter (P : nat * engine -> Prop) `{forall x, Decision (P x)} l :
  NoDup (fst <$> l) -> NoDup (fst <$> filter P l).
Proof.
  induction l as [|te l IH]; [done|]. cbn [fmap list_fmap].
  intros Hnd. apply NoDup_cons in Hnd as [Hte Hnd]. rewrite filter_cons.
  destruct (decide (P te)); [|by apply IH].
  cbn [fmap list_fmap]. apply NoDup_cons. split; [|by apply IH].
  intros Hin. apply Hte. apply list_elem_of_fmap in Hin as (te' & -> & Hin).
  apply list_elem_of_filter in Hin as [_ Hin]. apply list_elem_of_fmap. by exists te'.
Qed.

Lemma elem_of_engines_of tx te s :
  te ∈ engines_of tx s <-> engine_tx te.2 = tx /\ te ∈ threads s.
Proof.
  unfold engines_of.
  apply (list_elem_of_filter (fun te : nat * engine => engine_tx te.2 = tx)).
Qed.

Lemma started_set_threads tx l n s : started tx (set_threads l n s) = started tx s.
Proof. by destruct tx. Qed.

Lemma thread_of_set_threads tx l n s : thread_of tx (set_threads l n s) = thread_of tx s.
Proof. by destruct tx. Qed.

Lemma session_inv_zero : session_inv zero_state.
Proof.
  split.
  - intros tx te Hin. by apply elem_of_nil in Hin.
  - intros tx e Hst. by destruct tx.
  - intros tx Hst. by destruct tx.
  - constructor.
  - constructor.
Qed.

(** The invariant only reads the flags, the [pthread_t] and the threads. *)
Lemma session_inv_ext s s' :
  read_started s' = read_started s -> write_started s' = write_started s ->
  thread_read s' = thread_read s -> thread_write s' = thread_write s ->
  threads s' = threads s -> created s' = created s ->
  session_inv s -> session_inv s'.
Proof.
  intros H1 H2 H3 H4 H5 H6 [Hf Hd Hs Hc Hn].
  assert (Hst : forall tx, started tx s' = started tx s) by (by intros []).
  assert (Hth : forall tx, thread_of tx s' = thread_of tx s) by (by intros []).
  split.
  - intros tx te. unfold engines_of. rewrite H5, Hst, Hth. apply Hf.
  - intros tx e. rewrite H5, Hst, Hth. apply Hd.
  - intros tx. rewrite H6, Hst, Hth. apply Hs.
  - by rewrite H5, H6.
  - by rewrite H5.
Qed.

(** Joining the thread of a started direction. *)
Lemma session_inv_join tx s :
  session_inv s -> started tx s = true ->
  let s1 := set_threads (filter (fun te => te.1 <> thread_of tx s) (threads s))
              (created s) s in
  session_inv s1 /\ engines_of tx s1 = [] /\
  engines_of (negb tx) s1 = engines_of (negb tx) s.
Proof.
  intros [Hf Hd Hs Hc Hn] Hst s1. subst s1. split; [split|split].
  - intros tx' te Hin. rewrite started_set_threads, thread_of_set_threads.
    apply Hf. apply elem_of_engines_of in Hin as [He Hin]. cbn in Hin.
    apply list_elem_of_filter in Hin as [_ Hin]. by apply elem_of_engines_of.
  - intros tx' e. rewrite started_set_threads, thread_of_set_threads. cbn [threads set_threads].
    intros Hst' Hin. apply list_elem_of_filter in Hin as [_ Hin]. by eapply Hd.
  - intros tx'. rewrite started_set_threads, thread_of_set_threads. apply Hs.
  - cbn [threads created set_threads]. by apply Forall_filter_1.
  - cbn [threads set_threads]. by apply NoDup_fst_filter.
  - apply elem_of_nil_inv. intros te Hin.
    apply elem_of_engines_of in Hin as [He Hin]. cbn [threads set_threads] in Hin.
    apply list_elem_of_filter in Hin as [Hne Hin].
    destruct (Hf tx te) as [_ Heq]; [by apply elem_of_engines_of|]. done.
  - unfold engines_of. cbn [threads set_threads]. rewrite engines_of_join.
    apply filter_all. apply Forall_forall. intros te Hin Heq.
    apply list_elem_of_filter in Hin as [He Hin].
    assert (engine_tx te.2 = tx) as Htx.
    { apply Hd; [done|]. rewrite <- Heq. by destruct te. }
    rewrite Htx in He. by destruct tx.
Qed.

(** Clearing the flag of a direction without an engine. *)
Lemma session_inv_clear tx s :
  session_inv s -> engines_of tx s = [] -> session_inv (set_started tx false s).
Proof.
  intros [Hf Hd Hs Hc Hn] Hnone. split.
  - intros tx' te Hin.
    assert (Hin' : te ∈ engines_of tx' s) by (by destruct tx).
    destruct (Hf tx' te Hin') as [Hst Hth].
    destruct tx, tx'; cbn in *; try done.
    all: by rewrite Hnone in Hin'; apply elem_of_nil in Hin'.
  - intros tx' e Hst Hin. destruct tx, tx'; cbn in *; try done;
      first [by apply (Hd true e) | by apply (Hd false e)].
  - intros tx' Hst. destruct tx, tx'; cbn in *; try done;
      first [by apply (Hs true) | by apply (Hs false)].
  - by destruct tx.
  - by destruct tx.
Qed.

(** Creating the thread of a direction that is not started. *)
Lemma session_inv_create tx s :
  session_inv s -> started tx s = false ->
  let s1 := set_started tx true
              (set_thread_of tx (created s)
                 (set_threads (threads s ++ [(created s, engine_of tx s)])
                    (S (created s)) s)) in
  session_inv s1 /\ engines_of tx s1 = [(created s, engine_of tx s)] /\
  engines_of (negb tx) s1 = engines_of (negb tx) s.
Proof.
  intros [Hf Hd Hs Hc Hn] Hst s1.
  assert (Hnone : engines_of tx s = []).
  { apply elem_of_nil_inv. intros te Hin. destruct (Hf tx te Hin) as [Hst' _]. congruence. }
  assert (Hthreads : threads s1 = threads s ++ [(created s, engine_of tx s)])
    by (by destruct tx).
  assert (Hcreated : created s1 = S (created s)) by (by destruct tx).
  assert (Hown : engines_of tx s1 = [(created s, engine_of tx s)]).
  { unfold engines_of in *. rewrite Hthreads, engines_of_snoc, Hnone.
    cbn [engine_of engine_tx]. by rewrite decide_True. }
  assert (Hoth : engines_of (negb tx) s1 = engines_of (negb tx) s).
  { unfold engines_of in *. rewrite Hthreads, engines_of_snoc.
    cbn [engine_of engine_tx]. rewrite decide_False by (by destruct tx).
    by rewrite app_nil_r. }
  assert (Hfresh : forall e, (created s, e) ∉ threads s).
  { intros e Hin. rewrite Forall_forall in Hc. apply Hc in Hin. cbn in Hin. lia. }
  split; [split|done].
  - intros tx' te Hin. destruct (decide (tx' = tx)) as [->|Hne].
    + rewrite Hown in Hin. apply list_elem_of_singleton in Hin as ->.
      by destruct tx.
    + assert (tx' = negb tx) as -> by (by destruct tx, tx').
      rewrite Hoth in Hin. destruct (Hf _ _ Hin) as [Hst' Hth]. by destruct tx.
  - intros tx' e Hst' Hin. rewrite Hthreads in Hin.
    apply elem_of_app in Hin as [Hin|Hin].
    + destruct (decide (tx' = tx)) as [->|Hne].
      * exfalso. apply (Hfresh e). by destruct tx.
      * assert (tx' = negb tx) as -> by (by destruct tx, tx').
        apply Hd; by destruct tx.
    + apply list_elem_of_singleton in Hin. injection Hin as Hth ->.
      destruct (decide (tx' = tx)) as [->|Hne]; [done|].
      assert (tx' = negb tx) as -> by (by destruct tx, tx').
      exfalso. assert (Hlt : (thread_of (negb tx) s < created s)%nat).
      { apply Hs. by destruct tx. }
      replace (thread_of (negb tx) s1) with (thread_of (negb tx) s) in Hth by (by destruct tx).
      lia.
  - intros tx' Hst'. rewrite Hcreated. destruct (decide (tx' = tx)) as [->|Hne].
    + replace (thread_of tx s1) with (created s) by (by destruct tx). lia.
    + assert (tx' = negb tx) as -> by (by destruct tx, tx').
      replace (thread_of (negb tx) s1) with (thread_of (negb tx) s) by (by destruct tx).
      assert (Hlt : (thread_of (negb tx) s < created s)%nat); [|lia].
      apply Hs. by destruct tx.
  - rewrite Hthreads, Hcreated. apply Forall_app. split.
    + eapply Forall_impl; [exact Hc|]. cbn. intros. lia.
    + constructor; [cbn; lia | constructor].
  - rewrite Hthreads, fmap_app. apply NoDup_app. split; [done|]. split.
    + intros t Hin Hin'. apply list_elem_of_singleton in Hin'. cbn in Hin'. subst t.
      apply list_elem_of_fmap in Hin as ([t e] & Heq & Hin). cbn in Heq. subst t.
      by apply (Hfresh e).
    + apply NoDup_singleton.
Qed.

Lemma engines_of_none tx s : session_inv s -> started tx s = false -> engines_of tx s = [].
Proof.
  intros Hinv Hst. apply elem_of_nil_inv. intros te Hin.
  destruct (si_flagged s Hinv tx te Hin) as [Hst' _]. congruence.
Qed.

Lemma stop_thread_inv tx env : preserves session_inv not_teardown (stop_thread tx env).
Proof.
  intros s a s' tr Hinv H. rewrite stop_thread_run in H.
  destruct (started tx s) eqn:Hst.
  2:{ injection H as _ <- <-. by split. }
  destruct (eventfd_write_ret env <? 0).
  { injection H as _ <- <-. split; [done|]. by repeat constructor. }
  cbv zeta in H. destruct (session_inv_join tx s Hinv Hst) as (Hinv1 & Hnone & _).
  destruct (eventfd_read_ret env <? 0); injection H as _ <- <-.
  - split; [done|]. by repeat constructor.
  - split; [by apply session_inv_clear|]. by repeat constructor.
Qed.

Lemma start_thread_inv tx env : preserves session_inv not_teardown (start_thread tx env).
Proof.
  intros s a s' tr Hinv H. rewrite start_thread_run in H.
  destruct (sigprocmask_block_ret env <? 0).
  { injection H as _ <- <-. split; [done|]. by repeat constructor. }
  destruct (started tx s) eqn:Hst.
  { destruct (sigprocmask_restore_ret env <? 0); injection H as _ <- <-;
      (split; [done|]); by repeat constructor. }
  cbv zeta in H. destruct (session_inv_create tx s Hinv Hst) as (Hinv1 & _).
  destruct (pthread_create_ret env =? 0).
  - destruct (sigprocmask_restore_ret env <? 0); injection H as _ <- <-;
      (split; [done|]); by repeat constructor.
  - injection H as _ <- <-. split; [|by repeat constructor].
    apply session_inv_clear; [done|]. by apply engines_of_none.
Qed.

(** [handle_ep0] keeps the invariant, whatever the event and whatever the
    calls return. *)
Lemma handle_ep0_inv env : preserves session_inv not_teardown (handle_ep0 env).
Proof.
  unfold handle_ep0.
  preserves_tac; try apply stop_thread_inv; try apply start_thread_inv;
    intros s Hinv; by eapply session_inv_ext; [..|exact Hinv].
Qed.

Lemma Session_inv s : Session s -> session_inv s.
Proof.
  induction 1 as [|env s x s' tr _ IH Hrun]; [apply session_inv_zero|].
  by destruct (handle_ep0_inv env s x s' tr IH Hrun).
Qed.

(** At most one engine per direction: in every state of a session,
    whatever requests the host has sent and whatever the calls returned, no
    direction has more than one engine thread running, and a direction with
    an engine running has its started flag set and its [pthread_t] naming
    that thread. *)
Theorem main_one_engine_per_direction tx s :
  Session s ->
  (length (running_engines tx s) <= 1)%nat /\
  (running_engines tx s <> [] ->
   started tx s = true /\ running_threads tx s = [thread_of tx s]).
Proof.
  intros Hs. pose proof (Session_inv s Hs) as [Hf _ _ _ Hn].
  unfold running_engines, running_threads.
  assert (Hnd : NoDup (fst <$> engines_of tx s)) by (by apply NoDup_fst_filter).
  destruct (engines_of tx s) as [|te1 [|te2 l]] eqn:Heng.
  - split; [cbn; lia | done].
  - split; [cbn; lia|]. intros _.
    destruct (Hf tx te1) as [Hst Hth]; [rewrite Heng; by left|].
    by rewrite <- Hth.
  - exfalso.
    destruct (Hf tx te1) as [_ Hth1]; [rewrite Heng; by left|].
    destruct (Hf tx te2) as [_ Hth2]; [rewrite Heng; right; by left|].
    cbn in Hnd. apply NoDup_cons in Hnd as [Hnot _]. apply Hnot.
    rewrite Hth1, <- Hth2. by left.
Qed.

Lemma main_one_engine_per_direction_witness :
  let s := after_two (first_start stop_ok) (second_start stop_fails) zero_state in
  (length (running_engines false s) <= 1)%nat /\
  (running_engines false s <> [] ->
   started false s = true /\ running_threads false s = [thread_of false s]).
Proof.
  intros s. apply (main_one_engine_per_direction false s).
  eapply (Session_event (second_start stop_fails)).
  - eapply (Session_event (first_start stop_ok)); [apply Session_start|].
    vm_compute. reflexivity.
  - vm_compute. reflexivity.
Defined.

(** *** Stopping and starting in a session *)

(** [stop_thread] whose calls succeed, in any state of a session. *)
Lemma stop_thread_success tx env s :
  session_inv s -> 0 <= eventfd_write_ret env -> 0 <= eventfd_read_ret env ->
  exists s',
    stop_thread tx env s
    = Done true s'
        (if started tx s
         then [Write (thread_event_fd tx); Pthread_join tx; Read (thread_event_fd tx)]
         else []) /\
    session_inv s' /\ started tx s' = false /\ engines_of tx s' = [] /\
    engines_of (negb tx) s' = engines_of (negb tx) s /\
    started (negb tx) s' = started (negb tx) s /\
    config_enabled s' = config_enabled s /\
    read_args s' = read_args s /\ write_args s' = write_args s.
Proof.
  intros Hinv Hwr Hrd. rewrite stop_thread_run.
  destruct (started tx s) eqn:Hst.
  2:{ exists s. split; [done|]. split; [done|]. split; [done|].
      split; [by apply engines_of_none|]. done. }
  destruct (Z.ltb_spec (eventfd_write_ret env) 0); [lia|].
  destruct (Z.ltb_spec (eventfd_read_ret env) 0); [lia|]. cbv zeta.
  destruct (session_inv_join tx s Hinv Hst) as (Hinv1 & Hnone & Hoth).
  eexists. split; [reflexivity|].
  split; [by apply session_inv_clear|].
  split; [by destruct tx|]. split; [by destruct tx|].
  split; [by destruct tx|]. by destruct tx.
Qed.


Lemma threads_none s : engines_of false s = [] -> engines_of true s = [] -> threads s = [].
Proof.
  intros Hrx Htx. apply elem_of_nil_inv. intros te Hin.
  destruct (engine_tx te.2) eqn:He.
  - apply (elem_of_nil te). rewrite <- Htx. by apply elem_of_engines_of.
  - apply (elem_of_nil te). rewrite <- Hrx. by apply elem_of_engines_of.
Qed.

(** Where the flag of a direction names a running thread, this thread is
    the one engine of the direction, and it is not a thread of the other
    direction. *)
Lemma joinable_running tx s :
  session_inv s -> joinable tx s ->
  running_threads tx s = (if started tx s then [thread_of tx s] else []).
Proof.
  intros Hinv Hj. destruct (started tx s) eqn:Hst.
  2:{ unfold running_threads. by rewrite engines_of_none. }
  specialize (Hj Hst). destruct Hinv as [Hf _ _ _ Hn].
  assert (Hnd : NoDup (running_threads tx s)) by (by apply NoDup_fst_filter).
  assert (Hall : forall t, t ∈ running_threads tx s -> t = thread_of tx s).
  { intros t Ht. apply list_elem_of_fmap in Ht as (te & -> & Hte).
    by destruct (Hf tx te Hte). }
  destruct (running_threads tx s) as [|t1 [|t2 l]].
  - by apply elem_of_nil in Hj.
  - f_equal. apply Hall. by left.
  - exfalso. apply NoDup_cons in Hnd as [Hnot _]. apply Hnot.
    rewrite (Hall t1), (Hall t2); [by left | right; by left | by left].
Qed.

Lemma joinable_not_other tx s :
  session_inv s -> started tx s = true -> thread_of tx s ∉ running_threads (negb tx) s.
Proof.
  intros [_ Hd _ _ _] Hst Hin.
  apply list_elem_of_fmap in Hin as ([t e] & Ht & Hte). cbn in Ht. subst t.
  apply elem_of_engines_of in Hte as [He Hte]. cbn in He.
  specialize (Hd tx e Hst Hte). rewrite Hd in He. by destruct tx.
Qed.

(** FUNCTIONFS_DISABLE stops both engines: in a state of a session in
    which the flag of each started direction names a running thread, when
    the configuration is enabled and the calls of both stops succeed, the
    handler signals, joins and drains each engine that is started, RX
    first, leaves no engine thread running and both flags clear, marks the
    configuration disabled and returns 0.  The thread that each join names
    is the one running engine of its direction. *)
Theorem disable_stops_both_engines env s :
  Session s -> joinable false s -> joinable true s ->
  disable_event env -> config_enabled s = true ->
  0 <= eventfd_write_ret (stop_first env) -> 0 <= eventfd_read_ret (stop_first env) ->
  0 <= eventfd_write_ret (stop_second env) -> 0 <= eventfd_read_ret (stop_second env) ->
  running_threads false s = (if read_started s then [thread_read s] else []) /\
  running_threads true s = (if write_started s then [thread_write s] else []) /\
  exists s',
    handle_ep0 env s
    = Done 0 s'
        (Read fd_ep0 ::
         (if read_started s
          then [Write fd_read_thread_event; Pthread_join false; Read fd_read_thread_event]
          else []) ++
         (if write_started s
          then [Write fd_write_thread_event; Pthread_join true; Read fd_write_thread_event]
          else [])) /\
    threads s' = [] /\ read_started s' = false /\ write_started s' = false /\
    config_enabled s' = false.
Proof.
  intros Hs Hjr Hjw [Hev Hty] Hcfg Hw1 Hr1 Hw2 Hr2. pose proof (Session_inv s Hs) as Hinv.
  split; [exact (joinable_running false s Hinv Hjr)|].
  split; [exact (joinable_running true s Hinv Hjw)|].
  destruct (stop_thread_success false (stop_first env) s Hinv Hw1 Hr1)
    as (s1 & Hstop1 & Hinv1 & Hst1 & Hnone1 & Hoth1 & Hsto1 & Hcfg1 & _).
  destruct (stop_thread_success true (stop_second env) s1 Hinv1 Hw2 Hr2)
    as (s2 & Hstop2 & Hinv2 & Hst2 & Hnone2 & Hoth2 & Hsto2 & Hcfg2 & _).
  cbn [negb started thread_event_fd] in *.
  unfold handle_ep0. unfold_monad. rewrite Hev, Hty. cbn -[stop_thread].
  rewrite Hcfg, Hstop1. cbn -[stop_thread]. rewrite Hstop2. cbn -[stop_thread].
  eexists. split.
  { f_equal. rewrite Hsto1. by rewrite !app_nil_r. }
  cbn. split; [|by rewrite Hst2, Hsto2, Hst1].
  apply threads_none; [by rewrite Hoth2|done].
Qed.

Lemma receiving_Session : Session receiving.
Proof.
  eapply (Session_event (first_start stop_ok)).
  - eapply (Session_event (function_event FUNCTIONFS_ENABLE)); [apply Session_start|].
    vm_compute. reflexivity.
  - vm_compute. reflexivity.
Qed.

Lemma receiving_joinable tx : joinable tx receiving.
Proof.
  destruct tx; intros Hst; [discriminate Hst|].
  apply (bool_decide_unpack _). vm_compute. exact I.
Qed.

Lemma disable_stops_both_engines_witness :
  running_threads false receiving
  = (if read_started receiving then [thread_read receiving] else []) /\
  running_threads true receiving
  = (if write_started receiving then [thread_write receiving] else []) /\
  exists s',
    handle_ep0 (function_event FUNCTIONFS_DISABLE) receiving
    = Done 0 s'
        (Read fd_ep0 ::
         (if read_started receiving
          then [Write fd_read_thread_event; Pthread_join false; Read fd_read_thread_event]
          else []) ++
         (if write_started receiving
          then [Write fd_write_thread_event; Pthread_join true; Read fd_write_thread_event]
          else [])) /\
    threads s' = [] /\ read_started s' = false /\ write_started s' = false /\
    config_enabled s' = false.
Proof.
  apply (disable_stops_both_engines (function_event FUNCTIONFS_DISABLE) receiving).
  - apply receiving_Session.
  - apply receiving_joinable.
  - apply receiving_joinable.
  - by split.
  - reflexivity.
  - cbn. lia.
  - cbn. lia.
  - cbn. lia.
  - cbn. lia.
Defined.



(** *** Requests *)







(** *** The end of [main] *)

(** [main] leaves no engine behind: from a state of a session in which
    the flag of each started direction names a running thread, when the
    calls of both stops succeed, the end of [main] signals, joins and
    drains each engine that is started, RX first, before it closes its
    files, and returns 0 with no engine thread running.  The thread that
    each join names is the one running engine of its direction. *)
Theorem main_shutdown_joins_engines env_rx env_tx s :
  Session s -> joinable false s -> joinable true s ->
  0 <= eventfd_write_ret env_rx -> 0 <= eventfd_read_ret env_rx ->
  0 <= eventfd_write_ret env_tx -> 0 <= eventfd_read_ret env_tx ->
  running_threads false s = (if read_started s then [thread_read s] else []) /\
  running_threads true s = (if write_started s then [thread_write s] else []) /\
  exists s',
    shutdown env_rx env_tx s
    = Done 0 s'
        ((if read_started s
          then [Write fd_read_thread_event; Pthread_join false; Read fd_read_thread_event]
          else []) ++
         (if write_started s
          then [Write fd_write_thread_event; Pthread_join true; Read fd_write_thread_event]
          else []) ++
         [Close fd_epoll; Close fd_read_thread_event; Close fd_write_thread_event;
          Close fd_ep0; Printf "Bye!" []]) /\
    threads s' = [] /\ read_started s' = false /\ write_started s' = false.
Proof.
  intros Hs Hjr Hjw Hw1 Hr1 Hw2 Hr2. pose proof (Session_inv s Hs) as Hinv.
  split; [exact (joinable_running false s Hinv Hjr)|].
  split; [exact (joinable_running true s Hinv Hjw)|].
  destruct (stop_thread_success false env_rx s Hinv Hw1 Hr1)
    as (s1 & Hstop1 & Hinv1 & Hst1 & Hnone1 & Hoth1 & Hsto1 & _).
  destruct (stop_thread_success true env_tx s1 Hinv1 Hw2 Hr2)
    as (s2 & Hstop2 & Hinv2 & Hst2 & Hnone2 & Hoth2 & Hsto2 & _).
  cbn [negb started thread_event_fd] in *.
  unfold shutdown. unfold_monad. rewrite Hstop1, Hstop2. cbn -[app].
  exists s2. split; [by rewrite Hsto1|].
  split; [|by rewrite Hst2, Hsto2, Hst1].
  apply threads_none; [by rewrite Hoth2|done].
Qed.

Lemma main_shutdown_joins_engines_witness :
  running_threads false receiving
  = (if read_started receiving then [thread_read receiving] else []) /\
  running_threads true receiving
  = (if write_started receiving then [thread_write receiving] else []) /\
  exists s',
    shutdown stop_ok stop_ok receiving
    = Done 0 s'
        ((if read_started receiving
          then [Write fd_read_thread_event; Pthread_join false; Read fd_read_thread_event]
          else []) ++
         (if write_started receiving
          then [Write fd_write_thread_event; Pthread_join true; Read fd_write_thread_event]
          else []) ++
         [Close fd_epoll; Close fd_read_thread_event; Close fd_write_thread_event;
          Close fd_ep0; Printf "Bye!" []]) /\
    threads s' = [] /\ read_started s' = false /\ write_started s' = false.
Proof.
  apply (main_shutdown_joins_engines stop_ok stop_ok receiving).
  - apply receiving_Session.
  - apply receiving_joinable.
  - apply receiving_joinable.
  - cbn. lia.
  - cbn. lia.
  - cbn. lia.
  - cbn. lia.
Defined.

End MainSession.

(** ** main.c: a START for a direction that is started *)

Section Restart.
Import Main.

(** [stop_thread] in a state whose flags agree with the threads keeps
    them in agreement and leaves the other direction alone, unless the
    read of the eventfd fails after the join. *)
Lemma stop_thread_keeps tx env s :
  session_ok s ->
  (started tx s = true -> 0 <= eventfd_write_ret env -> 0 <= eventfd_read_ret env) ->
  exists b s' tr,
    stop_thread tx env s = Done b s' tr /\ session_ok s' /\
    engines_of (negb tx) s' = engines_of (negb tx) s /\
    read_args s' = read_args s /\ write_args s' = write_args s.
Proof.
  intros Hok Hrd. destruct (started tx s) eqn:Hst.
  2:{ exists true, s, []. by rewrite stop_thread_idle. }
  destruct (Z.ltb_spec (eventfd_write_ret env) 0) as [Hw|Hw].
  - rewrite stop_thread_run, Hst.
    destruct (Z.ltb_spec (eventfd_write_ret env) 0); [|lia].
    by eexists _, s, _.
  - destruct (stop_thread_running tx env s Hok Hst Hw (Hrd eq_refl Hw))
      as (s' & Hrun & _ & _ & Hoth & _ & _ & Hra & Hwa & _ & Hok').
    by exists true, s', [Write (thread_event_fd tx); Pthread_join tx; Read (thread_event_fd tx)].
Qed.

(** [start_thread] keeps them in agreement whatever its calls return. *)
Lemma start_thread_keeps tx env s :
  session_ok s ->
  exists b s' tr,
    start_thread tx env s = Done b s' tr /\ session_ok s' /\
    engines_of (negb tx) s' = engines_of (negb tx) s.
Proof.
  intros Hok.
  destruct (Z.ltb_spec (sigprocmask_block_ret env) 0) as [Hb|Hb].
  { rewrite start_thread_run. destruct (Z.ltb_spec (sigprocmask_block_ret env) 0); [|lia].
    by eexists _, s, _. }
  destruct (started tx s) eqn:Hst.
  { rewrite start_thread_run, Hst.
    destruct (Z.ltb_spec (sigprocmask_block_ret env) 0); [lia|].
    destruct (sigprocmask_restore_ret env <? 0); by eexists _, s, _. }
  destruct (Z.eqb_spec (pthread_create_ret env) 0) as [Hc|Hc].
  { destruct (start_thread_fresh tx env s Hok Hst Hb Hc)
      as (s' & Hrun & _ & _ & Hoth & _ & _ & _ & _ & Hok').
    by eexists _, s', _. }
  rewrite start_thread_run, Hst.
  destruct (Z.ltb_spec (sigprocmask_block_ret env) 0); [lia|]. cbv zeta.
  destruct (Z.eqb_spec (pthread_create_ret env) 0); [done|].
  eexists _, _, _. split; [reflexivity|]. split.
  - eapply session_ok_ext; [..|exact Hok]; by destruct tx; cbn in *; rewrite ?Hst.
  - by destruct tx.
Qed.

(** A well-formed START in such a state, whatever its calls return. *)
Lemma handle_start_keeps tx channels size env s :
  session_ok s -> start_request tx channels size env ->
  (started tx s = true ->
   0 <= eventfd_write_ret (stop_first env) -> 0 <= eventfd_read_ret (stop_first env)) ->
  exists s' tr,
    handle_ep0 env s = Done 0 s' tr /\ session_ok s' /\
    engines_of (negb tx) s' = engines_of (negb tx) s.
Proof.
  intros Hok [Hev Hty Hout Hreq Htgt Hcnt Hch Hsz] Hrd.
  destruct (stop_thread_keeps tx (stop_first env) s Hok Hrd)
    as (b1 & s1 & tr1 & Hstop & Hok1 & Hoth1 & _).
  unfold handle_ep0. unfold_monad. rewrite Hev, Hty, Hout, Hreq, Hcnt, Htgt.
  replace (SDR_USB_GADGET_COMMAND_TARGET_TX =?
           (if tx then SDR_USB_GADGET_COMMAND_TARGET_TX else SDR_USB_GADGET_COMMAND_TARGET_RX))
    with tx by (by destruct tx).
  cbn -[stop_thread start_thread]. rewrite Hstop.
  destruct tx; cbn -[stop_thread start_thread].
  - set (s2 := set_write_args _ s1).
    assert (Hok2 : session_ok s2) by (by eapply session_ok_ext; [..|exact Hok1]).
    destruct (start_thread_keeps true (start env) s2 Hok2) as (b & s' & tr & Hstart & Hok' & Hoth').
    rewrite Hstart. eexists _, _. split; [reflexivity|]. split; [done|].
    exact (eq_trans Hoth' Hoth1).
  - set (s2 := set_read_args _ s1).
    assert (Hok2 : session_ok s2) by (by eapply session_ok_ext; [..|exact Hok1]).
    destruct (start_thread_keeps false (start env) s2 Hok2) as (b & s' & tr & Hstart & Hok' & Hoth').
    rewrite Hstart. eexists _, _. split; [reflexivity|]. split; [done|].
    exact (eq_trans Hoth' Hoth1).
Qed.

(** C6, as the code has it.  Two STARTs in a row for one direction, from
    a state whose flags agree with the threads.  Whatever the calls of the
    first START return (short of a failed read of the eventfd after the
    join, which leaves the flag set for a thread that has been joined), the
    flags agree with the threads when the second START arrives.  When the
    calls of the stop implied by the second START succeed and its thread
    can be created (the [sigprocmask] that blocks the signals succeeds and
    [pthread_create] returns 0), the second START signals, joins and drains
    the engine if the direction is started, clears its flag, and only then
    creates the new thread; afterwards exactly one engine of the direction
    is running, with the arguments of the second START, and the engines of
    the other direction are as before.  When the first START has replaced
    or started the engine in the same way, the engine that the second one
    stops is that of the first.  Whether the [sigprocmask] that restores
    the signal mask succeeds does not matter: it comes after the thread has
    been created, and its failure is only reported. *)
Theorem C6_restart_replaces_engine tx s env1 env2 ch1 sz1 ch2 sz2 :
  session_ok s ->
  start_request tx ch1 sz1 env1 ->
  (started tx s = true ->
   0 <= eventfd_write_ret (stop_first env1) -> 0 <= eventfd_read_ret (stop_first env1)) ->
  start_request tx ch2 sz2 env2 -> engine_replaced env2 ->
  exists s1 tr1 s2,
    handle_ep0 env1 s = Done 0 s1 tr1 /\ session_ok s1 /\
    (engine_replaced env1 -> started tx s1 = true /\ running_engines tx s1 = [(ch1, sz1)]) /\
    handle_ep0 env2 s1
    = Done 0 s2 ([Read fd_ep0; Read fd_ep0] ++
                 (if started tx s1
                  then [Write (thread_event_fd tx); Pthread_join tx; Read (thread_event_fd tx)]
                  else []) ++
                 [Sigprocmask; Pthread_create tx ch2 sz2 0; Sigprocmask] ++
                 restore_error env2) /\
    started tx s2 = true /\ running_engines tx s2 = [(ch2, sz2)] /\
    args_of tx s2 = (ch2, sz2) /\
    running_engines (negb tx) s2 = running_engines (negb tx) s.
Proof.
  intros Hok Hreq1 Hrd1 Hreq2 Hcs2.
  destruct (handle_start_keeps tx ch1 sz1 env1 s Hok Hreq1 Hrd1)
    as (s1 & tr1 & Hrun1 & Hok1 & Hoth1).
  destruct (handle_start tx ch2 sz2 env2 s1 Hok1 Hreq2 Hcs2)
    as (s2 & Hrun2 & Hst2 & Heng2 & Hargs2 & Hoth2 & _ & _).
  exists s1, tr1, s2. split; [exact Hrun1|]. split; [exact Hok1|]. split.
  { intros Hcs1.
    destruct (handle_start tx ch1 sz1 env1 s Hok Hreq1 Hcs1)
      as (s1' & Hrun1' & Hst1 & Heng1 & _).
    rewrite Hrun1 in Hrun1'. by injection Hrun1' as -> _. }
  split; [exact Hrun2|]. split; [done|]. split; [done|]. split; [done|].
  unfold running_engines. by rewrite Hoth2, Hoth1.
Qed.

(** The second START replaces the engine of the first although the
    [sigprocmask] that restores the signal mask fails. *)
Lemma C6_witness :
  exists s1 tr1 s2,
    handle_ep0 (first_start stop_ok) zero_state = Done 0 s1 tr1 /\ session_ok s1 /\
    (engine_replaced (first_start stop_ok) ->
     started false s1 = true /\ running_engines false s1 = [(3, 1024)]) /\
    handle_ep0 (with_start restore_fails (second_start stop_ok)) s1
    = Done 0 s2 ([Read fd_ep0; Read fd_ep0] ++
                 (if started false s1
                  then [Write (thread_event_fd false); Pthread_join false;
                        Read (thread_event_fd false)]
                  else []) ++
                 [Sigprocmask; Pthread_create false 1 2048 0; Sigprocmask] ++
                 restore_error (with_start restore_fails (second_start stop_ok))) /\
    started false s2 = true /\ running_engines false s2 = [(1, 2048)] /\
    args_of false s2 = (1, 2048) /\
    running_engines (negb false) s2 = running_engines (negb false) zero_state.
Proof.
  apply (C6_restart_replaces_engine false zero_state
           (first_start stop_ok) (with_start restore_fails (second_start stop_ok))
           3 1024 1 2048).
  - exact session_zero.
  - apply first_start_request.
  - cbn. lia.
  - apply with_start_request, second_start_request.
  - split; cbn; lia.
Defined.

(** C6 as the spec states it fails when the thread of the second START
    cannot be created: [start_thread] reports the failure of
    [pthread_create], or returns at once when the [sigprocmask] that blocks
    the signals fails, and after the two STARTs no RX engine is running.
    These are the error paths of [start_thread].

    It also fails when a call of the implied stop fails, because
    [handle_ep0] does not look at what [stop_thread] returns (the
    FUNCTIONFS_DISABLE branch does): when the write to the eventfd fails
    the flag stays set, [start_thread] creates nothing, and the RX engine
    that is running is the first one, with the arguments of the first
    START; when the read of the eventfd fails the first engine has been
    joined but the flag stays set, and no RX engine is running. *)
Lemma C6_counterexample :
  start_request false 3 1024 (first_start stop_ok) /\
  (start_request false 1 2048 (with_start create_fails (second_start stop_ok)) /\
   running_engines false
     (after_two (first_start stop_ok) (with_start create_fails (second_start stop_ok))
        zero_state) = []) /\
  (start_request false 1 2048 (with_start block_fails (second_start stop_ok)) /\
   running_engines false
     (after_two (first_start stop_ok) (with_start block_fails (second_start stop_ok))
        zero_state) = []) /\
  (start_request false 1 2048 (second_start stop_fails) /\
   running_engines false
     (after_two (first_start stop_ok) (second_start stop_fails) zero_state)
   = [(3, 1024)]) /\
  (start_request false 1 2048 (second_start stop_read_fails) /\
   running_engines false
     (after_two (first_start stop_ok) (second_start stop_read_fails) zero_state) = []).
Proof.
  split; [apply first_start_request|].
  split; [split; [apply with_start_request, second_start_request | vm_compute; reflexivity]|].
  split; [split; [apply with_start_request, second_start_request | vm_compute; reflexivity]|].
  split; [split; [apply second_start_request | vm_compute; reflexivity]|].
  split; [apply second_start_request | vm_compute; reflexivity].
Qed.

End Restart.

(** ** The set-up of the engines *)

Section SetUp.

(** The test [channels & (1U << i)] of the code reads bit [i]. *)
Lemma land_bit channels (i : nat) :
  negb (Z.land channels (Z.shiftl 1 (Z.of_nat i)) =? 0) = Z.testbit channels (Z.of_nat i).
Proof.
  rewrite Z.shiftl_1_l.
  destruct (Z.testbit channels (Z.of_nat i)) eqn:Hbit.
  - destruct (Z.eqb_spec (Z.land channels (2 ^ Z.of_nat i)) 0) as [Heq|]; [|done].
    exfalso. apply (f_equal (fun x => Z.testbit x (Z.of_nat i))) in Heq.
    rewrite Z.land_spec, Hbit, Z.pow2_bits_eqb, Z.eqb_refl, Z.bits_0 in Heq by lia.
    discriminate.
  - destruct (Z.eqb_spec (Z.land channels (2 ^ Z.of_nat i)) 0) as [|Hne]; [done|].
    exfalso. apply Hne. apply Z.bits_inj'. intros n Hn.
    rewrite Z.land_spec, Z.pow2_bits_eqb, Z.bits_0 by lia.
    destruct (Z.eqb_spec (Z.of_nat i) n) as [<-|_]; [by rewrite Hbit|].
    apply andb_false_r.
Qed.

Lemma enabled_app tr1 tr2 : enabled (tr1 ++ tr2) = enabled tr1 ++ enabled tr2.
Proof. apply omap_app. Qed.

Lemma enabled_fmap l : enabled (Iio_channel_enable <$> l) = l.
Proof. induction l as [|i l IH]; [done|]. cbn. by f_equal. Qed.

Lemma enabled_quiet tr : Forall (fun c => enabled [c] = []) tr -> enabled tr = [].
Proof.
  induction 1 as [|c tr Hc _ IH]; [done|].
  change (c :: tr) with ([c] ++ tr). by rewrite enabled_app, Hc, IH.
Qed.

End SetUp.

Section RxSetUp.
Import RingBuffer Rx.

Lemma rx_enable_channels_trace channels found ixs : forall s s' tr,
  enable_channels channels found ixs s = Done true s' tr ->
  tr = Iio_channel_enable <$> filter (fun i => Z.testbit channels (Z.of_nat i) = true) ixs /\
  Forall (fun i => found i = true)
         (filter (fun i => Z.testbit channels (Z.of_nat i) = true) ixs).
Proof.
  induction ixs as [|i ixs IH]; intros s s' tr H; cbn [enable_channels] in H.
  - injection H as _ <-. by split.
  - rewrite land_bit in H. rewrite filter_cons.
    destruct (Z.testbit channels (Z.of_nat i)) eqn:Hbit.
    + rewrite decide_True by done. destruct (found i) eqn:Hfound; cbn [negb] in H.
      * apply emit_bind_inv in H as (tr2 & H & ->).
        destruct (IH _ _ _ H) as [-> Hall]. split; [done|]. by constructor.
      * by apply emit_ret_inv in H as [? _].
    + rewrite decide_False by done. by apply IH in H.
Qed.

Lemma rx_setup_stats_trace env s s' tr :
  setup_stats env s = Done true s' tr ->
  tr = [Timerfd_create; Timerfd_settime; Epoll_ctl_add fd_stats_timer].
Proof.
  unfold setup_stats. intros H.
  apply emit_bind_inv in H as (? & H & ->).
  destruct (timerfd_create_ret env <? 0); [by apply emit_ret_inv in H as [? _]|].
  apply emit_bind_inv in H as (? & H & ->).
  destruct (timerfd_settime_ret env <? 0); [by apply emit_ret_inv in H as [? _]|].
  apply emit_bind_inv in H as (? & H & ->).
  destruct (epoll_ctl_timer_ret env <? 0); [by apply emit_ret_inv in H as [? _]|].
  by injection H as _ <-.
Qed.

(** The calls of a set-up that reaches the main loop: the epoll instance
    and the quit eventfd, the IIO context and device, every channel
    disabled and then the channels that the mask selects enabled, in
    increasing order (each of them exists), the IIO buffer for the
    requested number of samples, the AIO context and its eventfd, the 16
    allocations, and the statistics timer in a build with
    [GENERATE_STATS]; the transfer size is the sample size times the number
    of samples, as a [size_t]. *)
Theorem rx_setup_calls G args env s tr :
  setup G args env zero_state = Done true s tr ->
  tr = [Epoll_create1; Epoll_ctl_add fd_quit_event; Iio_create_local_context;
        Iio_context_find_device; Iio_channel_disable_all] ++
       (Iio_channel_enable <$> selected (iio_channels args)) ++
       [Iio_device_create_buffer (iio_buffer_size args); Epoll_ctl_add fd_iio_buffer;
        Io_setup NUM_BUFS; Eventfd; Epoll_ctl_add fd_aio_event] ++
       replicate NUM_BUFS (Malloc true) ++
       (if G then [Timerfd_create; Timerfd_settime; Epoll_ctl_add fd_stats_timer] else []) /\
  Forall (fun i => iio_channel_found env i = true) (selected (iio_channels args)) /\
  enabled tr = selected (iio_channels args) /\
  usb_buffer_size s = size_t (iio_buffer_step env * iio_buffer_size args).
Proof.
  intros H. pose proof (setup_ready G args env s tr H) as [Hs _].
  set (size := size_t (iio_buffer_step env * iio_buffer_size args)) in *.
  unfold setup in H.
  apply emit_bind_inv in H as (? & H & ->).
  destruct (epoll_create1_ret env <? 0); [by apply emit_ret_inv in H as [? _]|].
  apply emit_bind_inv in H as (? & H & ->).
  destruct (epoll_ctl_quit_ret env <? 0); [by apply emit_ret_inv in H as [? _]|].
  apply emit_bind_inv in H as (? & H & ->).
  destruct (negb (iio_ctx_found env)); [by apply emit_ret_inv in H as [? _]|].
  apply emit_bind_inv in H as (? & H & ->).
  destruct (negb (iio_dev_found env)); [by apply emit_ret_inv in H as [? _]|].
  apply emit_bind_inv in H as (? & H & ->).
  apply bind_Done_inv in H as (en & s1 & tr_en & ? & Hen & H & ->).
  pose proof (enable_channels_state _ _ _ _ _ _ _ Hen) as ->.
  destruct en; cbn [negb] in H; [|by injection H].
  apply rx_enable_channels_trace in Hen as [-> Hfound].
  apply emit_bind_inv in H as (? & H & ->).
  destruct (negb (iio_buffer_created env)); [by apply emit_ret_inv in H as [? _]|].
  apply emit_bind_inv in H as (? & H & ->).
  destruct (epoll_ctl_iio_ret env <? 0); [by apply emit_ret_inv in H as [? _]|].
  apply modify_bind_inv in H.
  apply emit_bind_inv in H as (? & H & ->).
  destruct (io_setup_ret env <? 0); [by apply emit_ret_inv in H as [? _]|].
  apply emit_bind_inv in H as (? & H & ->).
  destruct (eventfd_ret env <? 0); [by apply emit_ret_inv in H as [? _]|].
  apply emit_bind_inv in H as (? & H & ->).
  destruct (epoll_ctl_aio_ret env <? 0); [by apply emit_ret_inv in H as [? _]|].
  apply modify_bind_inv in H.
  apply bind_Done_inv in H as (r & s2 & tr2 & tr3 & Halloc & H & ->).
  change (allocate_buffers env (seq 0 NUM_BUFS) (pool_empty size) = Done r s2 tr2)
    in Halloc.
  destruct r as [idxs|]; [|by injection H].
  pose proof (allocate_buffers_ok _ _ _ _ _ _ Halloc) as Hok.
  rewrite (allocate_buffers_run env size Hok) in Halloc.
  injection Halloc as _ _ <-.
  assert (Htr3 : tr3 = if G then [Timerfd_create; Timerfd_settime;
                                  Epoll_ctl_add fd_stats_timer] else []).
  { destruct G; [by apply rx_setup_stats_trace in H | by injection H]. }
  rewrite Htr3. fold (selected (iio_channels args)) in Hfound |- *.
  match goal with |- ?t = ?rhs /\ _ => assert (Htr : t = rhs) by reflexivity end.
  split; [exact Htr|]. split; [exact Hfound|]. split; [|by rewrite Hs].
  rewrite Htr, !enabled_app, enabled_fmap.
  generalize (selected (iio_channels args)). intros l.
  destruct G; cbn; by rewrite ?app_nil_r.
Qed.

Lemma rx_setup_calls_witness :
  let tr := trace_of (setup false example_args example_env zero_state) in
  let s := set_keep_running false (pool_ready 4096) in
  tr = [Epoll_create1; Epoll_ctl_add fd_quit_event; Iio_create_local_context;
        Iio_context_find_device; Iio_channel_disable_all] ++
       (Iio_channel_enable <$> selected (iio_channels example_args)) ++
       [Iio_device_create_buffer (iio_buffer_size example_args); Epoll_ctl_add fd_iio_buffer;
        Io_setup NUM_BUFS; Eventfd; Epoll_ctl_add fd_aio_event] ++
       replicate NUM_BUFS (Malloc true) ++
       (if false then [Timerfd_create; Timerfd_settime; Epoll_ctl_add fd_stats_timer]
        else []) /\
  Forall (fun i => iio_channel_found example_env i = true)
         (selected (iio_channels example_args)) /\
  enabled tr = selected (iio_channels example_args) /\
  usb_buffer_size s = size_t (iio_buffer_step example_env * iio_buffer_size example_args).
Proof.
  intros tr s. apply (rx_setup_calls false example_args example_env s tr).
  vm_compute. reflexivity.
Defined.

End RxSetUp.

Section TxSetUp.
Import Tx.

Lemma tx_enable_channels_trace channels found ixs : forall s s' tr,
  enable_channels channels found ixs s = Done true s' tr ->
  tr = Iio_channel_enable <$> filter (fun i => Z.testbit channels (Z.of_nat i) = true) ixs /\
  Forall (fun i => found i = true)
         (filter (fun i => Z.testbit channels (Z.of_nat i) = true) ixs).
Proof.
  induction ixs as [|i ixs IH]; intros s s' tr H; cbn [enable_channels] in H.
  - injection H as _ <-. by split.
  - rewrite land_bit in H. rewrite filter_cons.
    destruct (Z.testbit channels (Z.of_nat i)) eqn:Hbit.
    + rewrite decide_True by done. destruct (found i) eqn:Hfound; cbn [negb] in H.
      * apply emit_bind_inv in H as (tr2 & H & ->).
        destruct (IH _ _ _ H) as [-> Hall]. split; [done|]. by constructor.
      * by apply emit_ret_inv in H as [? _].
    + rewrite decide_False by done. by apply IH in H.
Qed.

Lemma tx_setup_stats_trace env s s' tr :
  setup_stats env s = Done true s' tr ->
  tr = [Timerfd_create; Timerfd_settime; Epoll_ctl_add fd_stats_timer].
Proof.
  unfold setup_stats. intros H.
  apply emit_bind_inv in H as (? & H & ->).
  destruct (timerfd_create_ret env <? 0); [by apply emit_ret_inv in H as [? _]|].
  apply emit_bind_inv in H as (? & H & ->).
  destruct (timerfd_settime_ret env <? 0); [by apply emit_ret_inv in H as [? _]|].
  apply emit_bind_inv in H as (? & H & ->).
  destruct (epoll_ctl_timer_ret env <? 0); [by apply emit_ret_inv in H as [? _]|].
  by injection H as _ <-.
Qed.

(** The calls of a set-up that reaches the main loop: as for the RX
    engine, without the registration of the IIO buffer, and with one
    [io_submit] at the end that queues the 16 buffers, in the order of
    [buffers], and returns 16. *)
Theorem tx_setup_calls G args env s tr :
  setup G args env zero_state = Done true s tr ->
  tr = [Epoll_create1; Epoll_ctl_add fd_quit_event; Iio_create_local_context;
        Iio_context_find_device; Iio_channel_disable_all] ++
       (Iio_channel_enable <$> selected (iio_channels args)) ++
       [Iio_device_create_buffer (iio_buffer_size args);
        Io_setup NUM_BUFS; Eventfd; Epoll_ctl_add fd_aio_event] ++
       replicate NUM_BUFS (Malloc true) ++
       (if G then [Timerfd_create; Timerfd_settime; Epoll_ctl_add fd_stats_timer] else []) ++
       [Io_submit (seq 0 NUM_BUFS) (Z.of_nat NUM_BUFS)] /\
  Forall (fun i => iio_channel_found env i = true) (selected (iio_channels args)) /\
  enabled tr = selected (iio_channels args) /\
  usb_buffer_size s = size_t (iio_buffer_step env * iio_buffer_size args) /\
  aio_pending s = seq 0 NUM_BUFS.
Proof.
  intros H. pose proof (tx_setup_ready G args env s tr H) as Hs.
  set (size := size_t (iio_buffer_step env * iio_buffer_size args)) in *.
  unfold setup in H.
  apply emit_bind_inv in H as (? & H & ->).
  destruct (epoll_create1_ret env <? 0); [by apply emit_ret_inv in H as [? _]|].
  apply emit_bind_inv in H as (? & H & ->).
  destruct (epoll_ctl_quit_ret env <? 0); [by apply emit_ret_inv in H as [? _]|].
  apply emit_bind_inv in H as (? & H & ->).
  destruct (negb (iio_ctx_found env)); [by apply emit_ret_inv in H as [? _]|].
  apply emit_bind_inv in H as (? & H & ->).
  destruct (negb (iio_dev_found env)); [by apply emit_ret_inv in H as [? _]|].
  apply emit_bind_inv in H as (? & H & ->).
  apply bind_Done_inv in H as (en & s1 & tr_en & ? & Hen & H & ->).
  pose proof (tx_enable_channels_state _ _ _ _ _ _ _ Hen) as ->.
  destruct en; cbn [negb] in H; [|by injection H].
  apply tx_enable_channels_trace in Hen as [-> Hfound].
  apply emit_bind_inv in H as (? & H & ->).
  destruct (negb (iio_buffer_created env)); [by apply emit_ret_inv in H as [? _]|].
  apply modify_bind_inv in H.
  apply emit_bind_inv in H as (? & H & ->).
  destruct (io_setup_ret env <? 0); [by apply emit_ret_inv in H as [? _]|].
  apply emit_bind_inv in H as (? & H & ->).
  destruct (eventfd_ret env <? 0); [by apply emit_ret_inv in H as [? _]|].
  apply emit_bind_inv in H as (? & H & ->).
  destruct (epoll_ctl_aio_ret env <? 0); [by apply emit_ret_inv in H as [? _]|].
  apply bind_Done_inv in H as (r & s2 & tr2 & tr3 & Halloc & H & ->).
  destruct r as [bufs|]; [|by injection H].
  pose proof (tx_allocate_buffers_ok _ _ _ _ _ _ Halloc) as Hok.
  change (allocate_buffers env (seq 0 NUM_BUFS) (set_usb_buffer_size size zero_state)
          = Done (Some bufs) s2 tr2) in Halloc.
  rewrite (tx_allocate_buffers_run env size Hok) in Halloc.
  injection Halloc as <- <- <-.
  apply bind_Done_inv in H as (st & s3 & tr4 & tr5 & Hst & H & ->).
  assert (Htr4 : st = true ->
                 tr4 = if G then [Timerfd_create; Timerfd_settime;
                                  Epoll_ctl_add fd_stats_timer] else []).
  { intros ->. destruct G; [by apply tx_setup_stats_trace in Hst | by injection Hst]. }
  destruct st; cbn [negb] in H; [|by injection H].
  rewrite Htr4 by done.
  apply bind_Done_inv in H as (res & s4 & tr6 & tr7 & Hres & H & ->).
  unfold io_submit in Hres. apply emit_bind_inv in Hres as (? & Hres & ->).
  apply modify_bind_inv in Hres. injection Hres as <- _ <-.
  destruct (Z.eqb_spec (Z.of_nat NUM_BUFS) (io_submit_ret env)) as [Heq|Hne]; cbn [negb] in H.
  2:{ by apply emit_ret_inv in H as [? _]. }
  injection H as _ <-. rewrite <- Heq.
  fold (selected (iio_channels args)) in Hfound |- *.
  match goal with |- ?t = ?rhs /\ _ =>
    assert (Htr : t = rhs) by (by destruct G) end.
  split; [exact Htr|]. split; [exact Hfound|]. split; [|by rewrite Hs].
  rewrite Htr, !enabled_app, enabled_fmap.
  generalize (selected (iio_channels args)). intros l.
  destruct G; cbn; by rewrite ?app_nil_r.
Qed.

Lemma tx_setup_calls_witness :
  let tr := trace_of (setup false example_args example_env zero_state) in
  let s := set_keep_running false (pool_ready 4096) in
  tr = [Epoll_create1; Epoll_ctl_add fd_quit_event; Iio_create_local_context;
        Iio_context_find_device; Iio_channel_disable_all] ++
       (Iio_channel_enable <$> selected (iio_channels example_args)) ++
       [Iio_device_create_buffer (iio_buffer_size example_args);
        Io_setup NUM_BUFS; Eventfd; Epoll_ctl_add fd_aio_event] ++
       replicate NUM_BUFS (Malloc true) ++
       (if false then [Timerfd_create; Timerfd_settime; Epoll_ctl_add fd_stats_timer]
        else []) ++
       [Io_submit (seq 0 NUM_BUFS) (Z.of_nat NUM_BUFS)] /\
  Forall (fun i => iio_channel_found example_env i = true)
         (selected (iio_channels example_args)) /\
  enabled tr = selected (iio_channels example_args) /\
  usb_buffer_size s = size_t (iio_buffer_step example_env * iio_buffer_size example_args) /\
  aio_pending s = seq 0 NUM_BUFS.
Proof.
  intros tr s. apply (tx_setup_calls false example_args example_env s tr).
  vm_compute. reflexivity.
Defined.

End TxSetUp.

(** ** main.c: a request for one direction leaves the other alone *)

Section MainIsolation.
Import Main.

Lemma stop_thread_returns tx env s : returns (stop_thread tx env) s.
Proof.
  unfold returns. rewrite stop_thread_run.
  destruct (started tx s); [|by eexists _, _, _].
  destruct (eventfd_write_ret env <? 0); [by eexists _, _, _|]. cbv zeta.
  destruct (eventfd_read_ret env <? 0); by eexists _, _, _.
Qed.

Lemma start_thread_returns tx env s : returns (start_thread tx env) s.
Proof.
  unfold returns. rewrite start_thread_run.
  destruct (sigprocmask_block_ret env <? 0); [by eexists _, _, _|].
  destruct (started tx s).
  { destruct (sigprocmask_restore_ret env <? 0); by eexists _, _, _. }
  cbv zeta. destruct (pthread_create_ret env =? 0); [|by eexists _, _, _].
  destruct (sigprocmask_restore_ret env <? 0); by eexists _, _, _.
Qed.

Lemma bind_always_returns {S E A B} (m : M S E A) (k : A -> M S E B) :
  (forall s, returns m s) -> (forall a s, returns (k a) s) -> forall s, returns (m ≫= k) s.
Proof.
  intros Hm Hk s. destruct (Hm s) as (a & s1 & tr1 & H1).
  eapply bind_returns; [exact H1 | apply Hk].
Qed.

(** [handle_ep0] returns, whatever the event and whatever the calls
    return. *)
Lemma handle_ep0_returns env : forall s, returns (handle_ep0 env) s.
Proof.
  unfold handle_ep0.
  repeat lazymatch goal with
    | |- forall s, returns (mbind _ _) s => apply bind_always_returns; [|intros ?]
    | |- forall s, returns (if ?c then _ else _) s => destruct c
    | |- forall s, returns (let _ := _ in _) s => cbv zeta
    | |- forall s, returns (stop_thread _ _) s => apply stop_thread_returns
    | |- forall s, returns (start_thread _ _) s => apply start_thread_returns
    | |- forall s, returns _ s => intros ?; by eexists _, _, _
    end.
Qed.

Lemma direction_of_ext d s s' :
  threads s' = threads s ->
  read_started s' = read_started s -> write_started s' = write_started s ->
  thread_read s' = thread_read s -> thread_write s' = thread_write s ->
  read_args s' = read_args s -> write_args s' = write_args s ->
  direction_of d s' = direction_of d s.
Proof.
  intros H1 H2 H3 H4 H5 H6 H7.
  unfold direction_of, engines_of, started, thread_of, args_of.
  by rewrite H1, H2, H3, H4, H5, H6, H7.
Qed.

Lemma stop_thread_frame d tx env s0 :
  tx = negb d -> preserves (frame d s0) (quiet d) (stop_thread tx env).
Proof.
  intros -> s a s' tr [Hinv Hd] H.
  destruct (stop_thread_inv (negb d) env s a s' tr Hinv H) as [Hinv' _].
  split; [split; [done|]|]; rewrite stop_thread_run in H.
  - rewrite <- Hd. destruct (started (negb d) s) eqn:Hst; [|by injection H as _ <- _].
    destruct (eventfd_write_ret env <? 0); [by injection H as _ <- _|].
    cbv zeta in H.
    destruct (session_inv_join (negb d) s Hinv Hst) as (_ & _ & Hoth).
    rewrite negb_involutive in Hoth.
    assert (Hjoin : direction_of d
                      (set_threads (filter (fun te => te.1 <> thread_of (negb d) s) (threads s))
                         (created s) s) = direction_of d s).
    { unfold direction_of. rewrite Hoth. by destruct d. }
    destruct (eventfd_read_ret env <? 0); injection H as _ <- _; [done|].
    rewrite <- Hjoin. unfold direction_of, engines_of. by destruct d.
  - destruct (started (negb d) s); [|by injection H as _ _ <-].
    destruct (eventfd_write_ret env <? 0).
    { injection H as _ _ <-. by destruct d; repeat constructor. }
    cbv zeta in H.
    destruct (eventfd_read_ret env <? 0); injection H as _ _ <-;
      by destruct d; repeat constructor.
Qed.

Lemma start_thread_frame d tx env s0 :
  tx = negb d -> preserves (frame d s0) (quiet d) (start_thread tx env).
Proof.
  intros -> s a s' tr [Hinv Hd] H.
  destruct (start_thread_inv (negb d) env s a s' tr Hinv H) as [Hinv' _].
  split; [split; [done|]|]; rewrite start_thread_run in H.
  - rewrite <- Hd. destruct (sigprocmask_block_ret env <? 0); [by injection H as _ <- _|].
    destruct (started (negb d) s) eqn:Hst.
    { by destruct (sigprocmask_restore_ret env <? 0); injection H as _ <- _. }
    cbv zeta in H.
    destruct (session_inv_create (negb d) s Hinv Hst) as (_ & _ & Hoth).
    rewrite negb_involutive in Hoth.
    destruct (pthread_create_ret env =? 0).
    + assert (Hnew : s' = set_started (negb d) true
                            (set_thread_of (negb d) (created s)
                               (set_threads (threads s ++ [(created s, engine_of (negb d) s)])
                                  (S (created s)) s))).
      { by destruct (sigprocmask_restore_ret env <? 0); injection H as _ <- _. }
      rewrite Hnew. unfold direction_of. rewrite Hoth. by destruct d.
    + injection H as _ <- _. unfold direction_of, engines_of. by destruct d.
  - destruct (sigprocmask_block_ret env <? 0).
    { injection H as _ _ <-. by repeat constructor. }
    destruct (started (negb d) s).
    { by destruct (sigprocmask_restore_ret env <? 0); injection H as _ _ <-;
        repeat constructor. }
    cbv zeta in H. destruct (pthread_create_ret env =? 0).
    + by destruct (sigprocmask_restore_ret env <? 0); injection H as _ _ <-;
        destruct d; repeat constructor.
    + injection H as _ _ <-. by destruct d; repeat constructor.
Qed.

Lemma set_args_frame d s0 (a_tx : Tx.THREAD_WRITE_Args_t) (a_rx : Rx.THREAD_READ_Args_t) s :
  frame d s0 s ->
  frame d s0 (if negb d then set_write_args a_tx s else set_read_args a_rx s).
Proof.
  intros [Hinv Hd]. split.
  - by destruct d; (eapply session_inv_ext; [..|exact Hinv]).
  - rewrite <- Hd. by destruct d.
Qed.

Lemma handle_ep0_frame d env s0 :
  type (event env) = FUNCTIONFS_SETUP ->
  (bRequest (setup (event env)) = SDR_USB_GADGET_COMMAND_START ->
   d = negb (SDR_USB_GADGET_COMMAND_TARGET_TX =? wValue (setup (event env)))) ->
  (bRequest (setup (event env)) = SDR_USB_GADGET_COMMAND_STOP ->
   d = (0 =? wValue (setup (event env)))) ->
  preserves (frame d s0) (quiet d) (handle_ep0 env).
Proof.
  intros Hty Hstart Hstop. unfold handle_ep0. rewrite Hty, Z.eqb_refl.
  apply preserves_bind; [apply preserves_emit; by destruct d|intros _].
  destruct (negb (_ =? event_read_ret env)).
  { apply preserves_bind; [by apply preserves_emit|intros _]. apply preserves_ret. }
  cbv zeta.
  destruct (negb (Z.land _ USB_DIR_IN =? 0)).
  { apply preserves_bind; [apply preserves_emit; by destruct d|intros _].
    destruct (null_write_ret env <? 0); [|apply preserves_ret].
    apply preserves_bind; [by apply preserves_emit|intros _]. apply preserves_ret. }
  apply preserves_bind; [apply preserves_emit; by destruct d|intros _].
  destruct (read_count env <? 0).
  { apply preserves_bind; [by apply preserves_emit|intros _]. apply preserves_ret. }
  destruct (Z.eqb_spec (bRequest (setup (event env))) SDR_USB_GADGET_COMMAND_START)
    as [Hreq|_].
  { destruct (negb (read_count env =? sizeof_cmdStartRequest_t)).
    { apply preserves_bind; [by apply preserves_emit|intros _]. apply preserves_ret. }
    specialize (Hstart Hreq).
    assert (Htx : (SDR_USB_GADGET_COMMAND_TARGET_TX =? wValue (setup (event env))) = negb d)
      by (rewrite Hstart; by rewrite negb_involutive).
    rewrite Htx.
    apply preserves_bind; [by apply stop_thread_frame|intros _].
    apply preserves_bind; [|intros _].
    { intros s a s' tr HP H.
      assert (Hs' : s' = (if negb d
                          then set_write_args
                                 {| Tx.iio_channels := enabled_channels (control_in_data env);
                                    Tx.iio_buffer_size := buffer_size (control_in_data env) |} s
                          else set_read_args
                                 {| Rx.iio_channels := enabled_channels (control_in_data env);
                                    Rx.iio_buffer_size := buffer_size (control_in_data env) |} s)
                    /\ tr = []).
      { by destruct (negb d); injection H as _ <- <-. }
      destruct Hs' as [-> ->]. split; [by apply set_args_frame | constructor]. }
    apply preserves_bind; [by apply start_thread_frame|intros _]. apply preserves_ret. }
  destruct (Z.eqb_spec (bRequest (setup (event env))) SDR_USB_GADGET_COMMAND_STOP)
    as [Hreq|_]; [|apply preserves_ret].
  specialize (Hstop Hreq). rewrite <- Hstop.
  apply preserves_bind; [by apply stop_thread_frame|intros _]. apply preserves_ret.
Qed.

(** A request for one direction leaves the other alone: in a state of a
    session in which the flag of the direction that a START or a STOP
    selects, if it is set, names a running thread, whatever the control
    transfer carries and whatever the calls return, [handle_ep0] returns,
    and for the other direction it neither writes to nor reads from the
    cancellation eventfd, neither creates nor joins a thread, and leaves
    the running engine, the started flag, the [pthread_t] and the
    arguments as they were.  The thread that a join of the selected
    direction names is a running thread of this direction and not one of
    the other. *)
Theorem request_leaves_other_direction d env s :
  Session s -> joinable (negb d) s ->
  type (event env) = FUNCTIONFS_SETUP ->
  (bRequest (setup (event env)) = SDR_USB_GADGET_COMMAND_START ->
   d = negb (SDR_USB_GADGET_COMMAND_TARGET_TX =? wValue (setup (event env)))) ->
  (bRequest (setup (event env)) = SDR_USB_GADGET_COMMAND_STOP ->
   d = (0 =? wValue (setup (event env)))) ->
  (started (negb d) s = true ->
   thread_of (negb d) s ∈ running_threads (negb d) s /\
   (thread_of (negb d) s ∉ running_threads d s)) /\
  exists x s' tr,
    handle_ep0 env s = Done x s' tr /\
    direction_of d s' = direction_of d s /\
    Forall (fun c => addresses d c = false) tr.
Proof.
  intros Hs Hj Hty Hstart Hstop. pose proof (Session_inv s Hs) as Hinv. split.
  { intros Hst. split; [by apply Hj|].
    pose proof (joinable_not_other (negb d) s Hinv Hst) as Hnot.
    by rewrite negb_involutive in Hnot. }
  destruct (handle_ep0_returns env s) as (x & s' & tr & H).
  exists x, s', tr. split; [done|].
  destruct (handle_ep0_frame d env s Hty Hstart Hstop s x s' tr) as [[_ Hd] Htr];
    [by split | done | done].
Qed.

Lemma request_leaves_other_direction_witness :
  let env := request SDR_USB_GADGET_COMMAND_START 1 [1; 0; 0; 0; 0; 8; 0; 0] stop_ok in
  (started (negb false) receiving = true ->
   thread_of (negb false) receiving ∈ running_threads (negb false) receiving /\
   (thread_of (negb false) receiving ∉ running_threads false receiving)) /\
  exists x s' tr,
    handle_ep0 env receiving = Done x s' tr /\
    direction_of false s' = direction_of false receiving /\
    Forall (fun c => addresses false c = false) tr.
Proof.
  intros env.
  apply (request_leaves_other_direction false env receiving).
  - apply receiving_Session.
  - apply receiving_joinable.
  - reflexivity.
  - intros _. reflexivity.
  - intros H. discriminate H.
Defined.

End MainIsolation.
